(** * markdown_illustrator: parser, placement engine and regeneration reconciler

    A shallow embedding of [src/parser.py], [src/analyzer.py] and
    [src/regenerate.py], and the properties of the specification that
    concern them.

    Python values are modelled as follows.
    - [str] is a sequence of Unicode code points: [list N].
    - [int] is unbounded: [Z]; list positions and lengths are [nat].
    - [list] is [list], read with stdpp's lookup [l !! i] and sliced with
      [take]/[drop]; objects mutated in place (the elements of a document)
      are updated in the list that owns them with [<[i := x]>].
    - a [dict] whose iteration order matters is an association list, a
      counter dictionary is a [gmap].
    - [re] patterns are written with backtracking combinators in
      continuation-passing style, one combinator per regex operator, so
      that a pattern reads like its source text. *)

From Stdlib Require Import String Ascii ZArith NArith List Lia Bool.
From Stdlib Require Import DecimalString Decimal.
From stdpp Require Import base option list sorting gmap.

#[local] Open Scope N_scope.

(* ===================================================================== *)
(** ** Python strings *)
(* ===================================================================== *)

Module Py.

Definition char := N.
Definition str := list N.

(** A literal of the source whose characters are all ASCII. *)
Definition lit (s : string) : str :=
  List.map N_of_ascii (list_ascii_of_string s).

(** What the interpreter's Unicode database contributes outside ASCII.
    The database is not part of the repository, so it is a parameter of the
    definitions that consult it.
    - [alnum c]: [chr(c).isalnum()], which [\w] tests besides [_];
    - [decimal c]: the value of a decimal digit, which [\d] tests and
      [int()] reads;
    - [lower c]: the code points [chr(c).lower()] consists of.  (The one
      context-dependent case of [str.lower], the final sigma, chooses
      between two non-ASCII code points; the source only ever searches
      lowered text for ASCII keywords, which neither contains.) *)
Record unicodedata := {
  alnum : N -> bool;
  decimal : N -> option N;
  lower : N -> list N;
}.

(** The database restricted to ASCII: no other letter or digit, and no
    case outside ASCII.  It agrees with the interpreter wherever the
    characters tested by [\w], [\d] and [lower] are ASCII; the
    interpreter also counts letters and digits outside ASCII (CJK
    ideographs, full-width digits) as word characters and digits.  It
    is used to evaluate the code at concrete inputs in which the
    characters so tested are ASCII; the general theorems hold for every
    database. *)
Definition caseless : unicodedata :=
  {| alnum := fun _ => false; decimal := fun _ => None; lower := fun c => [c] |}.

Definition NL : N := 10.

(** [str.isspace] on one character, which is also what [\s] matches:
    the 29 code points the interpreter lists as whitespace. *)
Definition isspace (c : N) : bool :=
  ((9 <=? c) && (c <=? 13)) || ((28 <=? c) && (c <=? 32))
  || (c =? 0x85) || (c =? 0xa0) || (c =? 0x1680)
  || ((0x2000 <=? c) && (c <=? 0x200a))
  || (c =? 0x2028) || (c =? 0x2029) || (c =? 0x202f) || (c =? 0x205f)
  || (c =? 0x3000).

Definition is_ascii_digit (c : N) : bool := (48 <=? c) && (c <=? 57).
Definition is_ascii_upper (c : N) : bool := (65 <=? c) && (c <=? 90).
Definition is_ascii_lower (c : N) : bool := (97 <=? c) && (c <=? 122).

Section Tables.
Variable U : unicodedata.

(** [\w]: letters, digits and the underscore. *)
Definition isword (c : N) : bool :=
  if c <? 128
  then is_ascii_digit c || is_ascii_upper c || is_ascii_lower c || (c =? 95)
  else alnum U c.

(** The value of a character [\d] matches. *)
Definition digit_value (c : N) : option N :=
  if c <? 128
  then (if is_ascii_digit c then Some (c - 48) else None)
  else decimal U c.

Definition isdigit (c : N) : bool :=
  match digit_value c with Some _ => true | None => false end.

(** [int(s)] on a non-empty run of digits. *)
Definition int_of_digits (s : str) : Z :=
  Z.of_N (fold_left (fun acc c => 10 * acc + default 0 (digit_value c)) s 0).

(** [s.lower()], character by character. *)
Definition str_lower (s : str) : str :=
  flat_map (fun c => if c <? 128
                     then [if is_ascii_upper c then c + 32 else c]
                     else lower U c) s.
End Tables.

Definition str_eqb (a b : str) : bool := bool_decide (a = b).

(** [s.startswith(p)] *)
Fixpoint startswith (p s : str) : bool :=
  match p, s with
  | [], _ => true
  | _ :: _, [] => false
  | a :: p', b :: s' => (a =? b) && startswith p' s'
  end.

(** [needle in hay] *)
Fixpoint contains (needle hay : str) : bool :=
  startswith needle hay
  || match hay with
     | [] => false
     | _ :: hay' => contains needle hay'
     end.

(** [s.lstrip()], [s.rstrip()], [s.strip()] *)
Fixpoint lstrip (s : str) : str :=
  match s with
  | c :: s' => if isspace c then lstrip s' else s
  | [] => []
  end.

Definition rstrip (s : str) : str := rev (lstrip (rev s)).

Definition strip (s : str) : str := rstrip (lstrip s).

(** [sep.join(parts)] *)
Fixpoint join (sep : str) (parts : list str) : str :=
  match parts with
  | [] => []
  | [p] => p
  | p :: rest => p ++ sep ++ join sep rest
  end.

(** [s.split(d)] for a one-character separator: never the empty list. *)
Fixpoint split (d : N) (s : str) : list str :=
  match s with
  | [] => [[]]
  | c :: s' =>
      if c =? d then [] :: split d s'
      else match split d s' with
           | h :: t => (c :: h) :: t
           | [] => [[c]]
           end
  end.

(** [s.replace(c, '')] for a one-character pattern. *)
Definition remove_char (c : N) (s : str) : str :=
  List.filter (fun x => negb (x =? c)) s.

(** [s.count(sub)] for a non-empty [sub]: occurrences that do not
    overlap, counted from the left; [skip] is what is left of the
    occurrence being stepped over. *)
Fixpoint count_from (sub s : str) (skip : nat) : Z :=
  match s with
  | [] => 0
  | _ :: s' =>
      match skip with
      | S k => count_from sub s' k
      | O => if startswith sub s
             then (1 + count_from sub s' (length sub - 1))%Z
             else count_from sub s' 0
      end
  end.

Definition count (sub s : str) : Z := count_from sub s 0.

(** [str(n)] for a natural number. *)
Definition str_of_nat (n : nat) : str :=
  lit (NilZero.string_of_uint (Nat.to_uint n)).

(** [re.sub] of the pattern "\s+" by the empty string. *)
Definition remove_spaces (s : str) : str :=
  List.filter (fun c => negb (isspace c)) s.

End Py.

(* ===================================================================== *)
(** ** Regular expressions *)
(* ===================================================================== *)

(** The patterns of the source are transcribed operator by operator.  A
    matcher consumes a prefix of the text and hands the rest to its
    continuation; a greedy repetition offers its longest match first and
    gives characters back one at a time while the continuation fails,
    as the backtracking engine of [re] does.  Repetitions also pass on
    the text they matched, which is how groups are read. *)
Module Re.
Import Py.

Section Combinators.
Context {A : Type}.

Definition orelse (a b : option A) : option A :=
  match a with Some _ => a | None => b end.

(** One given character. *)
Definition chr (c : N) (s : str) (k : str -> option A) : option A :=
  match s with
  | x :: s' => if x =? c then k s' else None
  | [] => None
  end.

(** A literal string. *)
Fixpoint text (p : str) (s : str) (k : str -> option A) : option A :=
  match p with
  | [] => k s
  | c :: p' => chr c s (fun s' => text p' s' k)
  end.

(** One character of a class. *)
Definition one (P : N -> bool) (s : str) (k : str -> option A) : option A :=
  match s with
  | x :: s' => if P x then k s' else None
  | [] => None
  end.

(** [P*], greedy; [acc] is the text matched so far. *)
Fixpoint star (P : N -> bool) (acc s : str)
    (k : str -> str -> option A) : option A :=
  match s with
  | c :: s' =>
      if P c then orelse (star P (acc ++ [c]) s' k) (k acc s) else k acc s
  | [] => k acc s
  end.

(** [P{lo,}], greedy. *)
Fixpoint at_least (P : N -> bool) (lo : nat) (acc s : str)
    (k : str -> str -> option A) : option A :=
  match lo with
  | O => star P acc s k
  | S n =>
      match s with
      | c :: s' => if P c then at_least P n (acc ++ [c]) s' k else None
      | [] => None
      end
  end.

(** [P+] *)
Definition plus (P : N -> bool) (s : str)
    (k : str -> str -> option A) : option A :=
  at_least P 1 [] s k.

(** [P{0,hi}], greedy. *)
Fixpoint at_most (P : N -> bool) (hi : nat) (acc s : str)
    (k : str -> str -> option A) : option A :=
  match hi, s with
  | S n, c :: s' =>
      if P c then orelse (at_most P n (acc ++ [c]) s' k) (k acc s)
      else k acc s
  | _, _ => k acc s
  end.

(** [P{lo,hi}], greedy. *)
Fixpoint between (P : N -> bool) (lo hi : nat) (acc s : str)
    (k : str -> str -> option A) : option A :=
  match lo with
  | O => at_most P hi acc s k
  | S n =>
      match s with
      | c :: s' => if P c then between P n (pred hi) (acc ++ [c]) s' k else None
      | [] => None
      end
  end.

(** [$] without [re.MULTILINE]: the end of the text, or just before a
    newline that ends it. *)
Definition dollar (s : str) : bool :=
  match s with
  | [] => true
  | [c] => c =? NL
  | _ => false
  end.

Definition at_end (v : A) (s : str) : option A :=
  if dollar s then Some v else None.

(** [pattern.search]: the leftmost position where [m] matches. *)
Fixpoint search (m : str -> option A) (s : str) : option A :=
  orelse (m s)
         match s with
         | [] => None
         | _ :: s' => search m s'
         end.
End Combinators.

(** [.] *)
Definition dot (c : N) : bool := negb (c =? NL).

Definition only (c : N) : N -> bool := fun x => x =? c.
Definition except (c : N) : N -> bool := fun x => negb (x =? c).

Definition matched {A} (r : option A) : bool :=
  match r with Some _ => true | None => false end.
End Re.

(* ===================================================================== *)
(** ** parser.py *)
(* ===================================================================== *)

Module Parser.
Import Py Re.

Definition ch (a : ascii) : N := N_of_ascii a.

Inductive ElementType :=
  | HEADING | PARAGRAPH | CODE_BLOCK | LIST | QUOTE
  | HORIZONTAL_RULE | TABLE | EMPTY.

#[global] Instance ElementType_eq_dec : EqDecision ElementType.
Proof. solve_decision. Defined.

(** [ElementType.value] *)
Definition value (t : ElementType) : str :=
  match t with
  | HEADING => lit "heading"
  | PARAGRAPH => lit "paragraph"
  | CODE_BLOCK => lit "code_block"
  | LIST => lit "list"
  | QUOTE => lit "quote"
  | HORIZONTAL_RULE => lit "horizontal_rule"
  | TABLE => lit "table"
  | EMPTY => lit "empty"
  end.

Record MarkdownElement := {
  type : ElementType;
  content : str;
  level : nat;
  position : nat;
  raw_line : str;
  word_count : nat;
  line_count : nat;
  need_image : bool;
  image_type : option str;
  image_prompt : option str;
}.

(** The constructor call [MarkdownElement(type=, content=, level=,
    raw_line=)] followed by [__post_init__], which counts the characters
    of [content] that are not whitespace. *)
Definition new_element (t : ElementType) (c : str) (lv : nat) (raw : str)
    : MarkdownElement :=
  {| type := t; content := c; level := lv; position := 0; raw_line := raw;
     word_count := length (remove_spaces c); line_count := 0;
     need_image := false; image_type := None; image_prompt := None |}.

Definition set_position (p : nat) (e : MarkdownElement) : MarkdownElement :=
  {| type := type e; content := content e; level := level e; position := p;
     raw_line := raw_line e; word_count := word_count e;
     line_count := line_count e; need_image := need_image e;
     image_type := image_type e; image_prompt := image_prompt e |}.

(** The fields the core reads and writes; [metadata] and [sections] are
    never touched by it. *)
Record MarkdownDocument := {
  elements : list MarkdownElement;
  title : str;
  theme : str;
  keywords : list str;
}.

Definition is_heading (e : MarkdownElement) : bool :=
  bool_decide (type e = HEADING).
Definition is_paragraph (e : MarkdownElement) : bool :=
  bool_decide (type e = PARAGRAPH).

Definition get_headings (doc : MarkdownDocument) (lv : option nat)
    : list MarkdownElement :=
  let headings := List.filter is_heading (elements doc) in
  match lv with
  | Some n => List.filter (fun e => Nat.eqb (level e) n) headings
  | None => headings
  end.

Definition get_paragraphs (doc : MarkdownDocument) : list MarkdownElement :=
  List.filter is_paragraph (elements doc).

(** The longest prefix of [l] whose members satisfy [P], which is what a
    loop [while i < total_lines: if not P(lines[i]): break; ...; i += 1]
    collects. *)
Fixpoint collect {A} (P : A -> bool) (l : list A) : list A :=
  match l with
  | x :: l' => if P x then x :: collect P l' else []
  | [] => []
  end.

Section Patterns.
Variable U : unicodedata.

(** The pattern "^(#{1,6})\s+(.+)$": the groups are the hashes and the text. *)
Definition HEADING_PATTERN (s : str) : option (str * str) :=
  between (only (ch "#")) 1 6 [] s (fun hashes s1 =>
  plus isspace s1 (fun _ s2 =>
  plus dot s2 (fun body s3 =>
  at_end (hashes, body) s3))).

(** [CODE_BLOCK_PATTERN]: three backquotes, the group [\w*], then [\s*$]; the group is the language. *)
Definition CODE_BLOCK_PATTERN (s : str) : option str :=
  text (lit "```") s (fun s1 =>
  star (isword U) [] s1 (fun lang s2 =>
  star isspace [] s2 (fun _ s3 =>
  at_end lang s3))).

(** [LIST_PATTERN]: the group [\s*], the group [[-*+]|\d+\.], then [\s+]. *)
Definition LIST_PATTERN (s : str) : option unit :=
  star isspace [] s (fun _ s1 =>
  let tail := fun s2 => plus isspace s2 (fun _ _ => Some tt) in
  orelse
    (one (fun c => (c =? ch "-") || (c =? ch "*") || (c =? ch "+")) s1 tail)
    (plus (isdigit U) s1 (fun _ s2 => chr (ch ".") s2 tail))).

(** [QUOTE_PATTERN]: [>], then [\s*], the group [.*], then [$]; the group is the quoted text. *)
Definition QUOTE_PATTERN (s : str) : option str :=
  chr (ch ">") s (fun s1 =>
  star isspace [] s1 (fun _ s2 =>
  star dot [] s2 (fun body s3 =>
  at_end body s3))).

(** The pattern "^\s*$". *)
Definition EMPTY_PATTERN (s : str) : option unit :=
  star isspace [] s (fun _ s1 => at_end tt s1).

(** The pattern "^\|.*\|$". *)
Definition TABLE_PATTERN (s : str) : option unit :=
  chr (ch "|") s (fun s1 =>
  star dot [] s1 (fun _ s2 =>
  chr (ch "|") s2 (fun s3 =>
  at_end tt s3))).

(** One alternative of [HR_PATTERN]: three or more of one character,
    then the end of the line. *)
Definition rule (c : N) (s : str) : option unit :=
  at_least (only c) 3 [] s (fun _ s1 => at_end tt s1).

(** The pattern "^-{3,}$|^_{3,}$|\*{3,}$".  The parser only ever calls
    [HR_PATTERN.match], which tries the pattern at the first character
    of the line and nowhere else, so the third alternative starts
    there as well although it bears no [^]. *)
Definition HR_PATTERN (s : str) : option unit :=
  orelse (rule (ch "-") s) (orelse (rule (ch "_") s) (rule (ch "*") s)).

(** [_parse_code_block]: the lines after the opening fence up to the
    next fence or the end of the input; the closing fence, found or
    not, is counted as consumed. *)
Definition _parse_code_block (lines : list str) (index : nat) (start_line : str)
    : MarkdownElement * nat :=
  let content_lines :=
    collect (fun l => negb (matched (CODE_BLOCK_PATTERN l)))
            (drop (S index) lines) in
  let i := (index + 1 + length content_lines)%nat in
  (new_element CODE_BLOCK (join [NL] content_lines) 0 start_line,
   (i - index + 1)%nat).

(** The test on which [_parse_paragraph] stops. *)
Definition ends_paragraph (line : str) : bool :=
  matched (EMPTY_PATTERN line) || matched (HEADING_PATTERN line)
  || matched (CODE_BLOCK_PATTERN line) || matched (HR_PATTERN line)
  || matched (LIST_PATTERN line) || matched (QUOTE_PATTERN line).

Definition _parse_paragraph (lines : list str) (index : nat) (first : str)
    : MarkdownElement * nat :=
  let content_lines :=
    collect (fun l => negb (ends_paragraph l)) (drop index lines) in
  let i := (index + length content_lines)%nat in
  (new_element PARAGRAPH (join (lit " ") content_lines) 0 first,
   (i - index)%nat).

Definition _parse_list (lines : list str) (index : nat) (first : str)
    : MarkdownElement * nat :=
  let content_lines :=
    collect (fun l => matched (LIST_PATTERN l)) (drop index lines) in
  let i := (index + length content_lines)%nat in
  (new_element LIST (join [NL] content_lines) 0 first, (i - index)%nat).

Definition _parse_quote (lines : list str) (index : nat) (first : str)
    : MarkdownElement * nat :=
  let quoted :=
    collect (fun l => matched (QUOTE_PATTERN l)) (drop index lines) in
  let content_lines := List.map (fun l => default [] (QUOTE_PATTERN l)) quoted in
  let i := (index + length quoted)%nat in
  (new_element QUOTE (join (lit " ") content_lines) 0 first, (i - index)%nat).

Definition _parse_table (lines : list str) (index : nat) (first : str)
    : MarkdownElement * nat :=
  let content_lines :=
    collect (fun l => matched (TABLE_PATTERN l)) (drop index lines) in
  let i := (index + length content_lines)%nat in
  (new_element TABLE (join [NL] content_lines) 0 first, (i - index)%nat).

(** [_parse_line]: the element that starts at [lines[index]], if any,
    and the number of lines it takes.  [None] stands for the
    [IndexError] of [lines[index]]. *)
Definition _parse_line (lines : list str) (index : nat)
    : option (option MarkdownElement * nat) :=
  match lines !! index with
  | None => None
  | Some line =>
      Some
        (if matched (EMPTY_PATTERN line) then (None, 1%nat)
         else match HEADING_PATTERN line with
         | Some (hashes, body) =>
             (Some (new_element HEADING body (length hashes) line), 1%nat)
         | None =>
         let some := fun r : MarkdownElement * nat => (Some (fst r), snd r) in
         if matched (CODE_BLOCK_PATTERN line)
         then some (_parse_code_block lines index line)
         else if matched (QUOTE_PATTERN line)
         then some (_parse_quote lines index line)
         else if matched (LIST_PATTERN line)
         then some (_parse_list lines index line)
         else if matched (TABLE_PATTERN line)
         then some (_parse_table lines index line)
         else if matched (HR_PATTERN line)
         then (Some (new_element HORIZONTAL_RULE line 0 line), 1%nat)
         else some (_parse_paragraph lines index line)
         end)
  end.

(** The loop of [parse]: [while i < total_lines].  Each round moves [i]
    forward, so [fuel] rounds are enough when [fuel] is the number of
    lines; [None] is an exhausted [fuel] or an [IndexError]. *)
Fixpoint parse_loop (fuel : nat) (lines : list str) (i : nat)
    (elems : list MarkdownElement) : option (list MarkdownElement) :=
  if bool_decide (i < length lines)%nat then
    match fuel with
    | O => None
    | S fuel' =>
        match _parse_line lines i with
        | None => None
        | Some (element, lines_consumed) =>
            let elems' :=
              match element with
              | Some e => elems ++ [set_position (length elems) e]
              | None => elems
              end in
            parse_loop fuel' lines (i + lines_consumed) elems'
        end
    end
  else Some elems.

Definition _extract_title (elems : list MarkdownElement) : str :=
  match List.filter (fun e => Nat.eqb (level e) 1) (List.filter is_heading elems) with
  | h :: _ => content h
  | [] => lit "Untitled"
  end.

Definition parse (text : str) : option MarkdownDocument :=
  let lines := split NL text in
  match parse_loop (length lines) lines 0 [] with
  | Some elems =>
      Some {| elements := elems; title := _extract_title elems;
              theme := []; keywords := [] |}
  | None => None
  end.
End Patterns.
End Parser.

(* ===================================================================== *)
(** ** analyzer.py *)
(* ===================================================================== *)

Module Analyzer.
Import Py Parser.

#[local] Open Scope Z_scope.

(** One entry of [ab_test.variations], and one generated variant. *)
Record Variation := {
  var_name : option str;
  var_description : option str;
  var_prompt_suffix : option str;
}.

Record Variant := {
  name : str;
  description : str;
  variant_prompt : str;
}.

Record ImageDecision := {
  element_index : nat;
  need_image : bool;
  image_type : str;
  prompt : str;
  reason : str;
  ab_variants : option (list Variant);
  image_source : option str;
}.

(** The values [h2_after] is compared with: [is True], [== 'smart'],
    anything else. *)
Inductive h2_setting := H2_true | H2_smart | H2_other.

(** [config['rules']]: a key that is absent is [None] and is read through
    [rules.get(key, default)]. *)
Record Rules := {
  h1_after : option bool;
  h2_after : option h2_setting;
  long_paragraph_threshold : option Z;
  min_gap_between_images : option Z;
  max_images_per_article : option Z;
}.

(** [config['ab_test']] *)
Record ABTest := {
  enabled : bool;
  variations : list Variation;
  test_size : Z;
}.

Definition CONCEPT_KEYWORDS : list str :=
  [ [0x539f; 0x7406]%N;                    (* 原理 *)
    [0x673a; 0x5236]%N;                    (* 机制 *)
    [0x6982; 0x5ff5]%N;                    (* 概念 *)
    [0x6d41; 0x7a0b]%N;                    (* 流程 *)
    [0x5de5; 0x4f5c; 0x539f; 0x7406]%N;    (* 工作原理 *)
    [0x662f; 0x4ec0; 0x4e48]%N;            (* 是什么 *)
    lit "principle"; lit "mechanism"; lit "concept"; lit "how it works" ].

(** [self.image_source = image_source or config.get('image_source', 'zhipu')] *)
Definition configured_source (argument : option str) (configured : option str)
    : str :=
  match argument with
  | Some (c :: s) => c :: s
  | _ => default (lit "zhipu") configured
  end.

(** [_determine_image_source], for an analyzer whose [self.image_source]
    is [self_image_source]. *)
Definition _determine_image_source (self_image_source : str)
    (image_type doc_type : str) : str :=
  if str_eqb image_type (lit "cover") then self_image_source
  else if str_eqb doc_type (lit "technical")
          && existsb (str_eqb image_type)
               [lit "section"; lit "concept"; lit "diagram"]
  then lit "mermaid"
  else if str_eqb doc_type (lit "normal") then lit "unsplash"
  else self_image_source.

(** [_generate_ab_variants] *)
Definition _generate_ab_variants (base_prompt : str)
    (variations : list Variation) (test_size : Z) : list Variant :=
  let actual_size := Z.min test_size (Z.of_nat (length variations)) in
  List.map
    (fun '(i, variation) =>
       let name := default (lit "variant_" ++ str_of_nat i) (var_name variation) in
       {| name := name;
          description := default name (var_description variation);
          variant_prompt := base_prompt ++ default [] (var_prompt_suffix variation) |})
    (take (Z.to_nat actual_size) (imap pair variations)).

Section Analyze.
(** The analyzer object: its image source, its rules, its A/B test
    settings, and [_generate_prompt], which asks the language model or
    fills a template from the element, the document as it stands, the
    image type and the image source.  The prompt text is produced
    outside the core and is a parameter here; [doc.theme] and
    [doc.keywords], which [analyze] derives before anything else, are
    read by the prompt generator only and are part of that parameter. *)
Variable self_image_source : str.
Variable rules : Rules.
Variable ab_test : ABTest.
Variable _generate_prompt :
  MarkdownElement -> list MarkdownElement -> str -> str -> str.

Definition min_gap : Z := default 3 (min_gap_between_images rules).
Definition max_images : Z := default 10 (max_images_per_article rules).

Definition is_type (t : str) (el : MarkdownElement) : bool :=
  str_eqb (value (type el)) t.

(** [_should_add_section_image]: more than 100 characters of paragraph
    text between this heading and the next one. *)
Fixpoint section_words (following : list MarkdownElement) (total_words : Z)
    : bool :=
  match following with
  | [] => false
  | element :: rest =>
      if is_type (lit "heading") element then false
      else
        let total_words :=
          if is_type (lit "paragraph") element
          then total_words + Z.of_nat (word_count element)
          else total_words in
        if 100 <? total_words then true else section_words rest total_words
  end.

Definition _should_add_section_image (elems : list MarkdownElement)
    (heading_index : nat) : bool :=
  section_words (drop (S heading_index) elems) 0.

Definition _create_cover_decision (element : MarkdownElement)
    (elems : list MarkdownElement) (doc_type : str) (index : nat)
    : ImageDecision :=
  let source := _determine_image_source self_image_source (lit "cover") doc_type in
  {| element_index := index; need_image := true;
     image_type := lit "cover";
     prompt := _generate_prompt element elems (lit "cover") source;
     (* H1 标题后配封面图 *)
     reason := lit "H1 "
               ++ [0x6807; 0x9898; 0x540e; 0x914d; 0x5c01; 0x9762; 0x56fe]%N;
     ab_variants := None; image_source := Some source |}.

Definition _create_section_decision (element : MarkdownElement)
    (elems : list MarkdownElement) (doc_type : str) (index : nat)
    : ImageDecision :=
  let image_type :=
    if existsb (fun kw => contains kw (content element)) CONCEPT_KEYWORDS
    then lit "concept" else lit "section" in
  let source := _determine_image_source self_image_source image_type doc_type in
  {| element_index := index; need_image := true;
     image_type := image_type;
     prompt := _generate_prompt element elems image_type source;
     (* H2 标题后配图 (image_type) *)
     reason := lit "H2 " ++ [0x6807; 0x9898; 0x540e; 0x914d; 0x56fe]%N
               ++ lit " (" ++ image_type ++ lit ")";
     ab_variants := None; image_source := Some source |}.

Definition _create_atmospheric_decision (element : MarkdownElement)
    (elems : list MarkdownElement) (doc_type : str) (index : nat)
    : ImageDecision :=
  let source :=
    _determine_image_source self_image_source (lit "atmospheric") doc_type in
  {| element_index := index; need_image := true;
     image_type := lit "atmospheric";
     prompt := _generate_prompt element elems (lit "atmospheric") source;
     (* 长段落配图 (word_count 字) *)
     reason := [0x957f; 0x6bb5; 0x843d; 0x914d; 0x56fe]%N ++ lit " ("
               ++ str_of_nat (word_count element)
               ++ lit " " ++ [0x5b57]%N ++ lit ")";
     ab_variants := None; image_source := Some source |}.

(** [_analyze_element]: the first rule that returns decides; a rule
    whose inner test fails falls through to the next one. *)
Definition _analyze_element (element : MarkdownElement)
    (elems : list MarkdownElement) (doc_type : str) (index : nat)
    : option ImageDecision :=
  let heading := is_type (lit "heading") element in
  if heading && Nat.eqb (level element) 1 && default true (h1_after rules)
  then Some (_create_cover_decision element elems doc_type index)
  else
    let h2_rule := default H2_smart (h2_after rules) in
    if heading && Nat.eqb (level element) 2
       && match h2_rule with
          | H2_true => true
          | H2_smart => _should_add_section_image elems index
          | H2_other => false
          end
    then Some (_create_section_decision element elems doc_type index)
    else
      if is_type (lit "paragraph") element
         && (default 150 (long_paragraph_threshold rules)
             <=? Z.of_nat (word_count element))
      then Some (_create_atmospheric_decision element elems doc_type index)
      else None.

(** The assignments [element.need_image = True], [element.image_type =
    ...], [element.image_prompt = ...] on an element of the document. *)
Definition annotate (ty p : str) (e : MarkdownElement) : MarkdownElement :=
  {| type := type e; content := content e; level := level e;
     position := position e; raw_line := raw_line e;
     word_count := word_count e; line_count := line_count e;
     Parser.need_image := true; Parser.image_type := Some ty;
     image_prompt := Some p |}.

(** The local variables of [analyze] and the document it annotates. *)
Record State := {
  decisions : list ImageDecision;
  last_image_index : Z;
  image_count : Z;
  doc_elements : list MarkdownElement;
}.

Definition with_variants (decision : ImageDecision) : ImageDecision :=
  if enabled ab_test && negb (bool_decide (variations ab_test = []))
  then {| element_index := element_index decision;
          need_image := need_image decision;
          image_type := image_type decision;
          prompt := prompt decision;
          reason := reason decision;
          ab_variants :=
            Some (_generate_ab_variants (prompt decision)
                    (variations ab_test) (test_size ab_test));
          image_source := image_source decision |}
  else decision.

(** The main scan, [for i, element in enumerate(doc.elements)]; [todo]
    holds the positions still to visit. *)
Fixpoint scan (doc_type : str) (todo : list nat) (st : State) : State :=
  match todo with
  | [] => st
  | i :: rest =>
      if max_images <=? image_count st then st
      else if Z.of_nat i - last_image_index st <? min_gap
      then scan doc_type rest st
      else
        match doc_elements st !! i with
        | None => st
        | Some element =>
            match _analyze_element element (doc_elements st) doc_type i with
            | Some decision =>
                if need_image decision then
                  let decision := with_variants decision in
                  scan doc_type rest
                    {| decisions := decisions st ++ [decision];
                       last_image_index := Z.of_nat i;
                       image_count := image_count st + 1;
                       doc_elements :=
                         <[i := annotate (image_type decision)
                                  (prompt decision) element]>
                           (doc_elements st) |}
                else scan doc_type rest st
            | None => scan doc_type rest st
            end
        end
  end.

Definition has_h1 (elems : list MarkdownElement) : bool :=
  existsb (fun el => is_type (lit "heading") el && Nat.eqb (level el) 1) elems.

(** The first element whose content is not blank, with its position. *)
Definition title_element (elems : list MarkdownElement)
    : option (nat * MarkdownElement) :=
  List.find (fun '(_, el) => negb (bool_decide (strip (content el) = [])))
            (imap pair elems).

(** The state the main scan starts from: the cover decision for a
    document without a level-1 heading is appended first. *)
Definition before_scan (doc_type : str) (elems : list MarkdownElement)
    : State :=
  let start :=
    {| decisions := []; last_image_index := - min_gap; image_count := 0;
       doc_elements := elems |} in
  if negb (has_h1 elems) && default true (h1_after rules) then
    match title_element elems with
    | Some (title_index, el) =>
        let cover_source :=
          _determine_image_source self_image_source (lit "cover") doc_type in
        let cover_prompt :=
          _generate_prompt el elems (lit "cover") cover_source in
        {| decisions :=
             [ {| element_index := title_index; need_image := true;
                  image_type := lit "cover"; prompt := cover_prompt;
                  (* 无H1标题，自动在开头配封面图 *)
                  reason :=
                    [0x65e0; 0x48; 0x31; 0x6807; 0x9898; 0xff0c; 0x81ea;
                     0x52a8; 0x5728; 0x5f00; 0x5934; 0x914d; 0x5c01;
                     0x9762; 0x56fe]%N;
                  ab_variants := None; image_source := Some cover_source |} ];
           last_image_index := - min_gap;
           image_count := 1;
           doc_elements :=
             <[title_index := annotate (lit "cover") cover_prompt el]> elems |}
    | None => start
    end
  else start.

(** [analyze]: [doc_type] is what the optional classifier said, or
    ['normal'].  The result pairs the decisions returned with the
    document as annotated. *)
Definition analyze_state (doc_type : str) (elems : list MarkdownElement)
    : State :=
  scan doc_type (seq 0 (length elems)) (before_scan doc_type elems).

Definition analyze (doc_type : str) (elems : list MarkdownElement)
    : list ImageDecision :=
  decisions (analyze_state doc_type elems).
End Analyze.
End Analyzer.

(* ===================================================================== *)
(** ** regenerate.py *)
(* ===================================================================== *)

Module Regenerate.
Import Py Re.

#[local] Open Scope Z_scope.

Record ExistingImage := {
  index : Z;
  image_type : str;
  image_path : str;
  line_number : nat;
  is_failed : bool;
  prompt : str;
}.

(** [MarkdownRegenerateParser.TYPE_NAMES], in the order the dictionary
    is written, which is the order its items are iterated in. *)
Definition TYPE_NAMES : list (str * str) :=
  [ (lit "cover", [0x5c01; 0x9762; 0x56fe]%N);                        (* 封面图 *)
    (lit "section", [0x7ae0; 0x8282; 0x914d; 0x56fe]%N);              (* 章节配图 *)
    (lit "concept", [0x6982; 0x5ff5; 0x793a; 0x610f; 0x56fe]%N);      (* 概念示意图 *)
    (lit "atmospheric", [0x6c1b; 0x56f4; 0x63d2; 0x56fe]%N);          (* 氛围插图 *)
    (lit "diagram", [0x67b6; 0x6784; 0x56fe]%N);                      (* 架构图 *)
    (lit "code_concept", [0x4ee3; 0x7801; 0x7ed3; 0x6784; 0x56fe]%N)  (* 代码结构图 *)
  ].

(** The markers the assembler writes and the reconciler looks for. *)
Definition ALL_FAILED : str :=       (* <!-- 所有候选图生成失败 --> *)
  lit "<!-- "
  ++ [0x6240; 0x6709; 0x5019; 0x9009; 0x56fe; 0x751f; 0x6210; 0x5931; 0x8d25]%N
  ++ lit " -->".
Definition CANDIDATES_FROM : str :=  (* <!-- 候选图：从 *)
  lit "<!-- " ++ [0x5019; 0x9009; 0x56fe; 0xff1a; 0x4ece]%N.
Definition CANDIDATE : str :=        (* <!-- 候选 *)
  lit "<!-- " ++ [0x5019; 0x9009]%N.
Definition SELECTED : str :=         (* 选择第 *)
  [0x9009; 0x62e9; 0x7b2c]%N.
Definition ARTICLE : str :=          (* 文章 *)
  [0x6587; 0x7ae0]%N.
Definition TU : N := 0x56fe%N.       (* 图 *)
Definition ZHANG : N := 0x5f20%N.    (* 张 *)

(** [l[a:b]] for [0 <= a] and [0 <= b]. *)
Definition slice {A} (a b : nat) (l : list A) : list A := drop a (take b l).

(** The first item of [TYPE_NAMES] that passes a test, as the loops
    [for img_type, cn_name in self.TYPE_NAMES.items(): if ...: return]
    find it. *)
Definition first_type (test : str -> str -> bool) : option str :=
  fst <$> List.find (fun '(img_type, cn_name) => test img_type cn_name) TYPE_NAMES.

(** A value that passes [if image_type]: neither [None] nor [''] . *)
Definition truthy (o : option str) : bool :=
  match o with Some (_ :: _) => true | _ => false end.

(** [image_pattern]: an exclamation mark, a bracketed group of
    characters other than the closing bracket, a parenthesised group of
    characters other than the closing parenthesis; used with [search]. *)
Definition image_pattern (line : str) : option (str * str) :=
  search (fun s0 =>
    text (lit "![") s0 (fun s1 =>
    plus (except (Parser.ch "]")) s1 (fun alt_text s2 =>
    text (lit "](") s2 (fun s3 =>
    plus (except (Parser.ch ")")) s3 (fun path s4 =>
    chr (Parser.ch ")") s4 (fun _ => Some (alt_text, path))))))) line.

(** [_is_auto_generated_image] *)
Definition _is_auto_generated_image (alt_text : str) : bool :=
  existsb (fun '(_, cn_name) => contains cn_name alt_text) TYPE_NAMES.

(** [_parse_image_info_from_alt_text]: the type whose label the
    alt-text holds, and an index that is [None] on every path. *)
Definition _parse_image_info_from_alt_text (alt_text : str)
    : option str * option Z :=
  match first_type (fun _ cn_name => contains cn_name alt_text) with
  | Some img_type => (Some img_type, None)
  | None => (None, None)
  end.

(** [_parse_image_type_from_context] *)
Definition _parse_image_type_from_context (lines : list str)
    (start_line end_line : nat) : option str :=
  let context_start := (start_line - 10)%nat in
  let context_end := Nat.min (length lines) (end_line + 5) in
  let context := join [NL] (slice context_start context_end lines) in
  let by_label := first_type (fun _ cn_name => contains cn_name context) in
  let by_caption :=
    first_type (fun _ cn_name =>
      contains (ARTICLE ++ remove_char TU cn_name) context
      || contains cn_name context) in
  let mermaid_code := join [NL] (slice start_line end_line lines) in
  let by_grammar :=
    if contains (lit "stateDiagram") mermaid_code then Some (lit "concept")
    else if contains (lit "sequenceDiagram") mermaid_code then Some (lit "section")
    else if contains (lit "flowchart") mermaid_code then Some (lit "code_concept")
    else if contains (lit "classDiagram") mermaid_code then Some (lit "concept")
    else if contains (lit "mindmap") mermaid_code then Some (lit "cover")
    else None in
  match (if contains CANDIDATES_FROM context then by_label else None) with
  | Some t => Some t
  | None =>
      match by_caption with
      | Some t => Some t
      | None => by_grammar
      end
  end.

(** The first result a loop body returns over the items of [l]. *)
Fixpoint first_some {A B} (f : A -> option B) (l : list A) : option B :=
  match l with
  | [] => None
  | x :: l' =>
      match f x with
      | Some r => Some r
      | None => first_some f l'
      end
  end.

Section Recovery.
Variable U : unicodedata.

(** The pattern [选择第(\d+)张], used with [search]: the group is the
    run of digits. *)
Definition selected_pattern (line : str) : option str :=
  search (fun s0 =>
    text SELECTED s0 (fun s1 =>
    plus (isdigit U) s1 (fun digits s2 =>
    chr ZHANG s2 (fun _ => Some digits)))) line.

(** What one line above the failure marker yields in the first loop
    of [_parse_image_info_from_context]. *)
Definition candidate_line_info (raw : str) : option (str * Z) :=
  let line := strip raw in
  if contains CANDIDATES_FROM line then None
  else if startswith CANDIDATE line && contains SELECTED line then
    let index :=
      match selected_pattern line with
      | Some digits => int_of_digits U digits - 1
      | None => 0
      end in
    match first_type (fun img_type cn_name =>
            contains cn_name line || contains img_type (str_lower U line)) with
    | Some img_type => Some (img_type, index)
    | None => None
    end
  else None.

(** [_parse_image_info_from_context] *)
Definition _parse_image_info_from_context (lines : list str) (line_num : nat)
    : option str * option Z :=
  match first_some candidate_line_info
          (slice (line_num - 10)%nat line_num lines) with
  | Some (img_type, index) => (Some img_type, Some index)
  | None =>
      let prev_lines := join [NL] (slice (line_num - 5)%nat line_num lines) in
      let found :=
        if bool_decide (0 < line_num)%nat
        then List.find (fun '(_, cn_name) => contains cn_name prev_lines) TYPE_NAMES
        else None in
      match found with
      | Some (img_type, cn_name) =>
          (Some img_type, Some (count cn_name prev_lines - 1))
      | None => (None, None)
      end
  end.

(** The local variables of [parse_existing_images]. *)
Record State := {
  in_mermaid_block : bool;
  mermaid_lines : list str;
  mermaid_start_line : nat;
  type_counters : gmap str Z;
  existing_images : list ExistingImage;
}.

Definition MERMAID_KEYWORDS : list str :=
  [ lit "statediagram"; lit "sequencediagram"; lit "flowchart";
    lit "flowchart TD"; lit "classdiagram"; lit "mindmap"; lit "gantt";
    lit "erdiagram" ].

Definition FENCE : str := lit "```".

(** The test that opens a diagram block at [lines[line_num]]. *)
Definition opens_mermaid (lines : list str) (line_num : nat) (line : str)
    : bool :=
  let line_stripped := strip line in
  startswith FENCE line_stripped
  && (let next_next_line :=
        match lines !! (line_num + 2)%nat with
        | Some l => strip l
        | None => []
        end in
      let has_mermaid_keywords :=
        existsb (fun keyword => contains keyword (str_lower U next_next_line))
                MERMAID_KEYWORDS in
      contains (lit "mermaid") (str_lower U line_stripped)
      || has_mermaid_keywords).

Definition record (st : State) (img : ExistingImage) : State :=
  {| in_mermaid_block := in_mermaid_block st;
     mermaid_lines := mermaid_lines st;
     mermaid_start_line := mermaid_start_line st;
     type_counters := type_counters st;
     existing_images := existing_images st ++ [img] |}.

(** One round of the loop [for line_num, line in enumerate(lines)].
    [None] stands for the [KeyError] of [type_counters[image_type]]. *)
Definition step (lines : list str) (st : State) (line_num : nat) (line : str)
    : option State :=
  if opens_mermaid lines line_num line then
    Some {| in_mermaid_block := true; mermaid_lines := [];
            mermaid_start_line := line_num;
            type_counters := type_counters st;
            existing_images := existing_images st |}
  else if in_mermaid_block st then
    if startswith FENCE (strip line) && negb (contains (lit "mermaid") line)
    then
      let image_type :=
        _parse_image_type_from_context lines (mermaid_start_line st) line_num in
      match image_type with
      | Some (c :: t) =>
          let image_type : str := c :: t in
          match type_counters st !! image_type with
          | None => None
          | Some index =>
              let mermaid_code := join [NL] (mermaid_lines st) in
              Some {| in_mermaid_block := false; mermaid_lines := [];
                      mermaid_start_line := mermaid_start_line st;
                      type_counters :=
                        <[image_type := index + 1]> (type_counters st);
                      existing_images :=
                        existing_images st ++
                        [ {| index := index; image_type := image_type;
                             image_path :=
                               lit "MERMAID_CODE:" ++ image_type ++ lit ":"
                               ++ mermaid_code;
                             line_number := mermaid_start_line st;
                             is_failed := false; prompt := [] |} ] |}
          end
      | _ =>
          Some {| in_mermaid_block := false; mermaid_lines := [];
                  mermaid_start_line := mermaid_start_line st;
                  type_counters := type_counters st;
                  existing_images := existing_images st |}
      end
    else if negb (startswith (lit "```mermaid") (strip line)) then
      Some {| in_mermaid_block := true;
              mermaid_lines := mermaid_lines st ++ [rstrip line];
              mermaid_start_line := mermaid_start_line st;
              type_counters := type_counters st;
              existing_images := existing_images st |}
    else Some st
  else if contains ALL_FAILED line then
    match _parse_image_info_from_context lines line_num with
    | (image_type, Some index) =>
        if truthy image_type then
          Some (record st {| index := index;
                             image_type := default [] image_type;
                             image_path := []; line_number := line_num;
                             is_failed := true; prompt := [] |})
        else Some st
    | _ => Some st
    end
  else
    match image_pattern line with
    | Some (alt_text, image_path) =>
        if negb (_is_auto_generated_image alt_text) then Some st
        else if startswith (lit "MERMAID_CODE:") image_path then Some st
        else
          match _parse_image_info_from_alt_text alt_text with
          | (image_type, Some index) =>
              if truthy image_type then
                Some (record st {| index := index;
                                   image_type := default [] image_type;
                                   image_path := image_path;
                                   line_number := line_num;
                                   is_failed := false; prompt := [] |})
              else Some st
          | _ => Some st
          end
    | None => Some st
    end.

Fixpoint run (lines : list str) (todo : list (nat * str)) (st : State)
    : option State :=
  match todo with
  | [] => Some st
  | (line_num, line) :: rest =>
      match step lines st line_num line with
      | Some st' => run lines rest st'
      | None => None
      end
  end.

Definition initial : State :=
  {| in_mermaid_block := false; mermaid_lines := []; mermaid_start_line := 0;
     type_counters := list_to_map (List.map (fun '(t, _) => (t, 0)) TYPE_NAMES);
     existing_images := [] |}.

(** [parse_existing_images]: [file] is [None] when the path does not
    exist, and otherwise what [readlines()] returns, each line with
    its newline. *)
Definition parse_existing_images (file : option (list str))
    : option (list ExistingImage * list str) :=
  match file with
  | None => Some ([], [])
  | Some lines =>
      match run lines (imap pair lines) initial with
      | Some st => Some (existing_images st, lines)
      | None => None
      end
  end.
End Recovery.

(** [sorted(set(l))] *)
Fixpoint insert_sorted (x : Z) (l : list Z) : list Z :=
  match l with
  | [] => [x]
  | y :: l' =>
      if x <? y then x :: l
      else if x =? y then l
      else y :: insert_sorted x l'
  end.

Definition sorted_set (l : list Z) : list Z := fold_right insert_sorted [] l.

(** [filter_images_to_regenerate]: the three selectors are tried in the
    order index, type, failed; the first one given decides. *)
Definition filter_images_to_regenerate
    (existing_images : list ExistingImage)
    (decisions : list Analyzer.ImageDecision)
    (regenerate_index : option Z) (regenerate_type : option str)
    (regenerate_failed : bool) : list Z :=
  let n := Z.of_nat (length decisions) in
  let to_regenerate :=
    match regenerate_index with
    | Some i => if (0 <=? i) && (i <? n) then [i] else []
    | None =>
        if truthy regenerate_type then
          omap (fun '(i, decision) =>
                  if str_eqb (Analyzer.image_type decision)
                             (default [] regenerate_type)
                  then Some (Z.of_nat i) else None)
               (imap pair decisions)
        else if regenerate_failed then
          omap (fun img =>
                  if is_failed img && (index img <? n)
                  then Some (index img) else None)
               existing_images
        else []
    end in
  sorted_set to_regenerate.

(** The dictionaries a plan holds. *)
Record Slot := {
  slot_index : nat;
  slot_image_type : str;
  slot_prompt : str;
  slot_reason : str;
}.

Record Kept := {
  kept_index : nat;
  kept_image_path : str;
  kept_image_type : str;
}.

Record Plan := {
  keep : list Kept;
  regenerate : list Slot;
  missing : list Slot;
}.

Definition slot_of (i : nat) (decision : Analyzer.ImageDecision) : Slot :=
  {| slot_index := i;
     slot_image_type := Analyzer.image_type decision;
     slot_prompt := Analyzer.prompt decision;
     slot_reason := Analyzer.reason decision |}.

(** [i in regenerate_indices], [i in existing_indices] *)
Definition selected (regenerate_indices : list Z) (i : nat) : bool :=
  existsb (Z.eqb (Z.of_nat i)) regenerate_indices.

Definition seen (existing_images : list ExistingImage) (i : nat) : bool :=
  existsb (fun img => index img =? Z.of_nat i) existing_images.

(** The loop of [create_regenerate_plan] over [enumerate(decisions)].
    [None] stands for the [StopIteration] of [next(...)]. *)
Fixpoint plan_loop (existing_images : list ExistingImage)
    (regenerate_indices : list Z)
    (todo : list (nat * Analyzer.ImageDecision)) (plan : Plan) : option Plan :=
  match todo with
  | [] => Some plan
  | (i, decision) :: rest =>
      if selected regenerate_indices i then
        plan_loop existing_images regenerate_indices rest
          {| keep := keep plan;
             regenerate := regenerate plan ++ [slot_of i decision];
             missing := missing plan |}
      else if seen existing_images i then
        match List.find (fun img => index img =? Z.of_nat i) existing_images with
        | Some existing_img =>
            plan_loop existing_images regenerate_indices rest
              {| keep := keep plan ++
                         [ {| kept_index := i;
                              kept_image_path := image_path existing_img;
                              kept_image_type := image_type existing_img |} ];
                 regenerate := regenerate plan;
                 missing := missing plan |}
        | None => None
        end
      else
        plan_loop existing_images regenerate_indices rest
          {| keep := keep plan;
             regenerate := regenerate plan;
             missing := missing plan ++ [slot_of i decision] |}
  end.

Definition create_regenerate_plan (existing_images : list ExistingImage)
    (decisions : list Analyzer.ImageDecision) (regenerate_indices : list Z)
    : option Plan :=
  plan_loop existing_images regenerate_indices (imap pair decisions)
    {| keep := []; regenerate := []; missing := [] |}.

(** [parse_for_regeneration]: recover, select, partition. *)
Definition parse_for_regeneration (U : unicodedata) (file : option (list str))
    (decisions : list Analyzer.ImageDecision)
    (regenerate_index : option Z) (regenerate_type : option str)
    (regenerate_failed : bool) : option Plan :=
  match parse_existing_images U file with
  | Some (existing_images, _) =>
      create_regenerate_plan existing_images decisions
        (filter_images_to_regenerate existing_images decisions
           regenerate_index regenerate_type regenerate_failed)
  | None => None
  end.
End Regenerate.

(* ===================================================================== *)
(** ** Runs of the main scan *)
(* ===================================================================== *)

(** The main scan of [analyze] seen as a sequence of acceptances: what
    one acceptance does to the state, and the runs that lead from one
    state to another. *)
Module Run.
Import Py Parser Analyzer.
#[local] Open Scope Z_scope.

(** What the core never writes after parsing. *)
Definition structure (e : MarkdownElement)
    : ElementType * str * nat * nat * str * nat * nat :=
  (type e, content e, level e, position e, raw_line e, word_count e,
   line_count e).

(** An element that carries the need-image flag. *)
Definition flagged (elems : list MarkdownElement) (j : nat) : Prop :=
  exists e, elems !! j = Some e /\ Parser.need_image e = true.

(** An element as the parser builds it: no annotation yet. *)
Definition fresh (e : MarkdownElement) : Prop :=
  Parser.need_image e = false /\ Parser.image_type e = None
  /\ image_prompt e = None.

Section Run.
Variable self_image_source : str.
Variable rules : Rules.
Variable ab_test : ABTest.
Variable _generate_prompt :
  MarkdownElement -> list MarkdownElement -> str -> str -> str.

(** The body of the scan on acceptance: the decision is appended, the
    position becomes the last image position, the count goes up, and
    the element is annotated in place. *)
Definition accept (st : State) (i : nat) (element : MarkdownElement)
    (decision : ImageDecision) : State :=
  {| decisions := decisions st ++ [decision];
     last_image_index := Z.of_nat i;
     image_count := image_count st + 1;
     doc_elements :=
       <[i := annotate (Analyzer.image_type decision) (prompt decision) element]>
         (doc_elements st) |}.

(** [accepts doc_type lo st st']: from [st], visiting positions from
    [lo] on, the scan reaches [st'] by accepting some positions in
    increasing order, each one under the cap, at the required gap from
    the last image, and for a decision [_analyze_element] takes. *)
Inductive accepts (doc_type : str) : nat -> State -> State -> Prop :=
  | accepts_none lo st : accepts doc_type lo st st
  | accepts_one lo i st st' element decision :
      (lo <= i)%nat ->
      image_count st < max_images rules ->
      min_gap rules <= Z.of_nat i - last_image_index st ->
      doc_elements st !! i = Some element ->
      _analyze_element self_image_source rules _generate_prompt
        element (doc_elements st) doc_type i = Some decision ->
      accepts doc_type (S i)
        (accept st i element (with_variants ab_test decision)) st' ->
      accepts doc_type lo st st'.

(** Whether the rule for level-2 headings lets the heading at
    [heading_index] have an image: always, by the length of its
    section, or never. *)
Definition h2_allows (elems : list MarkdownElement) (heading_index : nat)
    : bool :=
  match default H2_smart (h2_after rules) with
  | H2_true => true
  | H2_smart => _should_add_section_image elems heading_index
  | H2_other => false
  end.

(** What entitles a decision to its place in the document [elems]: the
    element it points at, and the rule that fired for it.  A cover
    belongs to a level-1 heading or, in a document without one, to an
    element whose content is not blank; a section or concept image to a
    level-2 heading the rule allows, concept when the heading holds one
    of [CONCEPT_KEYWORDS]; an atmospheric image to a paragraph as long
    as the threshold. *)
Definition by_rule (elems : list MarkdownElement) (doc_type : str)
    (d : ImageDecision) : Prop :=
  exists el,
    elems !! element_index d = Some el
    /\ Analyzer.need_image d = true
    /\ image_source d
       = Some (_determine_image_source self_image_source
                 (Analyzer.image_type d) doc_type)
    /\ ((Analyzer.image_type d = lit "cover"
         /\ default true (h1_after rules) = true
         /\ ((type el = HEADING /\ level el = 1%nat)
             \/ (has_h1 elems = false /\ strip (content el) <> [])))
        \/ (Analyzer.image_type d
            = (if existsb (fun kw => contains kw (content el)) CONCEPT_KEYWORDS
               then lit "concept" else lit "section")
            /\ type el = HEADING /\ level el = 2%nat
            /\ h2_allows elems (element_index d) = true)
        \/ (Analyzer.image_type d = lit "atmospheric"
            /\ type el = PARAGRAPH
            /\ default 150 (long_paragraph_threshold rules)
               <= Z.of_nat (word_count el))).

(** The annotations of a document agree with a list of decisions: every
    decision points at an element that is flagged, every flagged
    element bears the image type and the prompt of a decision that
    points at it, and an element that is not flagged bears none. *)
Definition agree (ds : list ImageDecision) (elems : list MarkdownElement)
    : Prop :=
  (forall d, d ∈ ds -> flagged elems (element_index d))
  /\ (forall j e, elems !! j = Some e ->
        if Parser.need_image e
        then exists d, d ∈ ds /\ element_index d = j
                       /\ Parser.image_type e = Some (Analyzer.image_type d)
                       /\ image_prompt e = Some (prompt d)
        else Parser.image_type e = None /\ image_prompt e = None).

(** The positions of the elements flagged [need_image], in document
    order: the elements the assembler gives the image paths to, one
    after the other. *)
Definition flagged_positions (elems : list MarkdownElement) : list nat :=
  List.map fst
    (List.filter (fun '(_, e) => Parser.need_image e) (imap pair elems)).
End Run.
End Run.

(* ===================================================================== *)
(** ** Elements as the parser builds them *)
(* ===================================================================== *)

Module Document.
Import Py Parser.

(** What every element of a parsed document satisfies: it is of a kind
    other than [EMPTY]; its word count is the number of characters of
    its content that are not whitespace; a heading has a level from 1
    to 6 and a content of one line that is not empty; every other
    element has level 0; a paragraph has at least one character that
    is not whitespace. *)
Definition well_formed (e : MarkdownElement) : Prop :=
  type e <> EMPTY
  /\ word_count e = length (remove_spaces (content e))
  /\ line_count e = 0%nat
  /\ match type e with
     | HEADING =>
         (1 <= level e <= 6)%nat /\ content e <> [] /\ NL ∉ content e
     | PARAGRAPH => level e = 0%nat /\ (1 <= word_count e)%nat
     | _ => level e = 0%nat
     end.
End Document.

(* ===================================================================== *)
(** ** analyzer.py: the theme of a document *)
(* ===================================================================== *)

Module Theme.
Import Py Parser.

Definition TECH_KEYWORDS : list str :=
  [ [0x4ee3; 0x7801]%N;                    (* 代码 *)
    [0x7f16; 0x7a0b]%N;                    (* 编程 *)
    [0x51fd; 0x6570]%N;                    (* 函数 *)
    [0x7b97; 0x6cd5]%N;                    (* 算法 *)
    [0x6570; 0x636e; 0x7ed3; 0x6784]%N;    (* 数据结构 *)
    [0x67b6; 0x6784]%N;                    (* 架构 *)
    lit "API"; lit "JavaScript"; lit "Python"; lit "Java"; lit "React";
    lit "Vue";
    [0x6570; 0x636e; 0x5e93]%N;            (* 数据库 *)
    lit "code"; lit "function"; lit "algorithm"; lit "architecture";
    lit "programming" ].

Definition TECH_ARTICLE : str :=       (* 技术文章： *)
  [0x6280; 0x672f; 0x6587; 0x7ae0; 0xff1a]%N.
Definition GENERAL_ARTICLE : str :=    (* 通用文章 *)
  [0x901a; 0x7528; 0x6587; 0x7ae0]%N.

(** [_analyze_theme]: from the title when there is one, else from the
    first paragraph of more than 20 characters, else a fixed text. *)
Definition _analyze_theme (doc : MarkdownDocument) : str :=
  match title doc with
  | _ :: _ =>
      let theme := title doc in
      if existsb (fun kw => contains kw theme) TECH_KEYWORDS
      then TECH_ARTICLE ++ theme
      else theme
  | [] =>
      match List.find (fun element =>
                         bool_decide (type element = PARAGRAPH)
                         && (20 <? word_count element)%nat)
                      (elements doc) with
      | Some element => take 50 (content element) ++ lit "..."
      | None => GENERAL_ARTICLE
      end
  end.
End Theme.

(* ===================================================================== *)
(** ** prompt_generator.py: the length of a prompt *)
(* ===================================================================== *)

Module Prompt.
Import Py.
#[local] Open Scope Z_scope.

(** [s[:n]] for any integer [n]: a negative [n] counts from the end. *)
Definition up_to (n : Z) (s : str) : str :=
  if 0 <=? n then take (Z.to_nat n) s
  else take (length s - Z.to_nat (- n)) s.

(** The characters of the literal the loop tests membership in:
    the full-width comma and full stop, the enumeration comma, and the
    ASCII comma and full stop. *)
Definition PUNCTUATION : list N := [0xff0c; 0x3002; 0x3001; 0x2c; 0x2e]%N.

Definition is_punctuation (c : N) : bool :=
  existsb (N.eqb c) PUNCTUATION.

(** The loop [for i in range(len(truncated) - 1, -1, -1)]: the last
    index of [s] that holds a punctuation mark. *)
Definition last_punctuation (s : str) : option nat :=
  List.find (fun i => match s !! i with
                      | Some c => is_punctuation c
                      | None => false
                      end)
            (rev (seq 0 (length s))).

(** [_truncate_prompt] *)
Definition _truncate_prompt (prompt : str) (max_length : Z) : str :=
  if Z.of_nat (length prompt) <=? max_length then prompt
  else
    let truncated := up_to max_length prompt in
    match last_punctuation truncated with
    | Some i => take (i + 1) truncated
    | None => truncated
    end.
End Prompt.

(* ===================================================================== *)
(** ** mermaid_gen.py and assembler.py: markers, alt texts, captions *)
(* ===================================================================== *)

Module Assembler.
Import Py Parser.

(** [s.split(sep, maxsplit)] for a one-character separator. *)
Fixpoint split_at_most (d : N) (s : str) (maxsplit : nat) {struct s}
    : list str :=
  match maxsplit with
  | O => [s]
  | S m =>
      match s with
      | [] => [[]]
      | c :: s' =>
          if c =? d then [] :: split_at_most d s' m
          else match split_at_most d s' maxsplit with
               | h :: t => (c :: h) :: t
               | [] => [[c]]
               end
      end
  end.

(** [MermaidDiagramGenerator._format_as_mermaid_block] *)
Definition _format_as_mermaid_block (mermaid_code diagram_type : str) : str :=
  lit "MERMAID_CODE:" ++ diagram_type ++ lit ":" ++ mermaid_code.

(** [is_mermaid_code], on a string. *)
Definition is_mermaid_code (image_path : str) : bool :=
  startswith (lit "MERMAID_CODE:") image_path.

(** [parse_mermaid_code]: the diagram type and the code, or
    [(None, None)]. *)
Definition parse_mermaid_code (image_path : str) : option str * option str :=
  if negb (is_mermaid_code image_path) then (None, None)
  else
    let parts := split_at_most (ch ":") image_path 2 in
    if (3 <=? length parts)%nat then (parts !! 1%nat, parts !! 2%nat)
    else (None, None).

(** The dictionary [type_names] of [_generate_alt_text]. *)
Definition type_names : list (str * str) :=
  [ (lit "cover", [0x5c01; 0x9762; 0x56fe]%N);                    (* 封面图 *)
    (lit "section", [0x7ae0; 0x8282; 0x914d; 0x56fe]%N);          (* 章节配图 *)
    (lit "concept", [0x6982; 0x5ff5; 0x793a; 0x610f; 0x56fe]%N);  (* 概念示意图 *)
    (lit "atmospheric", [0x6c1b; 0x56f4; 0x63d2; 0x56fe]%N);      (* 氛围插图 *)
    (lit "diagram", [0x67b6; 0x6784; 0x56fe]%N)                   (* 架构图 *)
  ].

Definition ILLUSTRATION : str := [0x914d; 0x56fe]%N.   (* 配图 *)
Definition PICTURE : str := [0x56fe; 0x7247]%N.        (* 图片 *)

(** [_generate_alt_text] *)
Definition _generate_alt_text (element : MarkdownElement) : str :=
  match image_type element with
  | Some (c :: t) =>
      let base :=
        default ILLUSTRATION
          (snd <$> List.find (fun '(key, _) => str_eqb key (c :: t)) type_names) in
      match content element with
      | _ :: _ => base ++ lit " - " ++ take 30 (content element)
      | [] => base
      end
  | _ => PICTURE
  end.

(** [_generate_caption] *)
Definition _generate_caption (element : MarkdownElement) : str :=
  let is_type t := bool_decide (image_type element = Some (lit t)) in
  if is_type "cover"%string                        (* 文章封面： *)
  then [0x6587; 0x7ae0; 0x5c01; 0x9762; 0xff1a]%N ++ content element
  else if is_type "section"%string                 (* 章节插图： *)
  then [0x7ae0; 0x8282; 0x63d2; 0x56fe; 0xff1a]%N ++ content element
  else if is_type "concept"%string                 (* 概念示意图： *)
  then [0x6982; 0x5ff5; 0x793a; 0x610f; 0x56fe; 0xff1a]%N ++ content element
  else [].
End Assembler.

(* ===================================================================== *)
(** ** The length of a section *)
(* ===================================================================== *)

Module Sections.
Import Py Parser Analyzer.

(** The elements of the section a heading opens: what follows the
    heading up to the next heading of any level. *)
Definition section_of (elems : list MarkdownElement) (heading_index : nat)
    : list MarkdownElement :=
  collect (fun e => negb (is_type (lit "heading") e))
          (drop (S heading_index) elems).

(** The characters of paragraph text in that section. *)
Definition section_length (elems : list MarkdownElement) (heading_index : nat)
    : nat :=
  sum_list (word_count <$> List.filter (is_type (lit "paragraph"))
                             (section_of elems heading_index)).
End Sections.

(* ===================================================================== *)
(** ** Where a greedy repetition stops *)
(* ===================================================================== *)

Module Greedy.
Import Py.

(** The text a repetition of the class [P] cannot go beyond: empty, or
    starting with a character outside the class. *)
Definition stops (P : N -> bool) (s : str) : Prop :=
  match s with
  | c :: _ => P c = false
  | [] => True
  end.
End Greedy.

(* ===================================================================== *)
(** ** Lines, fences and paragraphs *)
(* ===================================================================== *)

Module Lines.
Import Py Re Parser.

Section Lines.
Variable U : unicodedata.





End Lines.
End Lines.

(* ===================================================================== *)
(** ** Spacing of accepted positions *)
(* ===================================================================== *)

Module Placement.
#[local] Open Scope Z_scope.

(** The positions the main scan can accept from position [lo] on when
    the last image it placed stands at [last]: each one at or after
    [lo] and at least [gap] after [last], and those that follow it
    likewise, from the next position on and with it as the last
    image. *)
Fixpoint spaced (gap last : Z) (lo : nat) (positions : list nat) : Prop :=
  match positions with
  | [] => True
  | p :: rest =>
      (lo <= p)%nat /\ last + gap <= Z.of_nat p
      /\ spaced gap (Z.of_nat p) (S p) rest
  end.
End Placement.

(* ===================================================================== *)
(** ** Sample inputs *)
(* ===================================================================== *)

(** Documents, decisions and output files at which the code is
    evaluated below. *)
Module Sample.
Import Py.

(** A line as [readlines()] returns it. *)
Definition ln (s : str) : str := s ++ [NL].

(** The label [TYPE_NAMES] gives a type. *)
Definition label (img_type : string) : str :=
  default [] (snd <$> List.find (fun '(t, _) => str_eqb t (lit img_type))
                                Regenerate.TYPE_NAMES).

Definition decision (position : nat) (img_type : string)
    : Analyzer.ImageDecision :=
  {| Analyzer.element_index := position; Analyzer.need_image := true;
     Analyzer.image_type := lit img_type;
     Analyzer.prompt := lit "an illustration";
     Analyzer.reason := lit "rule";
     Analyzer.ab_variants := None;
     Analyzer.image_source := Some (lit "zhipu") |}.

(** The decisions for a document made of a title, a level-2 heading
    and its text: a cover, then a section image. *)
Definition cover_then_section : list Analyzer.ImageDecision :=
  [decision 0 "cover"; decision 1 "section"].

(** A previous output for that document: the cover failed for every
    candidate, the section image is in place. *)
Definition previous_output : list str :=
  [ ln (lit "# My Article");
    ln [];
    ln Regenerate.ALL_FAILED;
    ln [];
    ln (lit "## Background");
    ln [];
    ln (lit "![" ++ label "section" ++ lit " - Background](images/section_1.png)");
    ln [];
    ln (lit "Some text.") ].

(** A previous output that holds nothing but one generated cover. *)
Definition cover_reference : str :=
  ln (lit "![" ++ label "cover" ++ lit " - My Article](images/cover_0.png)").

(** Recovered images: a cover that failed, a section image that did
    not, and a section image that failed. *)
Definition failed_cover : Regenerate.ExistingImage :=
  {| Regenerate.index := 0; Regenerate.image_type := lit "cover";
     Regenerate.image_path := []; Regenerate.line_number := 2;
     Regenerate.is_failed := true; Regenerate.prompt := [] |}.

Definition section_in_place : Regenerate.ExistingImage :=
  {| Regenerate.index := 1; Regenerate.image_type := lit "section";
     Regenerate.image_path := lit "images/section_1.png";
     Regenerate.line_number := 6;
     Regenerate.is_failed := false; Regenerate.prompt := [] |}.

Definition failed_section : Regenerate.ExistingImage :=
  {| Regenerate.index := 0; Regenerate.image_type := lit "section";
     Regenerate.image_path := []; Regenerate.line_number := 2;
     Regenerate.is_failed := true; Regenerate.prompt := [] |}.

(** An analyzer that asks no language model: the prompt is the content
    of the element. *)
Definition content_as_prompt
    : Parser.MarkdownElement -> list Parser.MarkdownElement -> str -> str -> str :=
  fun element _ _ _ => Parser.content element.

Definition no_ab_test : Analyzer.ABTest :=
  {| Analyzer.enabled := false; Analyzer.variations := [];
     Analyzer.test_size := 2 |}.

(** Rule sets: every key absent; [h2_after: true]; a cap of zero. *)
Definition default_rules : Analyzer.Rules :=
  {| Analyzer.h1_after := None; Analyzer.h2_after := None;
     Analyzer.long_paragraph_threshold := None;
     Analyzer.min_gap_between_images := None;
     Analyzer.max_images_per_article := None |}.

Definition h2_always : Analyzer.Rules :=
  {| Analyzer.h1_after := None; Analyzer.h2_after := Some Analyzer.H2_true;
     Analyzer.long_paragraph_threshold := None;
     Analyzer.min_gap_between_images := None;
     Analyzer.max_images_per_article := None |}.

Definition no_images : Analyzer.Rules :=
  {| Analyzer.h1_after := None; Analyzer.h2_after := None;
     Analyzer.long_paragraph_threshold := None;
     Analyzer.min_gap_between_images := None;
     Analyzer.max_images_per_article := Some 0%Z |}.

(** [parse] followed by [analyze], for a normal document and the image
    source [zhipu]: the position and the type of each decision. *)
Definition illustrate (rules : Analyzer.Rules) (text : str)
    : option (list (nat * str)) :=
  (fun doc =>
     List.map (fun d => (Analyzer.element_index d, Analyzer.image_type d))
       (Analyzer.analyze (lit "zhipu") rules no_ab_test content_as_prompt
          (lit "normal") (Parser.elements doc)))
  <$> Parser.parse caseless text.

(** A document with a title and four level-2 headings, as parsed, and
    the decisions [analyze] takes for it under [h2_always]: a cover at
    position 0 and a section image at position 3. *)
Definition titled_document : list Parser.MarkdownElement :=
  default []
    (Parser.elements
     <$> Parser.parse caseless
           (ln (lit "# Title") ++ ln (lit "## One") ++ ln (lit "first")
            ++ ln (lit "## Two") ++ ln (lit "## Three") ++ lit "## Four")).

Definition titled_decisions : list Analyzer.ImageDecision :=
  Analyzer.analyze (lit "zhipu") h2_always no_ab_test content_as_prompt
    (lit "normal") titled_document.

Definition nth_decision (k : nat) : Analyzer.ImageDecision :=
  default (decision 0 "cover") (titled_decisions !! k).

(** A document whose title comes second, as parsed: a short paragraph
    at position 0 and a level-1 heading at position 1. *)
Definition late_title : list Parser.MarkdownElement :=
  default []
    (Parser.elements
     <$> Parser.parse caseless (ln (lit "intro") ++ lit "# Title")).

Definition late_title_heading : Parser.MarkdownElement :=
  default (Parser.new_element Parser.EMPTY [] 0 []) (late_title !! 1%nat).

(** An A/B test with two variations, the second without a name. *)
Definition two_variations : Analyzer.ABTest :=
  {| Analyzer.enabled := true;
     Analyzer.variations :=
       [ {| Analyzer.var_name := Some (lit "minimal");
            Analyzer.var_description := None;
            Analyzer.var_prompt_suffix := Some (lit ", minimal") |};
         {| Analyzer.var_name := None;
            Analyzer.var_description := None;
            Analyzer.var_prompt_suffix := None |} ];
     Analyzer.test_size := 2 |}.

(** A previous output with two diagram blocks, each under a heading
    that bears the label of a section image. *)
Definition two_diagrams : list str :=
  [ ln (lit "## " ++ label "section");
    ln (lit "```mermaid"); ln (lit "graph TD"); ln (lit "A-->B"); ln (lit "```");
    ln (lit "text");
    ln (lit "## " ++ label "section");
    ln (lit "```mermaid"); ln (lit "graph TD"); ln (lit "C-->D"); ln (lit "```") ].

(** A previous output like [previous_output] in which the failure
    marker of the cover stands under a comment that bears the cover
    label, so that the marker is attributed to a cover. *)
Definition labelled_failure : list str :=
  [ ln (lit "# My Article");
    ln [];
    ln (lit "<!-- " ++ label "cover" ++ lit " -->");
    ln Regenerate.ALL_FAILED;
    ln [];
    ln (lit "## Background");
    ln [];
    ln (lit "![" ++ label "section" ++ lit " - Background](images/section_1.png)");
    ln [];
    ln (lit "Some text.") ].

(** A document without a level-1 heading whose first element has a
    blank content, as parsed: a level-2 heading whose text is one
    blank, then a paragraph. *)
Definition blank_heading_then_intro : list Parser.MarkdownElement :=
  default []
    (Parser.elements
     <$> Parser.parse caseless (ln (lit "##  ") ++ lit "Intro")).

(** What is recovered from [two_diagrams], and the first of it. *)
Definition recovered_diagrams : list Regenerate.ExistingImage :=
  default []
    (fst <$> Regenerate.parse_existing_images caseless (Some two_diagrams)).

Definition first_diagram : Regenerate.ExistingImage :=
  default failed_cover (recovered_diagrams !! 0%nat).

End Sample.

(* ===================================================================== *)
(** ** The parser always returns *)
(* ===================================================================== *)

Section ParserTotality.
Import Py Re Parser.
Variable U : unicodedata.

Lemma collect_cons {A} (P : A -> bool) x l :
  P x = true -> collect P (x :: l) = x :: collect P l.
Proof. intros H. simpl. now rewrite H. Qed.

(** A line that passed none of the six earlier tests of [_parse_line]
    and is not a rule does not stop a paragraph either: the paragraph
    loop tests a subset of the same patterns. *)
Lemma plain_line_continues line :
  matched (EMPTY_PATTERN line) = false ->
  matched (HEADING_PATTERN line) = false ->
  matched (CODE_BLOCK_PATTERN U line) = false ->
  matched (QUOTE_PATTERN line) = false ->
  matched (LIST_PATTERN U line) = false ->
  matched (HR_PATTERN line) = false ->
  ends_paragraph U line = false.
Proof.
  intros He Hh Hc Hq Hl Hr. unfold ends_paragraph.
  now rewrite He, Hh, Hc, Hq, Hl, Hr.
Qed.

(** Every branch of [_parse_line] consumes at least one line. *)
Lemma _parse_line_advances lines index element lines_consumed :
  _parse_line U lines index = Some (element, lines_consumed) ->
  (1 <= lines_consumed)%nat.
Proof.
  unfold _parse_line.
  destruct (lines !! index) as [line|] eqn:Hline; [|discriminate].
  pose proof (drop_S _ _ _ Hline) as Hdrop.
  destruct (matched (EMPTY_PATTERN line)) eqn:He.
  { intros [= <- <-]. lia. }
  destruct (HEADING_PATTERN line) as [[hashes body]|] eqn:Hh.
  { intros [= <- <-]. lia. }
  destruct (matched (CODE_BLOCK_PATTERN U line)) eqn:Hc.
  { intros [= <- <-]. simpl. lia. }
  destruct (matched (QUOTE_PATTERN line)) eqn:Hq.
  { intros [= <- <-]. simpl. rewrite Hdrop, collect_cons by exact Hq.
    simpl. lia. }
  destruct (matched (LIST_PATTERN U line)) eqn:Hl.
  { intros [= <- <-]. simpl. rewrite Hdrop, collect_cons by exact Hl.
    simpl. lia. }
  destruct (matched (TABLE_PATTERN line)) eqn:Ht.
  { intros [= <- <-]. simpl. rewrite Hdrop, collect_cons by exact Ht.
    simpl. lia. }
  destruct (matched (HR_PATTERN line)) eqn:Hr.
  { intros [= <- <-]. lia. }
  intros [= <- <-]. simpl. rewrite Hdrop, collect_cons; [simpl; lia|].
  rewrite plain_line_continues; auto.
  unfold matched. now rewrite Hh.
Qed.

Lemma _parse_line_in_range lines index :
  (index < length lines)%nat -> is_Some (_parse_line U lines index).
Proof.
  intros H. unfold _parse_line.
  destruct (lookup_lt_is_Some_2 lines index H) as [line ->]. eauto.
Qed.

(** As many rounds as there are lines left are enough for the loop. *)
Lemma parse_loop_returns fuel : forall lines i elems,
  (length lines - i <= fuel)%nat ->
  is_Some (parse_loop U fuel lines i elems).
Proof.
  induction fuel as [|fuel IH]; intros lines i elems Hfuel.
  - simpl. case_bool_decide; [lia | eauto].
  - simpl. case_bool_decide as Hi; [|eauto].
    destruct (_parse_line_in_range lines i Hi) as [[element n] Hstep].
    rewrite Hstep. apply IH.
    apply _parse_line_advances in Hstep. lia.
Qed.
(** The last branch of [_parse_line]. *)
Lemma _parse_line_plain lines index line :
  lines !! index = Some line ->
  matched (EMPTY_PATTERN line) = false ->
  matched (HEADING_PATTERN line) = false ->
  matched (CODE_BLOCK_PATTERN U line) = false ->
  matched (QUOTE_PATTERN line) = false ->
  matched (LIST_PATTERN U line) = false ->
  matched (TABLE_PATTERN line) = false ->
  matched (HR_PATTERN line) = false ->
  let rest :=
    collect (fun l => negb (ends_paragraph U l)) (drop (S index) lines) in
  _parse_line U lines index
  = Some (Some (new_element PARAGRAPH (join (lit " ") (line :: rest)) 0 line),
          S (length rest)).
Proof.
  intros Hline He Hh Hc Hq Hl Ht Hr rest.
  pose proof (plain_line_continues line He Hh Hc Hq Hl Hr) as Hplain.
  unfold _parse_line. rewrite Hline, He.
  destruct (HEADING_PATTERN line) as [[? ?]|] eqn:Hh'; [discriminate|].
  rewrite Hc, Hq, Hl, Ht, Hr.
  unfold _parse_paragraph. rewrite (drop_S _ _ _ Hline).
  rewrite collect_cons by (now rewrite Hplain).
  cbn [fst snd]. subst rest. do 3 f_equal. cbn [length]. lia.
Qed.
End ParserTotality.

(** A code fence that is never closed takes the rest of the input as
    its content, and the empty text is a document without elements. *)
Example unterminated_fence_is_code_block :
  Parser.parse Py.caseless (Sample.ln (Py.lit "```py") ++ Py.lit "x = 1")
  = Some {| Parser.elements :=
              [ Parser.new_element Parser.CODE_BLOCK (Py.lit "x = 1") 0
                  (Py.lit "```py") ];
            Parser.title := Py.lit "Untitled";
            Parser.theme := []; Parser.keywords := [] |}
  /\ Parser.parse Py.caseless []
     = Some {| Parser.elements := []; Parser.title := Py.lit "Untitled";
               Parser.theme := []; Parser.keywords := [] |}.
Proof. split; reflexivity. Qed.

(* ===================================================================== *)
(** ** What a greedy repetition matches *)
(* ===================================================================== *)

Section Repetition.
Import Py Re.
Context {A : Type}.
Implicit Types (P : N -> bool) (k : str -> str -> option A).

(** A repetition that can take the whole text, with a continuation
    that accepts what is then left, matches that way: the longest
    match is the first one tried. *)
Lemma star_takes_all P s : forall acc k v,
  forallb P s = true -> k (acc ++ s) [] = Some v ->
  star P acc s k = Some v.
Proof.
  induction s as [|c s IH]; intros acc k v Hall Hk; simpl.
  - now rewrite app_nil_r in Hk.
  - simpl in Hall. apply andb_prop in Hall as [Hc Hs]. rewrite Hc.
    rewrite (IH (acc ++ [c]) k v Hs); [reflexivity|].
    now rewrite <- app_assoc.
Qed.

Lemma at_least_takes_all P n : forall s acc k v,
  forallb P s = true -> (n <= length s)%nat -> k (acc ++ s) [] = Some v ->
  at_least P n acc s k = Some v.
Proof.
  induction n as [|n IH]; intros s acc k v Hall Hlen Hk; simpl.
  - now apply star_takes_all.
  - destruct s as [|c s]; simpl in Hlen; [lia|].
    simpl in Hall. apply andb_prop in Hall as [Hc Hs]. rewrite Hc.
    apply IH; [assumption | lia |]. now rewrite <- app_assoc.
Qed.

(** Whatever way a repetition matched, it took a prefix made of
    characters of its class and left the rest to its continuation. *)
Lemma star_matched P s : forall acc k v,
  star P acc s k = Some v ->
  exists s1 s2, s = s1 ++ s2 /\ forallb P s1 = true
                /\ k (acc ++ s1) s2 = Some v.
Proof.
  induction s as [|c s IH]; intros acc k v H; simpl in H.
  - exists [], []. rewrite (app_nil_r acc). auto.
  - assert (Hstop : k acc (c :: s) = Some v ->
              exists s1 s2, c :: s = s1 ++ s2 /\ forallb P s1 = true
                            /\ k (acc ++ s1) s2 = Some v).
    { intros Hk. exists [], (c :: s). rewrite (app_nil_r acc). auto. }
    destruct (P c) eqn:Hc; [|auto].
    destruct (star P (acc ++ [c]) s k) as [r|] eqn:Hmore; [|auto].
    simpl in H. injection H as ->.
    destruct (IH _ _ _ Hmore) as (s1 & s2 & -> & Hall & Hk).
    exists (c :: s1), s2. simpl. rewrite Hc, Hall.
    rewrite <- app_assoc in Hk. auto.
Qed.

Lemma at_least_matched P n : forall s acc k v,
  at_least P n acc s k = Some v ->
  exists s1 s2, s = s1 ++ s2 /\ forallb P s1 = true
                /\ (n <= length s1)%nat /\ k (acc ++ s1) s2 = Some v.
Proof.
  induction n as [|n IH]; intros s acc k v H; simpl in H.
  - destruct (star_matched _ _ _ _ _ H) as (s1 & s2 & ? & ? & ?).
    exists s1, s2. repeat split; auto. lia.
  - destruct s as [|c s]; [discriminate|].
    destruct (P c) eqn:Hc; [|discriminate].
    destruct (IH _ _ _ _ H) as (s1 & s2 & -> & Hall & Hlen & Hk).
    exists (c :: s1), s2. simpl. rewrite Hc, Hall.
    rewrite <- app_assoc in Hk. repeat split; auto. lia.
Qed.
End Repetition.

Section HorizontalRule.
Import Py Re Parser.

Lemma dollar_true s : dollar s = true -> s = [] \/ s = [NL].
Proof.
  destruct s as [|a [|b t]]; simpl; auto; [|discriminate].
  intros H. apply N.eqb_eq in H. subst. auto.
Qed.

Lemma only_all c s : forallb (only c) s = true -> s = replicate (length s) c.
Proof.
  induction s as [|x s IH]; simpl; [reflexivity|].
  intros H. apply andb_prop in H as [Hx Hs].
  apply N.eqb_eq in Hx. subst. now rewrite <- IH.
Qed.

Lemma all_only c n : forallb (only c) (replicate n c) = true.
Proof.
  induction n as [|n IH]; simpl; [reflexivity|].
  unfold only at 1. now rewrite N.eqb_refl.
Qed.

Lemma rule_matched c s :
  rule c s = Some tt ->
  exists n, (3 <= n)%nat /\ (s = replicate n c \/ s = replicate n c ++ [NL]).
Proof.
  intros H. apply at_least_matched in H as (s1 & s2 & -> & Hall & Hlen & Hk).
  exists (length s1). split; [assumption|].
  rewrite <- (only_all c s1 Hall).
  unfold at_end in Hk. destruct (dollar s2) eqn:Hd; [|discriminate].
  apply dollar_true in Hd as [-> | ->]; [left; apply app_nil_r | now right].
Qed.

Lemma rule_replicate c n : (3 <= n)%nat -> rule c (replicate n c) = Some tt.
Proof.
  intros Hn. unfold rule. apply at_least_takes_all.
  - apply all_only.
  - now rewrite length_replicate.
  - reflexivity.
Qed.

(** [HR_PATTERN.match] accepts a line only when the whole line is one
    rule character three or more times over. *)
Lemma HR_PATTERN_matched s :
  matched (HR_PATTERN s) = true ->
  exists c n,
    (c = ch "-" \/ c = ch "_" \/ c = ch "*") /\ (3 <= n)%nat
    /\ (s = replicate n c \/ s = replicate n c ++ [NL]).
Proof.
  unfold HR_PATTERN, orelse.
  destruct (rule (ch "-") s) as [[]|] eqn:H1.
  { intros _. destruct (rule_matched _ _ H1) as (n & ? & ?). eauto 10. }
  destruct (rule (ch "_") s) as [[]|] eqn:H2.
  { intros _. destruct (rule_matched _ _ H2) as (n & ? & ?). eauto 10. }
  destruct (rule (ch "*") s) as [[]|] eqn:H3; [|discriminate].
  intros _. destruct (rule_matched _ _ H3) as (n & ? & ?). eauto 10.
Qed.

(** A line that ends in asterisks after some other character is not
    accepted. *)
Lemma HR_PATTERN_trailing_asterisks pre c n :
  c <> ch "*" -> (1 <= n)%nat ->
  matched (HR_PATTERN (pre ++ c :: replicate n (ch "*"))) = false.
Proof.
  intros Hc Hn.
  destruct (matched (HR_PATTERN (pre ++ c :: replicate n (ch "*")))) eqn:H;
    [exfalso | reflexivity].
  apply HR_PATTERN_matched in H as (x & m & _ & _ & Hs).
  destruct n as [|n]; [lia|]. rewrite replicate_S_end in Hs.
  assert (Hlast : last (pre ++ c :: replicate n (ch "*") ++ [ch "*"])
                  = Some (ch "*")).
  { rewrite app_comm_cons, app_assoc. apply last_snoc. }
  destruct Hs as [Hs | Hs]; rewrite Hs in Hlast.
  - assert (Hin : c ∈ replicate m x).
    { rewrite <- Hs. apply elem_of_app. right. apply elem_of_cons. now left. }
    apply elem_of_replicate_inv in Hin.
    apply last_Some_elem_of, elem_of_replicate_inv in Hlast. congruence.
  - rewrite last_snoc in Hlast. discriminate.
Qed.
End HorizontalRule.

Section AsteriskLines.
Import Py Re Parser.
Variable U : unicodedata.

(** A line of three or more asterisks passes every test that comes
    before the rule test in [_parse_line], and then the rule test
    accepts it. *)
Lemma asterisks_reach_rule n :
  (3 <= n)%nat ->
  let line := replicate n (ch "*") in
  matched (EMPTY_PATTERN line) = false
  /\ HEADING_PATTERN line = None
  /\ matched (CODE_BLOCK_PATTERN U line) = false
  /\ matched (QUOTE_PATTERN line) = false
  /\ matched (LIST_PATTERN U line) = false
  /\ matched (TABLE_PATTERN line) = false
  /\ matched (HR_PATTERN line) = true.
Proof.
  intros Hn line.
  assert (Hrule : HR_PATTERN line = Some tt).
  { unfold HR_PATTERN. subst line.
    rewrite (rule_replicate (ch "*") n Hn).
    destruct n as [|n]; [lia|]. reflexivity. }
  subst line. rewrite Hrule.
  destruct n as [|[|[|m]]]; try lia.
  repeat split; reflexivity.
Qed.
End AsteriskLines.

(** C10, as the code has it.  [HR_PATTERN] is only ever applied with
    [match], which starts every alternative at the first character of
    the line.  So a line made only of three or more asterisks is
    classified as [horizontal_rule], while a line that ends in asterisks
    after some other character, and matches none of the earlier
    patterns, is classified as [paragraph]. *)
Theorem asterisk_rule_needs_whole_line (U : Py.unicodedata) :
  (forall (lines : list Py.str) (index n : nat),
      let line : Py.str := replicate n (Parser.ch "*") in
      (3 <= n)%nat ->
      lines !! index = Some line ->
      Parser._parse_line U lines index
      = Some (Some (Parser.new_element Parser.HORIZONTAL_RULE line 0 line),
              1%nat))
  /\ (forall (lines : list Py.str) (index n : nat) (pre : Py.str) (c : N),
        let line := pre ++ c :: replicate n (Parser.ch "*") in
        (3 <= n)%nat -> c <> Parser.ch "*" ->
        lines !! index = Some line ->
        Re.matched (Parser.EMPTY_PATTERN line) = false ->
        Re.matched (Parser.HEADING_PATTERN line) = false ->
        Re.matched (Parser.CODE_BLOCK_PATTERN U line) = false ->
        Re.matched (Parser.QUOTE_PATTERN line) = false ->
        Re.matched (Parser.LIST_PATTERN U line) = false ->
        Re.matched (Parser.TABLE_PATTERN line) = false ->
        exists element lines_consumed,
          Parser._parse_line U lines index = Some (Some element, lines_consumed)
          /\ Parser.type element = Parser.PARAGRAPH).
Proof.
  split.
  - intros lines index n line Hn Hline.
    destruct (asterisks_reach_rule U n Hn) as (He & Hh & Hc & Hq & Hl & Ht & Hr).
    fold line in He, Hh, Hc, Hq, Hl, Ht, Hr.
    unfold Parser._parse_line. rewrite Hline, He, Hh, Hc, Hq, Hl, Ht, Hr.
    reflexivity.
  - intros lines index n pre c line Hn Hc Hline He Hh Hcb Hq Hl Ht.
    assert (Hr : Re.matched (Parser.HR_PATTERN line) = false)
      by (apply HR_PATTERN_trailing_asterisks; [assumption | lia]).
    eexists _, _. split.
    + exact (_parse_line_plain U lines index line Hline He Hh Hcb Hq Hl Ht Hr).
    + reflexivity.
Qed.

(** The amended C10 at the lines [***] and [hello ***]. *)
Lemma asterisk_rule_needs_whole_line_witness :
  Parser._parse_line Py.caseless [Py.lit "***"] 0
  = Some (Some (Parser.new_element Parser.HORIZONTAL_RULE
                  (Py.lit "***") 0 (Py.lit "***")), 1%nat)
  /\ exists element lines_consumed,
       Parser._parse_line Py.caseless [Py.lit "hello ***"] 0
       = Some (Some element, lines_consumed)
       /\ Parser.type element = Parser.PARAGRAPH.
Proof.
  split.
  - apply (proj1 (asterisk_rule_needs_whole_line Py.caseless)
             [Py.lit "***"] 0%nat 3%nat); [lia | reflexivity].
  - apply (proj2 (asterisk_rule_needs_whole_line Py.caseless)
             [Py.lit "hello ***"] 0%nat 3%nat (Py.lit "hello") 32%N);
      first [lia | discriminate | reflexivity].
Defined.

(** C10 as stated fails: the prose line [hello ***] is not blank, is no
    heading, code fence, quote, list item or table row, and its final
    characters are three asterisks; [_parse_line] classifies it as a
    paragraph, not as a horizontal rule. *)
Lemma prose_ending_in_asterisks_is_paragraph :
  let line := Py.lit "hello ***" in
  Re.matched (Parser.EMPTY_PATTERN line) = false
  /\ Re.matched (Parser.HEADING_PATTERN line) = false
  /\ Re.matched (Parser.CODE_BLOCK_PATTERN Py.caseless line) = false
  /\ Re.matched (Parser.QUOTE_PATTERN line) = false
  /\ Re.matched (Parser.LIST_PATTERN Py.caseless line) = false
  /\ Re.matched (Parser.TABLE_PATTERN line) = false
  /\ drop 6 line = Py.lit "***"
  /\ Parser._parse_line Py.caseless [line] 0
     = Some (Some (Parser.new_element Parser.PARAGRAPH line 0 line), 1%nat).
Proof. repeat split. Qed.

(* ===================================================================== *)
(** ** Image-source selection *)
(* ===================================================================== *)

Section ImageSource.
Import Py Analyzer.

Lemma str_eqb_eq a b : str_eqb a b = true <-> a = b.
Proof. unfold str_eqb. apply bool_decide_eq_true. Qed.

Lemma str_eqb_neq a b : str_eqb a b = false <-> a <> b.
Proof. unfold str_eqb. apply bool_decide_eq_false. Qed.

Lemma existsb_str_eqb_false x l : ~ In x l -> existsb (str_eqb x) l = false.
Proof.
  induction l as [|y l IH]; simpl; [reflexivity|]. intros Hnot.
  apply orb_false_intro.
  - apply str_eqb_neq. intros ->. apply Hnot. now left.
  - apply IH. intros Hin. apply Hnot. now right.
Qed.
End ImageSource.

(** C8. [_determine_image_source] reads nothing but [self.image_source]
    and its two arguments, so for a fixed configured source it is a
    function of [(image_type, doc_type)]: a cover takes the configured
    source whatever the document type; a section, concept or diagram
    image of a technical document takes [mermaid]; any image other than
    a cover of a normal document takes [unsplash]; everything else takes
    the configured source. *)
Theorem determine_image_source_policy (configured : Py.str) :
  (forall doc_type,
      Analyzer._determine_image_source configured (Py.lit "cover") doc_type
      = configured)
  /\ (forall image_type,
        In image_type [Py.lit "section"; Py.lit "concept"; Py.lit "diagram"] ->
        Analyzer._determine_image_source configured image_type (Py.lit "technical")
        = Py.lit "mermaid")
  /\ (forall image_type,
        image_type <> Py.lit "cover" ->
        Analyzer._determine_image_source configured image_type (Py.lit "normal")
        = Py.lit "unsplash")
  /\ (forall image_type doc_type,
        image_type <> Py.lit "cover" ->
        doc_type <> Py.lit "normal" ->
        (doc_type = Py.lit "technical" ->
         ~ In image_type [Py.lit "section"; Py.lit "concept"; Py.lit "diagram"]) ->
        Analyzer._determine_image_source configured image_type doc_type
        = configured).
Proof.
  unfold Analyzer._determine_image_source. repeat split.
  - intros image_type Hin. simpl in Hin.
    destruct Hin as [<- | [<- | [<- | []]]]; reflexivity.
  - intros image_type Hcover.
    apply str_eqb_neq in Hcover. rewrite Hcover. reflexivity.
  - intros image_type doc_type Hcover Hnormal Htech.
    apply str_eqb_neq in Hcover, Hnormal. rewrite Hcover, Hnormal.
    destruct (Py.str_eqb doc_type (Py.lit "technical")) eqn:Ht;
      [|reflexivity].
    apply str_eqb_eq in Ht. rewrite (existsb_str_eqb_false _ _ (Htech Ht)).
    reflexivity.
Qed.

(** C8 at a concept image of a technical document, for the source
    [zhipu]. *)
Lemma determine_image_source_policy_witness :
  Analyzer._determine_image_source (Py.lit "zhipu") (Py.lit "concept")
    (Py.lit "technical")
  = Py.lit "mermaid".
Proof.
  apply (proj1 (proj2 (determine_image_source_policy (Py.lit "zhipu")))).
  simpl. auto.
Defined.

(* ===================================================================== *)
(** ** The plan of [create_regenerate_plan] *)
(* ===================================================================== *)

Section PlanFacts.
Import Py Regenerate.
Variable existing_images : list ExistingImage.
Variable regenerate_indices : list Z.

Implicit Types (todo : list (nat * Analyzer.ImageDecision)) (plan : Plan).

Lemma find_defined {A} (p : A -> bool) l :
  existsb p l = true -> exists x, List.find p l = Some x.
Proof.
  induction l as [|y l IH]; simpl; [discriminate|].
  destruct (p y); eauto.
Qed.

Lemma find_undefined {A} (p : A -> bool) l :
  existsb p l = false -> List.find p l = None.
Proof.
  induction l as [|y l IH]; simpl; [reflexivity|].
  destruct (p y); [discriminate | auto].
Qed.

(** What each bucket receives from one decision. *)
Let to_keep : nat * Analyzer.ImageDecision -> option Kept := fun '(i, _) =>
  if selected regenerate_indices i then None
  else (fun img => {| kept_index := i; kept_image_path := image_path img;
                      kept_image_type := image_type img |})
       <$> List.find (fun img => index img =? Z.of_nat i)%Z existing_images.

Let to_regenerate : nat * Analyzer.ImageDecision -> option Slot := fun '(i, d) =>
  if selected regenerate_indices i then Some (slot_of i d) else None.

Let to_missing : nat * Analyzer.ImageDecision -> option Slot := fun '(i, d) =>
  if selected regenerate_indices i || seen existing_images i then None
  else Some (slot_of i d).

(** The loop never stops on [next(...)], and its three lists grow by
    what the decisions visited contribute, in order. *)
Lemma plan_loop_buckets todo : forall plan,
  plan_loop existing_images regenerate_indices todo plan
  = Some {| keep := keep plan ++ omap to_keep todo;
            regenerate := regenerate plan ++ omap to_regenerate todo;
            missing := missing plan ++ omap to_missing todo |}.
Proof.
  induction todo as [|[i d] todo IH]; intros plan.
  - simpl. rewrite !app_nil_r. now destruct plan.
  - cbn [plan_loop omap list_omap to_keep to_regenerate to_missing].
    destruct (selected regenerate_indices i) eqn:Hsel.
    + rewrite IH. cbn [keep regenerate missing orb].
      now rewrite <- !app_assoc.
    + destruct (seen existing_images i) eqn:Hseen; cbn [orb].
      * destruct (find_defined _ _ Hseen) as [img Himg].
        unfold seen in Hseen. rewrite Himg, IH.
        cbn [keep regenerate missing fmap option_fmap option_map].
        now rewrite <- !app_assoc.
      * rewrite (find_undefined _ _ Hseen), IH.
        cbn [keep regenerate missing fmap option_fmap option_map].
        now rewrite <- !app_assoc.
Qed.

(** Each decision visited lands in exactly one bucket. *)
Lemma buckets_partition todo :
  List.map kept_index (omap to_keep todo)
  ++ List.map slot_index (omap to_regenerate todo)
  ++ List.map slot_index (omap to_missing todo)
  ≡ₚ List.map fst todo.
Proof.
  induction todo as [|[i d] todo IH]; [reflexivity|].
  cbn [omap list_omap to_keep to_regenerate to_missing List.map fst].
  destruct (selected regenerate_indices i) eqn:Hsel; cbn [orb].
  - cbn [List.map slot_index slot_of app]. rewrite <- Permutation_middle.
    now constructor.
  - destruct (seen existing_images i) eqn:Hseen.
    + destruct (find_defined _ _ Hseen) as [img Himg].
      unfold seen in Hseen. rewrite Himg.
      cbn [fmap option_fmap option_map List.map kept_index app].
      now constructor.
    + rewrite (find_undefined _ _ Hseen).
      cbn [fmap option_fmap option_map List.map slot_index slot_of].
      rewrite app_assoc, <- Permutation_middle, <- app_assoc.
      now constructor.
Qed.

Lemma enumerate_positions {A} (l : list A) : forall k,
  List.map fst (imap (fun i x => ((k + i)%nat, x)) l) = seq k (length l).
Proof.
  induction l as [|x l IH]; intros k; [reflexivity|].
  rewrite imap_cons. cbn [List.map fst length seq]. f_equal; [lia|].
  rewrite <- (IH (S k)). f_equal. apply imap_ext. intros i y _. simpl.
  f_equal. lia.
Qed.

(** [enumerate(l)] numbers the items of [l] from zero. *)
Lemma enumerate_from_zero {A} (l : list A) :
  List.map fst (imap pair l) = seq 0 (length l).
Proof.
  rewrite <- (enumerate_positions l 0). f_equal.
Qed.

Lemma kept_from todo k :
  In k (omap to_keep todo) ->
  (exists d, (kept_index k, d) ∈ todo)
  /\ selected regenerate_indices (kept_index k) = false
  /\ exists img,
       List.find (fun img => index img =? Z.of_nat (kept_index k))%Z
                 existing_images = Some img
       /\ kept_image_path k = image_path img
       /\ kept_image_type k = image_type img.
Proof.
  intros Hin. apply list_elem_of_In, list_elem_of_omap in Hin.
  destruct Hin as ([i d] & Hid & Hk). cbn [to_keep] in Hk.
  destruct (selected regenerate_indices i) eqn:Hsel; [discriminate|].
  destruct (List.find _ existing_images) as [img|] eqn:Himg; [|discriminate].
  injection Hk as <-. simpl. eauto 10.
Qed.

Lemma not_selected i :
  selected regenerate_indices i = false -> ~ In (Z.of_nat i) regenerate_indices.
Proof.
  unfold selected. intros Hsel Hin.
  assert (existsb (Z.eqb (Z.of_nat i)) regenerate_indices = true);
    [|congruence].
  apply existsb_exists. exists (Z.of_nat i). split; [assumption|].
  apply Z.eqb_refl.
Qed.

(** What [next(x for x in l if p(x))] finds is the first item of [l]
    that passes the test. *)
Lemma find_first {A} (p : A -> bool) (l : list A) x :
  List.find p l = Some x ->
  exists j, l !! j = Some x /\ p x = true
            /\ forall j' y, (j' < j)%nat -> l !! j' = Some y -> p y = false.
Proof.
  induction l as [|z l IH]; cbn [List.find]; [discriminate|].
  destruct (p z) eqn:Hz.
  - intros [= <-]. exists 0%nat. repeat split; auto. intros j' y Hlt. lia.
  - intros Hfind. destruct (IH Hfind) as (j & Hj & Hx & Hbefore).
    exists (S j). repeat split; auto.
    intros [|j'] y Hlt Hy; [now injection Hy as <-|].
    apply (Hbefore j' y); [lia | exact Hy].
Qed.

(** C3, as the code has it.  A decision ordinal is placed in [keep] only
    if it is not among the regenerate indices and some recovered image
    bears that ordinal; the kept entry takes its path and its kind from
    the first such image in the order the images were recovered (no
    image before it bears the ordinal), whose kind is not compared with
    the kind of the decision and whose [is_failed] flag is not read. *)
Theorem keep_requires_ordinal_match
    (decisions : list Analyzer.ImageDecision) (plan : Plan) (k : Kept) :
  create_regenerate_plan existing_images decisions regenerate_indices
  = Some plan ->
  In k (keep plan) ->
  (kept_index k < length decisions)%nat
  /\ ~ In (Z.of_nat (kept_index k)) regenerate_indices
  /\ exists j img,
       existing_images !! j = Some img
       /\ index img = Z.of_nat (kept_index k)
       /\ (forall j' img',
             (j' < j)%nat -> existing_images !! j' = Some img' ->
             index img' <> Z.of_nat (kept_index k))
       /\ kept_image_path k = image_path img
       /\ kept_image_type k = image_type img.
Proof.
  unfold create_regenerate_plan. rewrite plan_loop_buckets.
  intros [= <-]. cbn [keep app]. intros Hin.
  destruct (kept_from _ _ Hin) as ((d & Hd) & Hsel & img & Himg & Hpath & Hty).
  split; [|split].
  - apply elem_of_lookup_imap_1 in Hd as (i & d' & [= -> ->] & Hi).
    now apply lookup_lt_Some in Hi.
  - now apply not_selected.
  - apply find_first in Himg as (j & Hj & Hidx & Hbefore).
    apply Z.eqb_eq in Hidx. exists j, img. repeat split; auto.
    intros j' img' Hlt Hj'. apply Z.eqb_neq. exact (Hbefore j' img' Hlt Hj').
Qed.
(** C6. For all recovered images, decisions and regenerate indices,
    [create_regenerate_plan] returns a plan whose three buckets together
    hold as many entries as there are decisions, no ordinal stands in two
    buckets, and the ordinals of the buckets taken together are the
    decision ordinals [0 .. len(decisions) - 1], each once. *)
Theorem plan_partitions_decisions (decisions : list Analyzer.ImageDecision) :
  exists plan,
    create_regenerate_plan existing_images decisions regenerate_indices
    = Some plan
    /\ (length (keep plan) + length (regenerate plan) + length (missing plan)
        = length decisions)%nat
    /\ (let kept := List.map kept_index (keep plan) in
        let redo := List.map slot_index (regenerate plan) in
        let new := List.map slot_index (missing plan) in
        (forall i, In i kept -> ~ In i redo)
        /\ (forall i, In i kept -> ~ In i new)
        /\ (forall i, In i redo -> ~ In i new)
        /\ kept ++ redo ++ new ≡ₚ seq 0 (length decisions)).
Proof.
  unfold create_regenerate_plan.
  rewrite plan_loop_buckets. eexists. split; [reflexivity|].
  cbn [keep regenerate missing app].
  pose proof (buckets_partition (imap pair decisions)) as Hperm.
  rewrite (enumerate_from_zero decisions) in Hperm.
  assert (Hnodup : NoDup (seq 0 (length decisions))) by apply NoDup_seq.
  rewrite <- Hperm in Hnodup.
  apply NoDup_app in Hnodup as (_ & Hkept & Hrest).
  apply NoDup_app in Hrest as (_ & Hredo & _).
  split.
  - apply Permutation_length in Hperm.
    rewrite !length_app, length_seq, !length_map in Hperm. lia.
  - repeat split; [| | |exact Hperm].
    + intros i Hi Hr. apply list_elem_of_In in Hi, Hr.
      apply (Hkept i Hi). apply elem_of_app. now left.
    + intros i Hi Hm. apply list_elem_of_In in Hi, Hm.
      apply (Hkept i Hi). apply elem_of_app. now right.
    + intros i Hr Hm. apply list_elem_of_In in Hr, Hm. exact (Hredo i Hr Hm).
Qed.
End PlanFacts.

(** The amended C3 at a plan that keeps the first of two recovered
    images of ordinal 0. *)
Lemma keep_requires_ordinal_match_witness :
  (0 < 1)%nat
  /\ ~ In (Z.of_nat 0) []
  /\ exists j img,
       [Sample.failed_section; Sample.failed_cover] !! j = Some img
       /\ Regenerate.index img = Z.of_nat 0
       /\ (forall j' img',
             (j' < j)%nat ->
             [Sample.failed_section; Sample.failed_cover] !! j' = Some img' ->
             Regenerate.index img' <> Z.of_nat 0)
       /\ [] = Regenerate.image_path img
       /\ Py.lit "section" = Regenerate.image_type img.
Proof.
  apply (keep_requires_ordinal_match
           [Sample.failed_section; Sample.failed_cover] []
           [Sample.decision 0 "cover"]
           {| Regenerate.keep :=
                [ {| Regenerate.kept_index := 0;
                     Regenerate.kept_image_path := [];
                     Regenerate.kept_image_type := Py.lit "section" |} ];
              Regenerate.regenerate := []; Regenerate.missing := [] |}
           {| Regenerate.kept_index := 0;
              Regenerate.kept_image_path := [];
              Regenerate.kept_image_type := Py.lit "section" |}).
  - reflexivity.
  - simpl. auto.
Defined.

(** C3 as stated fails: the only recovered image is a section image
    marked failed, the only decision is a cover, nothing is selected for
    regeneration, and ordinal 0 is kept with that image. *)
Lemma failed_image_of_another_kind_is_kept :
  Regenerate.is_failed Sample.failed_section = true
  /\ Regenerate.image_type Sample.failed_section = Py.lit "section"
  /\ Analyzer.image_type (Sample.decision 0 "cover") = Py.lit "cover"
  /\ Regenerate.create_regenerate_plan
       [Sample.failed_section] [Sample.decision 0 "cover"] []
     = Some {| Regenerate.keep :=
                 [ {| Regenerate.kept_index := 0;
                      Regenerate.kept_image_path := [];
                      Regenerate.kept_image_type := Py.lit "section" |} ];
               Regenerate.regenerate := []; Regenerate.missing := [] |}.
Proof. repeat split. Qed.

(* ===================================================================== *)
(** ** What [parse_existing_images] recovers *)
(* ===================================================================== *)

Section RecoveryFacts.
Import Py Re Regenerate.
Variable U : unicodedata.

(** The two kinds of entry the scan can append: a failure marker, which
    has no path, and a diagram block, whose path is a diagram-source
    marker. *)
Let marker_or_diagram (img : ExistingImage) : Prop :=
  (is_failed img = true /\ image_path img = [])
  \/ (is_failed img = false
      /\ startswith (lit "MERMAID_CODE:") (image_path img) = true).

(** [_parse_image_info_from_alt_text] never returns an index. *)
Lemma alt_text_gives_no_index alt_text :
  snd (_parse_image_info_from_alt_text alt_text) = None.
Proof.
  unfold _parse_image_info_from_alt_text.
  now destruct (first_type _).
Qed.

(** One round of the scan leaves the recovered images as they are or
    appends a failure marker or a diagram block. *)
Lemma step_appends lines st line_num line st' :
  step U lines st line_num line = Some st' ->
  existing_images st' = existing_images st
  \/ exists img, existing_images st' = existing_images st ++ [img]
                 /\ marker_or_diagram img.
Proof.
  unfold step.
  destruct (opens_mermaid U lines line_num line).
  { intros [= <-]. now left. }
  destruct (in_mermaid_block st).
  { destruct (startswith FENCE (strip line)
              && negb (contains (lit "mermaid") line)).
    - destruct (_parse_image_type_from_context _ _ _) as [[|c t]|].
      + intros [= <-]. now left.
      + cbv zeta. destruct (type_counters st !! _) as [idx|]; [|discriminate].
        intros [= <-]. right. eexists. split; [reflexivity|].
        right. split; reflexivity.
      + intros [= <-]. now left.
    - destruct (negb _); intros [= <-]; now left. }
  destruct (contains ALL_FAILED line).
  { destruct (_parse_image_info_from_context U lines line_num)
      as [image_type [idx|]].
    - destruct (truthy image_type); intros [= <-]; [right | now left].
      eexists. split; [reflexivity|]. left. split; reflexivity.
    - intros [= <-]. now left. }
  destruct (image_pattern line) as [[alt_text path]|].
  - destruct (negb (_is_auto_generated_image alt_text)).
    { intros [= <-]. now left. }
    destruct (startswith (lit "MERMAID_CODE:") path).
    { intros [= <-]. now left. }
    pose proof (alt_text_gives_no_index alt_text) as Hnone.
    destruct (_parse_image_info_from_alt_text alt_text) as [image_type idx].
    simpl in Hnone. subst idx. intros [= <-]. now left.
  - intros [= <-]. now left.
Qed.

Lemma run_appends lines todo : forall st st',
  run U lines todo st = Some st' ->
  Forall marker_or_diagram (existing_images st) ->
  Forall marker_or_diagram (existing_images st').
Proof.
  induction todo as [|[line_num line] todo IH]; intros st st'; simpl.
  - now intros [= <-].
  - destruct (step U lines st line_num line) as [st1|] eqn:Hstep;
      [|discriminate].
    intros Hrun Hall. apply (IH _ _ Hrun).
    destruct (step_appends _ _ _ _ _ Hstep) as [-> | (img & -> & Himg)];
      [assumption|].
    apply Forall_app. split; [assumption|]. now constructor.
Qed.

(** X4. Conservative attribution.  No image reference line ever
    becomes an [ExistingImage]: what is recovered is a failure marker or
    a diagram block. *)
Theorem recovered_images_are_markers_or_diagrams lines imgs lines' img :
  parse_existing_images U (Some lines) = Some (imgs, lines') ->
  In img imgs ->
  (is_failed img = true /\ image_path img = [])
  \/ (is_failed img = false
      /\ startswith (lit "MERMAID_CODE:") (image_path img) = true).
Proof.
  unfold parse_existing_images.
  destruct (run U lines (imap pair lines) initial) as [st|] eqn:Hrun;
    [|discriminate].
  intros [= <- <-] Hin.
  assert (Hall : Forall marker_or_diagram (existing_images st)).
  { apply (run_appends _ _ _ _ Hrun). constructor. }
  rewrite Forall_forall in Hall. apply Hall. now apply list_elem_of_In.
Qed.
End RecoveryFacts.

Section RecoveryTotality.
Import Py Re Regenerate.
Variable U : unicodedata.

Let known (t : str) : Prop := In t (List.map fst TYPE_NAMES).

Lemma first_type_known test t : first_type test = Some t -> known t.
Proof.
  unfold first_type.
  destruct (List.find _ TYPE_NAMES) as [[img_type cn_name]|] eqn:Hfind;
    [|discriminate].
  intros [= <-]. apply find_some in Hfind as [Hin _].
  apply (in_map fst) in Hin. exact Hin.
Qed.

(** Whatever type a diagram block is attributed to is a key of
    [TYPE_NAMES], hence of [type_counters]. *)
Lemma context_type_known lines start_line end_line t :
  _parse_image_type_from_context lines start_line end_line = Some t -> known t.
Proof.
  unfold _parse_image_type_from_context. cbv zeta.
  assert (Hgrammar : forall g : str, In g (List.map lit
            ["concept"; "section"; "code_concept"; "cover"]%string) -> known g)
    by (unfold known; simpl; intuition (subst; tauto)).
  repeat match goal with
         | |- context [match first_type ?test with _ => _ end] =>
             let H := fresh "Hfirst" in
             destruct (first_type test) eqn:H;
             [intros [= <-]; exact (first_type_known _ _ H)|]
         | |- context [if ?b then _ else _] => destruct b
         | |- Some _ = Some _ -> _ =>
             intros [= <-]; apply Hgrammar; simpl; tauto
         end;
    discriminate.
Qed.

(** Every key of [TYPE_NAMES] has a counter. *)
Let counted (st : State) : Prop :=
  forall t, known t -> is_Some (type_counters st !! t).


Lemma step_defined lines st line_num line :
  counted st ->
  exists st', step U lines st line_num line = Some st' /\ counted st'.
Proof.
  intros Hst. unfold step.
  destruct (opens_mermaid U lines line_num line); [eauto|].
  destruct (in_mermaid_block st).
  { destruct (startswith FENCE (strip line)
              && negb (contains (lit "mermaid") line)).
    - destruct (_parse_image_type_from_context _ _ _) as [[|c t]|] eqn:Hty;
        [eauto | | eauto].
      cbv zeta. destruct (Hst _ (context_type_known _ _ _ _ Hty)) as [idx ->].
      eexists. split; [reflexivity|].
      intros t' Ht'. cbn [type_counters].
      apply lookup_insert_is_Some'. right. now apply Hst.
    - destruct (negb _); eauto. }
  destruct (contains ALL_FAILED line).
  { destruct (_parse_image_info_from_context U lines line_num)
      as [image_type [idx|]]; [|eauto].
    destruct (truthy image_type); eauto. }
  destruct (image_pattern line) as [[alt_text path]|]; [|eauto].
  destruct (negb (_is_auto_generated_image alt_text)); [eauto|].
  destruct (startswith (lit "MERMAID_CODE:") path); [eauto|].
  destruct (_parse_image_info_from_alt_text alt_text) as [image_type [idx|]];
    [|eauto].
  destruct (truthy image_type); eauto.
Qed.

Lemma run_defined lines todo : forall st,
  counted st -> exists st', run U lines todo st = Some st'.
Proof.
  induction todo as [|[line_num line] todo IH]; intros st Hst; simpl.
  - eauto.
  - destruct (step_defined lines st line_num line Hst) as (st1 & -> & Hst1).
    now apply IH.
Qed.


End RecoveryTotality.

(** C5 at a previous output that consists of one image reference whose
    alt-text is the cover label followed by the title: the alt-text
    holds a recognized label, the path is no diagram-source marker, the
    line stands in no diagram block, and nothing is recovered. *)
Theorem labelled_image_reference_is_not_recovered :
  Regenerate.image_pattern Sample.cover_reference
  = Some (Sample.label "cover" ++ Py.lit " - My Article",
          Py.lit "images/cover_0.png")
  /\ Regenerate._is_auto_generated_image
       (Sample.label "cover" ++ Py.lit " - My Article") = true
  /\ Regenerate.parse_existing_images Py.caseless (Some [Sample.cover_reference])
     = Some ([], [Sample.cover_reference]).
Proof. repeat split. Qed.

(* ===================================================================== *)
(** ** The main scan of [analyze] *)
(* ===================================================================== *)

Section SpacedFacts.
Import Placement.
#[local] Open Scope Z_scope.

Lemma spaced_bounds gap : forall positions last lo,
  spaced gap last lo positions ->
  forall q, In q positions -> (lo <= q)%nat /\ last + gap <= Z.of_nat q.
Proof.
  induction positions as [|p rest IH]; intros last lo H q Hq; [destruct Hq|].
  destruct H as (Hlo & Hgap & Hrest). destruct Hq as [<- | Hq]; [auto|].
  destruct (IH _ _ Hrest q Hq) as [Hq1 _]. split; lia.
Qed.

Lemma spaced_from gap last lo lo' positions :
  (lo' <= lo)%nat -> spaced gap last lo positions ->
  spaced gap last lo' positions.
Proof.
  destruct positions as [|p rest]; [auto|].
  intros Hle (Hlo & Hgap & Hrest). repeat split; auto. lia.
Qed.

(** Of two accepted positions, the later accepted one is the larger
    one, and lies at least [gap] further on. *)
Lemma spaced_pairs gap : forall positions last lo i j p q,
  spaced gap last lo positions ->
  (i < j)%nat -> positions !! i = Some p -> positions !! j = Some q ->
  (p < q)%nat /\ Z.of_nat p + gap <= Z.of_nat q.
Proof.
  induction positions as [|p0 rest IH]; intros last lo i j p q H Hij Hi Hj.
  - discriminate.
  - destruct H as (_ & _ & Hrest).
    destruct j as [|j]; [lia|]. simpl in Hj.
    destruct i as [|i].
    + injection Hi as <-.
      assert (Hq : In q rest)
        by (apply list_elem_of_In, list_elem_of_lookup; eauto).
      destruct (spaced_bounds _ _ _ _ Hrest q Hq). split; lia.
    + simpl in Hi. apply (IH _ _ i j p q Hrest); [lia | auto | auto].
Qed.
End SpacedFacts.

Section ScanFacts.
Import Py Parser Analyzer Placement.
#[local] Open Scope Z_scope.

Variable self_image_source : str.
Variable rules : Rules.
Variable ab_test : ABTest.
Variable _generate_prompt :
  MarkdownElement -> list MarkdownElement -> str -> str -> str.

Lemma analyze_element_position element elems doc_type i d :
  _analyze_element self_image_source rules _generate_prompt
    element elems doc_type i = Some d ->
  element_index d = i /\ need_image d = true.
Proof.
  unfold _analyze_element.
  repeat match goal with
         | |- context [if ?b then _ else _] => destruct b
         end;
    intros [= <-]; auto.
Qed.

Lemma with_variants_position d :
  element_index (with_variants ab_test d) = element_index d.
Proof. unfold with_variants. now destruct (_ && _). Qed.

(** What the main scan appends while it visits the positions
    [i, i+1, ..., i+n-1]: decisions at positions that are spaced from the
    last image and from one another, and no more of them than the cap
    leaves room for. *)
Lemma scan_appends doc_type n : forall i st,
  exists new,
    decisions (scan self_image_source rules ab_test _generate_prompt
                 doc_type (seq i n) st)
    = decisions st ++ new
    /\ spaced (min_gap rules) (last_image_index st) i
         (List.map element_index new)
    /\ Z.of_nat (length new) <= Z.max 0 (max_images rules - image_count st).
Proof.
  induction n as [|n IH]; intros i st.
  { exists []. simpl. rewrite app_nil_r. repeat split. lia. }
  assert (Hstop : exists new,
            decisions st = decisions st ++ new
            /\ spaced (min_gap rules) (last_image_index st) i
                 (List.map element_index new)
            /\ Z.of_nat (length new)
               <= Z.max 0 (max_images rules - image_count st)).
  { exists []. simpl. rewrite app_nil_r. repeat split. lia. }
  assert (Hskip : exists new,
            decisions (scan self_image_source rules ab_test _generate_prompt
                         doc_type (seq (S i) n) st)
            = decisions st ++ new
            /\ spaced (min_gap rules) (last_image_index st) i
                 (List.map element_index new)
            /\ Z.of_nat (length new)
               <= Z.max 0 (max_images rules - image_count st)).
  { destruct (IH (S i) st) as (new & Hnew & Hsp & Hlen).
    exists new. repeat split; auto. apply (spaced_from _ _ (S i)); [lia | auto]. }
  cbn [seq scan].
  destruct (max_images rules <=? image_count st) eqn:Hcap; [exact Hstop|].
  destruct (Z.of_nat i - last_image_index st <? min_gap rules) eqn:Hgap;
    [exact Hskip|].
  destruct (doc_elements st !! i) as [element|]; [|exact Hstop].
  destruct (_analyze_element _ _ _ element (doc_elements st) doc_type i)
    as [d|] eqn:Hd; [|exact Hskip].
  destruct (analyze_element_position _ _ _ _ _ Hd) as [Hpos Hneed].
  rewrite Hneed.
  match goal with
  | |- context [scan _ _ _ _ _ _ ?st1] => destruct (IH (S i) st1)
      as (new & Hnew & Hsp & Hlen)
  end.
  cbn [decisions last_image_index image_count] in Hnew, Hsp, Hlen.
  exists (with_variants ab_test d :: new). split; [|split].
  - rewrite Hnew, <- app_assoc. reflexivity.
  - cbn [List.map spaced]. rewrite with_variants_position, Hpos.
    apply Z.ltb_ge in Hgap. repeat split; [lia | lia | exact Hsp].
  - apply Z.leb_gt in Hcap. cbn [length]. lia.
Qed.

(** The state before the scan: untouched, or holding the cover that
    stands in for a missing level-1 heading. *)
Lemma before_scan_cases doc_type elems :
  let st := before_scan self_image_source rules _generate_prompt
              doc_type elems in
  last_image_index st = - min_gap rules
  /\ ((decisions st = [] /\ image_count st = 0)
      \/ (has_h1 elems = false /\ default true (h1_after rules) = true
          /\ image_count st = 1
          /\ exists cover, decisions st = [cover])).
Proof.
  unfold before_scan.
  destruct (has_h1 elems); cbn [negb andb]; [auto|].
  destruct (default true (h1_after rules)); [|auto].
  destruct (title_element elems) as [[title_index el]|]; [|auto].
  cbn [last_image_index decisions image_count]. split; [reflexivity|].
  right. eauto 10.
Qed.

(** The decisions [analyze] returns: the cover that stands in for a
    missing level-1 heading, if any, and then what the scan accepts
    from position 0 on. *)
Lemma analyze_shape doc_type elems :
  exists first new,
    analyze self_image_source rules ab_test _generate_prompt doc_type elems
    = first ++ new
    /\ (first = []
        \/ (has_h1 elems = false /\ default true (h1_after rules) = true
            /\ exists cover, first = [cover]))
    /\ spaced (min_gap rules) (- min_gap rules) 0 (List.map element_index new)
    /\ Z.of_nat (length new)
       <= Z.max 0 (max_images rules - Z.of_nat (length first)).
Proof.
  unfold analyze, analyze_state.
  destruct (before_scan_cases doc_type elems) as (Hlast & Hcases).
  destruct (scan_appends doc_type (length elems) 0%nat
              (before_scan self_image_source rules _generate_prompt
                 doc_type elems)) as (new & Hnew & Hsp & Hlen).
  rewrite Hlast in Hsp.
  exists (decisions (before_scan self_image_source rules _generate_prompt
                       doc_type elems)), new.
  split; [exact Hnew|].
  destruct Hcases as [[Hd Hc] | (Hh1 & Hafter & Hc & cover & Hd)];
    rewrite Hd, Hc in *; repeat split; auto.
  right. eauto.
Qed.
End ScanFacts.

(* ===================================================================== *)
(** ** Gap, cap and order of the decisions *)
(* ===================================================================== *)

Section Decisions.
Import Py Parser Analyzer Placement.
#[local] Open Scope Z_scope.

Variable self_image_source : str.
Variable rules : Rules.
Variable ab_test : ABTest.
Variable _generate_prompt :
  MarkdownElement -> list MarkdownElement -> str -> str -> str.

(** No cover is synthesized when the document has a level-1 heading or
    [h1_after] is switched off. *)
Let scan_only (elems : list MarkdownElement) : Prop :=
  has_h1 elems = true \/ h1_after rules = Some false.

Lemma scan_only_shape doc_type elems :
  scan_only elems ->
  exists new,
    analyze self_image_source rules ab_test _generate_prompt doc_type elems
    = new
    /\ spaced (min_gap rules) (- min_gap rules) 0 (List.map element_index new)
    /\ Z.of_nat (length new) <= Z.max 0 (max_images rules).
Proof.
  intros Hscan.
  destruct (analyze_shape self_image_source rules ab_test _generate_prompt
              doc_type elems) as (first & new & Heq & Hfirst & Hsp & Hlen).
  assert (first = []) as ->.
  { destruct Hfirst as [-> | (Hh1 & Hafter & _)]; [reflexivity|].
    destruct Hscan as [Hs | Hs]; [congruence|]. rewrite Hs in Hafter.
    discriminate. }
  exists new. simpl in *. repeat split; auto. lia.
Qed.

(** X1. Gap invariant of the main scan.  When no cover is synthesized, any
    two decisions at positions [p1 < p2] are at least
    [min_gap_between_images] apart. *)
Theorem scan_keeps_gap doc_type elems d1 d2 :
  has_h1 elems = true \/ h1_after rules = Some false ->
  let ds := analyze self_image_source rules ab_test _generate_prompt
              doc_type elems in
  In d1 ds -> In d2 ds ->
  (element_index d1 < element_index d2)%nat ->
  min_gap rules <= Z.of_nat (element_index d2) - Z.of_nat (element_index d1).
Proof.
  intros Hscan ds H1 H2 Hlt.
  destruct (scan_only_shape doc_type elems Hscan) as (new & Heq & Hsp & _).
  subst ds. rewrite Heq in H1, H2.
  apply list_elem_of_In, list_elem_of_lookup in H1 as [i Hi].
  apply list_elem_of_In, list_elem_of_lookup in H2 as [j Hj].
  assert (Hpi : List.map element_index new !! i = Some (element_index d1))
    by (change (List.map element_index new) with (element_index <$> new);
        now rewrite list_lookup_fmap, Hi).
  assert (Hpj : List.map element_index new !! j = Some (element_index d2))
    by (change (List.map element_index new) with (element_index <$> new);
        now rewrite list_lookup_fmap, Hj).
  destruct (Nat.lt_trichotomy i j) as [Hij | [Hij | Hij]].
  - destruct (spaced_pairs _ _ _ _ _ _ _ _ Hsp Hij Hpi Hpj). lia.
  - subst j. rewrite Hi in Hj. injection Hj as ->. lia.
  - destruct (spaced_pairs _ _ _ _ _ _ _ _ Hsp Hij Hpj Hpi). lia.
Qed.

(** X2. Order of the main scan.  When no cover is synthesized, consecutive
    decisions stand at strictly increasing positions. *)
Theorem scan_keeps_order doc_type elems k d1 d2 :
  has_h1 elems = true \/ h1_after rules = Some false ->
  let ds := analyze self_image_source rules ab_test _generate_prompt
              doc_type elems in
  ds !! k = Some d1 -> ds !! S k = Some d2 ->
  (element_index d1 < element_index d2)%nat.
Proof.
  intros Hscan ds H1 H2.
  destruct (scan_only_shape doc_type elems Hscan) as (new & Heq & Hsp & _).
  subst ds. rewrite Heq in H1, H2.
  assert (Hp1 : List.map element_index new !! k = Some (element_index d1))
    by (change (List.map element_index new) with (element_index <$> new);
        now rewrite list_lookup_fmap, H1).
  assert (Hp2 : List.map element_index new !! S k = Some (element_index d2))
    by (change (List.map element_index new) with (element_index <$> new);
        now rewrite list_lookup_fmap, H2).
  destruct (spaced_pairs _ _ _ _ k (S k) _ _ Hsp ltac:(lia) Hp1 Hp2). lia.
Qed.

(** X3. Cap.  [analyze] never returns more decisions than
    [max_images_per_article], except that the synthesized cover is
    returned even when the cap is below one. *)
Theorem decisions_within_cap doc_type elems :
  let ds := analyze self_image_source rules ab_test _generate_prompt
              doc_type elems in
  Z.of_nat (length ds) <= Z.max 1 (max_images rules)
  /\ (has_h1 elems = true \/ h1_after rules = Some false ->
      Z.of_nat (length ds) <= Z.max 0 (max_images rules)).
Proof.
  intros ds. split.
  - destruct (analyze_shape self_image_source rules ab_test _generate_prompt
                doc_type elems) as (first & new & Heq & Hfirst & _ & Hlen).
    subst ds. rewrite Heq, length_app.
    destruct Hfirst as [-> | (_ & _ & cover & ->)]; simpl in *; lia.
  - intros Hscan.
    destruct (scan_only_shape doc_type elems Hscan) as (new & Heq & _ & Hlen).
    subst ds. now rewrite Heq.
Qed.
End Decisions.

(** X1 at [Sample.titled_decisions]. *)
Lemma scan_keeps_gap_witness :
  (Analyzer.min_gap Sample.h2_always
   <= Z.of_nat (Analyzer.element_index (Sample.nth_decision 1))
      - Z.of_nat (Analyzer.element_index (Sample.nth_decision 0)))%Z.
Proof.
  apply (scan_keeps_gap (Py.lit "zhipu") Sample.h2_always Sample.no_ab_test
           Sample.content_as_prompt (Py.lit "normal") Sample.titled_document).
  - left. vm_compute. reflexivity.
  - vm_compute. left. reflexivity.
  - vm_compute. right. left. reflexivity.
  - vm_compute. lia.
Defined.

(** X2 at [Sample.titled_decisions]. *)
Lemma scan_keeps_order_witness :
  (Analyzer.element_index (Sample.nth_decision 0)
   < Analyzer.element_index (Sample.nth_decision 1))%nat.
Proof.
  apply (scan_keeps_order (Py.lit "zhipu") Sample.h2_always Sample.no_ab_test
           Sample.content_as_prompt (Py.lit "normal") Sample.titled_document 0).
  - left. vm_compute. reflexivity.
  - vm_compute. reflexivity.
  - vm_compute. reflexivity.
Defined.

(** X3 at [Sample.titled_decisions], a document with a level-1
    heading. *)
Lemma decisions_within_cap_witness :
  (Z.of_nat (length Sample.titled_decisions)
   <= Z.max 0 (Analyzer.max_images Sample.h2_always))%Z.
Proof.
  apply (proj2 (decisions_within_cap (Py.lit "zhipu") Sample.h2_always
                  Sample.no_ab_test Sample.content_as_prompt (Py.lit "normal")
                  Sample.titled_document)).
  left. vm_compute. reflexivity.
Defined.

(** X4 at a file that holds a failure marker under a line that bears
    the cover label. *)
Lemma recovered_images_are_markers_or_diagrams_witness :
  (Regenerate.is_failed Sample.failed_cover = true
   /\ Regenerate.image_path Sample.failed_cover = [])
  \/ (Regenerate.is_failed Sample.failed_cover = false
      /\ Py.startswith (Py.lit "MERMAID_CODE:")
           (Regenerate.image_path Sample.failed_cover) = true).
Proof.
  apply (recovered_images_are_markers_or_diagrams Py.caseless
           [ Sample.ln (Py.lit "# " ++ Sample.label "cover");
             Sample.ln [];
             Sample.ln Regenerate.ALL_FAILED ]
           [Sample.failed_cover]
           [ Sample.ln (Py.lit "# " ++ Sample.label "cover");
             Sample.ln [];
             Sample.ln Regenerate.ALL_FAILED ]).
  - vm_compute. reflexivity.
  - simpl. auto.
Defined.

(** C1 at a document without a level-1 heading, under the default
    rules: an introduction, a level-2 heading, and 101 characters of
    text under it.  The cover is attached to position 0 and the section
    image to position 1, one apart, although [min_gap_between_images]
    is 3. *)
Theorem synthesized_cover_ignores_gap :
  Analyzer.min_gap Sample.default_rules = 3%Z
  /\ Sample.illustrate Sample.default_rules
       (Sample.ln (Py.lit "Intro") ++ Sample.ln (Py.lit "## Background")
        ++ replicate 101 (Parser.ch "x"))
     = Some [ (0%nat, Py.lit "cover"); (1%nat, Py.lit "section") ].
Proof. split; vm_compute; reflexivity. Qed.

(** C2 at a one-paragraph document with [max_images_per_article = 0]:
    one decision, the synthesized cover, is returned. *)
Theorem synthesized_cover_ignores_cap :
  Analyzer.max_images Sample.no_images = 0%Z
  /\ Sample.illustrate Sample.no_images (Py.lit "Intro")
     = Some [ (0%nat, Py.lit "cover") ].
Proof. split; vm_compute; reflexivity. Qed.

(** C7 at two documents without a level-1 heading.  Under the default
    rules a single paragraph of 150 characters receives the cover and
    then an atmospheric image, both at position 0.  With [h2_after:
    true], a level-2 heading whose text is one blank followed by a
    paragraph gives a cover at position 1 and then a section image at
    position 0. *)
Theorem synthesized_cover_breaks_order :
  Sample.illustrate Sample.default_rules (replicate 150 (Parser.ch "x"))
  = Some [ (0%nat, Py.lit "cover"); (0%nat, Py.lit "atmospheric") ]
  /\ Sample.illustrate Sample.h2_always
       (Sample.ln (Py.lit "##  ") ++ Py.lit "Intro")
     = Some [ (1%nat, Py.lit "cover"); (0%nat, Py.lit "section") ].
Proof. split; vm_compute; reflexivity. Qed.

(* ===================================================================== *)
(** ** Further properties of the document model and of the plan *)
(* ===================================================================== *)

Section Positions.
Import Py Parser.
Variable U : unicodedata.

(** Every element stands at the position it bears. *)
Let numbered (elems : list MarkdownElement) : Prop :=
  forall i e, elems !! i = Some e -> position e = i.

Lemma numbered_snoc elems e :
  numbered elems -> numbered (elems ++ [set_position (length elems) e]).
Proof.
  intros Hnum i e' Hi.
  destruct (decide (i < length elems)%nat) as [Hlt | Hge].
  - rewrite lookup_app_l in Hi by assumption. now apply Hnum.
  - rewrite lookup_app_r in Hi by lia.
    destruct (i - length elems)%nat as [|k] eqn:Hk; [|destruct k; discriminate].
    injection Hi as <-. simpl. lia.
Qed.

Lemma parse_loop_numbered fuel : forall lines i elems elems',
  parse_loop U fuel lines i elems = Some elems' ->
  numbered elems -> numbered elems'.
Proof.
  induction fuel as [|fuel IH]; intros lines i elems elems'; simpl.
  - case_bool_decide; [discriminate|]. now intros [= <-].
  - case_bool_decide; [|now intros [= <-]].
    destruct (_parse_line U lines i) as [[[e|] n]|]; [| |discriminate].
    + intros Hloop Hnum. apply (IH _ _ _ _ Hloop). now apply numbered_snoc.
    + intros Hloop Hnum. now apply (IH _ _ _ _ Hloop).
Qed.

(** X6. Document model: in the document [parse] returns, the [position]
    of every element is its index in the element sequence, so positions
    are unique and increase in document order. *)
Theorem parsed_positions_are_indices text doc i e :
  parse U text = Some doc ->
  elements doc !! i = Some e ->
  position e = i.
Proof.
  unfold parse.
  destruct (parse_loop U _ _ 0 []) as [elems|] eqn:Hloop; [|discriminate].
  intros [= <-]. simpl.
  apply (parse_loop_numbered _ _ _ _ _ Hloop). intros j e' Hj. discriminate.
Qed.
End Positions.

(** X6 at the second element of a document of two headings. *)
Lemma parsed_positions_are_indices_witness :
  Parser.position (Parser.set_position 1
                     (Parser.new_element Parser.HEADING (Py.lit "One") 2
                        (Py.lit "## One"))) = 1%nat.
Proof.
  apply (parsed_positions_are_indices Py.caseless
           (Sample.ln (Py.lit "# Title") ++ Py.lit "## One")
           {| Parser.elements :=
                [ Parser.set_position 0
                    (Parser.new_element Parser.HEADING (Py.lit "Title") 1
                       (Py.lit "# Title"));
                  Parser.set_position 1
                    (Parser.new_element Parser.HEADING (Py.lit "One") 2
                       (Py.lit "## One")) ];
              Parser.title := Py.lit "Title";
              Parser.theme := []; Parser.keywords := [] |}).
  - vm_compute. reflexivity.
  - reflexivity.
Defined.

Section FirstRun.
Import Py Regenerate.

Lemma plan_loop_first_run todo : forall plan,
  plan_loop [] [] todo plan
  = Some {| keep := keep plan; regenerate := regenerate plan;
            missing := missing plan
                       ++ List.map (fun '(i, d) => slot_of i d) todo |}.
Proof.
  induction todo as [|[i d] todo IH]; intros plan; simpl.
  - rewrite app_nil_r. now destruct plan.
  - rewrite IH. simpl. now rewrite <- app_assoc.
Qed.

(** X7. A file that does not exist and no selector: every decision is
    [missing], in order, and nothing is kept or regenerated, which is a
    first run. *)
Theorem first_run_plan_is_all_missing (U : unicodedata)
    (decisions : list Analyzer.ImageDecision) :
  parse_for_regeneration U None decisions None None false
  = Some {| keep := []; regenerate := [];
            missing := List.map (fun '(i, d) => slot_of i d)
                                (imap pair decisions) |}.
Proof.
  unfold parse_for_regeneration, create_regenerate_plan. simpl.
  now rewrite plan_loop_first_run.
Qed.
End FirstRun.

Section SynthesizedCover.
Import Py Parser Analyzer.

Variable self_image_source : str.
Variable rules : Rules.
Variable ab_test : ABTest.
Variable _generate_prompt :
  MarkdownElement -> list MarkdownElement -> str -> str -> str.

Lemma title_element_found elems title_index el :
  title_element elems = Some (title_index, el) ->
  elems !! title_index = Some el /\ strip (content el) <> [].
Proof.
  unfold title_element. intros Hfind.
  apply find_some in Hfind as [Hin Hblank].
  apply list_elem_of_In, elem_of_lookup_imap_1 in Hin
    as (i & e & [= -> ->] & Hi).
  split; [assumption|].
  apply negb_true_iff, bool_decide_eq_false in Hblank. exact Hblank.
Qed.

(** The first element whose content is not blank is the one the loop
    over [enumerate(doc.elements)] breaks at. *)
Lemma title_element_first elems title_index el :
  elems !! title_index = Some el ->
  strip (content el) <> [] ->
  (forall j e, (j < title_index)%nat -> elems !! j = Some e ->
               strip (content e) = []) ->
  title_element elems = Some (title_index, el).
Proof.
  intros Hel Hfull Hbefore. unfold title_element.
  destruct (find_defined
              (fun '(_, e) => negb (bool_decide (strip (content e) = [])))
              (imap pair elems)) as [[j e] Hfind].
  { apply existsb_exists. exists (title_index, el). split.
    - apply list_elem_of_In, elem_of_lookup_imap. eauto.
    - now rewrite bool_decide_eq_false_2. }
  rewrite Hfind. destruct (find_first _ _ _ Hfind) as (k & Hk & Hp & Hfirst).
  rewrite list_lookup_imap in Hk.
  destruct (elems !! k) as [e'|] eqn:He'; [|discriminate].
  injection Hk as <- <-.
  apply negb_true_iff, bool_decide_eq_false in Hp.
  destruct (Nat.lt_trichotomy k title_index) as [Hlt | [-> | Hgt]].
  - now specialize (Hbefore k e' Hlt He').
  - congruence.
  - specialize (Hfirst title_index (title_index, el) Hgt).
    rewrite list_lookup_imap, Hel in Hfirst. specialize (Hfirst eq_refl).
    cbv beta iota in Hfirst.
    apply negb_false_iff, bool_decide_eq_true in Hfirst. contradiction.
Qed.

(** X8. A document without a level-1 heading, with [h1_after] on: the
    first decision [analyze] returns is a cover attached to the first
    element whose content is not blank, that is, to the element at
    [title_index] when its content is not blank and the content of
    every element before it is. *)
Theorem cover_stands_in_for_missing_title doc_type elems title_index el :
  has_h1 elems = false ->
  default true (h1_after rules) = true ->
  elems !! title_index = Some el ->
  strip (content el) <> [] ->
  (forall j e, (j < title_index)%nat -> elems !! j = Some e ->
               strip (content e) = []) ->
  exists cover rest,
    analyze self_image_source rules ab_test _generate_prompt doc_type elems
    = cover :: rest
    /\ element_index cover = title_index
    /\ image_type cover = lit "cover"
    /\ need_image cover = true
    /\ image_source cover = Some self_image_source.
Proof.
  intros Hh1 Hafter Hel Hfull Hbefore.
  pose proof (title_element_first _ _ _ Hel Hfull Hbefore) as Htitle.
  unfold analyze, analyze_state.
  destruct (scan_appends self_image_source rules ab_test _generate_prompt
              doc_type (length elems) 0%nat
              (before_scan self_image_source rules _generate_prompt
                 doc_type elems)) as (new & -> & _).
  unfold before_scan. rewrite Hh1, Hafter, Htitle. cbn [negb andb decisions app].
  eexists _, _. split; [reflexivity|]. cbn. auto.
Qed.
End SynthesizedCover.

(** X8 at [Sample.blank_heading_then_intro]: the heading at position 0
    has a blank content, the cover goes to the paragraph at
    position 1. *)
Lemma cover_stands_in_for_missing_title_witness :
  exists cover rest,
    Analyzer.analyze (Py.lit "zhipu") Sample.default_rules Sample.no_ab_test
      Sample.content_as_prompt (Py.lit "normal")
      Sample.blank_heading_then_intro
    = cover :: rest
    /\ Analyzer.element_index cover = 1%nat
    /\ Analyzer.image_type cover = Py.lit "cover"
    /\ Analyzer.need_image cover = true
    /\ Analyzer.image_source cover = Some (Py.lit "zhipu").
Proof.
  apply (cover_stands_in_for_missing_title (Py.lit "zhipu") Sample.default_rules
           Sample.no_ab_test Sample.content_as_prompt (Py.lit "normal")
           Sample.blank_heading_then_intro 1
           (Parser.set_position 1
              (Parser.new_element Parser.PARAGRAPH (Py.lit "Intro") 0
                 (Py.lit "Intro")))).
  - reflexivity.
  - reflexivity.
  - reflexivity.
  - vm_compute. discriminate.
  - intros [|j] e Hj He; [|lia].
    vm_compute in He. injection He as <-. reflexivity.
Defined.

(* ===================================================================== *)
(** ** What [analyze] does to the document *)
(* ===================================================================== *)

Section RunFacts.
Import Py Parser Analyzer Run.
#[local] Open Scope Z_scope.

Variable self_image_source : str.
Variable rules : Rules.
Variable ab_test : ABTest.
Variable _generate_prompt :
  MarkdownElement -> list MarkdownElement -> str -> str -> str.

#[local] Abbreviation accepts_ := (accepts self_image_source rules ab_test _generate_prompt).
#[local] Abbreviation scan_ := (scan self_image_source rules ab_test _generate_prompt).
#[local] Abbreviation before_scan_ := (before_scan self_image_source rules _generate_prompt).
#[local] Abbreviation analyze_state_ :=
  (analyze_state self_image_source rules ab_test _generate_prompt).
#[local] Abbreviation analyze_element_ :=
  (_analyze_element self_image_source rules _generate_prompt).

Lemma accepts_from doc_type lo lo' st st' :
  (lo' <= lo)%nat -> accepts_ doc_type lo st st' -> accepts_ doc_type lo' st st'.
Proof.
  intros Hle Hrun. destruct Hrun as [lo st | lo i st st' element decision].
  - constructor.
  - apply (accepts_one _ _ _ _ _ lo' i st st' element decision); auto. lia.
Qed.

(** The scan over the positions [i, ..., i+n-1] is a run from [i]. *)
Lemma scan_is_run doc_type n : forall i st,
  accepts_ doc_type i st (scan_ doc_type (seq i n) st).
Proof.
  induction n as [|n IH]; intros i st; [constructor|].
  assert (Hskip : accepts_ doc_type i st (scan_ doc_type (seq (S i) n) st))
    by (apply (accepts_from _ (S i)); [lia | apply IH]).
  cbn [seq scan].
  destruct (max_images rules <=? image_count st) eqn:Hcap; [constructor|].
  destruct (Z.of_nat i - last_image_index st <? min_gap rules) eqn:Hgap;
    [exact Hskip|].
  destruct (doc_elements st !! i) as [element|] eqn:Hel; [|constructor].
  destruct (analyze_element_ element (doc_elements st) doc_type i)
    as [d|] eqn:Hd; [|exact Hskip].
  destruct (analyze_element_position _ _ _ _ _ _ _ _ Hd) as [_ Hneed].
  rewrite Hneed.
  apply (accepts_one _ _ _ _ _ i i st _ element d);
    [lia | now apply Z.leb_gt | now apply Z.ltb_ge | exact Hel | exact Hd |].
  apply IH.
Qed.

Lemma analyze_is_run doc_type elems :
  accepts_ doc_type 0 (before_scan_ doc_type elems)
    (analyze_state_ doc_type elems).
Proof. apply scan_is_run. Qed.

(** An induction principle for what holds of every state the scan
    reaches: it holds before, and every acceptance keeps it. *)
Lemma run_invariant (Inv : State -> Prop) doc_type lo st st' :
  accepts_ doc_type lo st st' ->
  (forall st i element decision,
      Inv st ->
      doc_elements st !! i = Some element ->
      analyze_element_ element (doc_elements st) doc_type i = Some decision ->
      Inv (accept st i element (with_variants ab_test decision))) ->
  Inv st -> Inv st'.
Proof.
  intros Hrun Hstep. induction Hrun as [|lo i st st' element decision
    _ _ _ Hel Hd _ IH]; [auto|].
  intros Hst. apply IH. now apply (Hstep st i element decision).
Qed.

(** Annotating an element in place leaves the structure of the
    sequence as it is. *)
Lemma annotate_structure elems i el ty p :
  elems !! i = Some el ->
  List.map structure (<[i := annotate ty p el]> elems) = List.map structure elems.
Proof.
  intros Hel. apply list_eq. intros j.
  change (List.map structure ?l) with (structure <$> l).
  rewrite !list_lookup_fmap.
  destruct (decide (i = j)) as [<- | Hne].
  - rewrite list_lookup_insert_eq by (now apply lookup_lt_Some in Hel).
    now rewrite Hel.
  - now rewrite list_lookup_insert_ne.
Qed.

Lemma before_scan_structure doc_type elems :
  List.map structure (doc_elements (before_scan_ doc_type elems))
  = List.map structure elems.
Proof.
  unfold before_scan.
  destruct (negb (has_h1 elems) && default true (h1_after rules));
    [|reflexivity].
  destruct (title_element elems) as [[title_index el]|] eqn:Htitle;
    [|reflexivity].
  cbn [doc_elements]. apply annotate_structure.
  now apply title_element_found in Htitle as [Hel _].
Qed.

(** X9. Elements are only annotated.  Whatever the rules, [analyze]
    leaves the document with the same elements in the same order: their
    type, content, level, position, raw line, word count and line count
    are what they were. *)
Theorem analyze_only_annotates doc_type elems :
  List.map structure (doc_elements (analyze_state_ doc_type elems))
  = List.map structure elems.
Proof.
  rewrite <- (before_scan_structure doc_type elems).
  apply (run_invariant
           (fun st => List.map structure (doc_elements st)
                      = List.map structure
                          (doc_elements (before_scan_ doc_type elems)))
           doc_type 0%nat _ _ (analyze_is_run doc_type elems));
    [|reflexivity].
  intros st i element decision Hst Hel _. cbn [accept doc_elements].
  now rewrite annotate_structure.
Qed.

Lemma is_type_heading el :
  is_type (lit "heading") el = true <-> type el = HEADING.
Proof.
  unfold is_type. destruct (type el); vm_compute; split; congruence.
Qed.

Lemma is_type_paragraph el :
  is_type (lit "paragraph") el = true <-> type el = PARAGRAPH.
Proof.
  unfold is_type. destruct (type el); vm_compute; split; congruence.
Qed.

Lemma section_words_structure l : forall l' total_words,
  List.map structure l = List.map structure l' ->
  section_words l total_words = section_words l' total_words.
Proof.
  induction l as [|e l IH]; intros [|e' l'] total_words Hmap;
    try discriminate; [reflexivity|].
  injection Hmap as Hty _ _ _ _ Hwc _ Hl. cbn [section_words]. unfold is_type.
  rewrite Hty, Hwc.
  destruct (str_eqb (value (type e')) (lit "heading")); [reflexivity|].
  destruct (100 <? _); [reflexivity|]. now apply IH.
Qed.

Lemma h2_allows_structure elems elems' i :
  List.map structure elems' = List.map structure elems ->
  match default H2_smart (h2_after rules) with
  | H2_true => true
  | H2_smart => _should_add_section_image elems' i
  | H2_other => false
  end = h2_allows rules elems i.
Proof.
  intros Hmap. unfold h2_allows, _should_add_section_image.
  destruct (default H2_smart (h2_after rules)); try reflexivity.
  apply section_words_structure.
  change (List.map structure ?l) with (structure <$> l) in *.
  now rewrite !fmap_drop, Hmap.
Qed.

Lemma with_variants_fields d :
  element_index (with_variants ab_test d) = element_index d
  /\ Analyzer.need_image (with_variants ab_test d) = Analyzer.need_image d
  /\ Analyzer.image_type (with_variants ab_test d) = Analyzer.image_type d
  /\ prompt (with_variants ab_test d) = prompt d
  /\ image_source (with_variants ab_test d) = image_source d.
Proof. unfold with_variants. now destruct (_ && _). Qed.

(** A decision of [_analyze_element], taken on a document that was only
    annotated since, is entitled to its place in the document as it
    was. *)
Lemma analyze_element_by_rule elems elems' element el doc_type i d :
  List.map structure elems' = List.map structure elems ->
  elems !! i = Some el ->
  structure el = structure element ->
  analyze_element_ element elems' doc_type i = Some d ->
  by_rule self_image_source rules elems doc_type d.
Proof.
  intros Hmap Hel Hst. unfold _analyze_element.
  rewrite (h2_allows_structure elems elems' i Hmap).
  unfold structure in Hst. injection Hst as Hty Hco Hlv _ _ Hwc _.
  assert (Hh : is_type (lit "heading") element = is_type (lit "heading") el)
    by (unfold is_type; now rewrite Hty).
  assert (Hp : is_type (lit "paragraph") element = is_type (lit "paragraph") el)
    by (unfold is_type; now rewrite Hty).
  rewrite Hh, Hp, <- Hlv, <- Hwc.
  destruct (is_type (lit "heading") el && (level el =? 1)%nat
            && default true (h1_after rules)) eqn:H1.
  { intros [= <-]. exists el. unfold _create_cover_decision. cbn [element_index Analyzer.need_image Analyzer.image_type image_source].
    apply andb_true_iff in H1 as [H1 Hafter].
    apply andb_true_iff in H1 as [Hhead Hlevel].
    apply is_type_heading in Hhead. apply Nat.eqb_eq in Hlevel.
    do 3 (split; [auto|]). left. auto. }
  destruct (is_type (lit "heading") el && (level el =? 2)%nat
            && h2_allows rules elems i) eqn:H2.
  { intros [= <-]. exists el. unfold _create_section_decision. cbn [element_index Analyzer.need_image Analyzer.image_type image_source].
    apply andb_true_iff in H2 as [H2 Hallow].
    apply andb_true_iff in H2 as [Hhead Hlevel].
    apply is_type_heading in Hhead. apply Nat.eqb_eq in Hlevel.
    rewrite <- Hco.
    do 3 (split; [auto|]). right. left. auto. }
  destruct (is_type (lit "paragraph") el
            && (default 150 (long_paragraph_threshold rules)
                <=? Z.of_nat (word_count el))) eqn:H3; [|discriminate].
  intros [= <-]. exists el. unfold _create_atmospheric_decision. cbn [element_index Analyzer.need_image Analyzer.image_type image_source].
  apply andb_true_iff in H3 as [Hpar Hlong].
  apply is_type_paragraph in Hpar. apply Z.leb_le in Hlong.
  do 3 (split; [auto|]). right. right. auto.
Qed.

Lemma before_scan_by_rule doc_type elems :
  Forall (by_rule self_image_source rules elems doc_type)
    (decisions (before_scan_ doc_type elems)).
Proof.
  unfold before_scan.
  destruct (has_h1 elems) eqn:Hh1; cbn [negb andb]; [constructor|].
  destruct (default true (h1_after rules)) eqn:Hafter; [|constructor].
  destruct (title_element elems) as [[title_index el]|] eqn:Htitle;
    [|constructor].
  apply title_element_found in Htitle as [Hel Hblank].
  cbn [decisions]. repeat constructor. exists el. cbn [element_index Analyzer.need_image Analyzer.image_type image_source].
  do 3 (split; [auto|]). left. auto.
Qed.

Lemma analyze_by_rule doc_type elems :
  Forall (by_rule self_image_source rules elems doc_type)
    (analyze self_image_source rules ab_test _generate_prompt doc_type elems).
Proof.
  unfold analyze.
  refine (proj2 (run_invariant
           (fun st => List.map structure (doc_elements st)
                      = List.map structure elems
                      /\ Forall (by_rule self_image_source rules elems doc_type)
                           (decisions st))
           doc_type 0%nat _ _ (analyze_is_run doc_type elems) _ _)).
  - intros st i element decision [Hmap Hall] Hel Hd. cbn [accept doc_elements decisions].
    split; [now rewrite annotate_structure|].
    apply Forall_app. split; [exact Hall|]. repeat constructor.
    assert (Hsome : (structure <$> elems) !! i = Some (structure element)).
    { change (List.map structure ?l) with (structure <$> l) in Hmap.
      now rewrite <- Hmap, list_lookup_fmap, Hel. }
    rewrite list_lookup_fmap in Hsome.
    destruct (elems !! i) as [el|] eqn:Hel0; [|discriminate].
    assert (Hst : structure el = structure element)
      by (cbn [fmap option_fmap option_map] in Hsome; congruence).
    clear Hsome.
    destruct (analyze_element_position _ _ _ _ _ _ _ _ Hd) as [Hpos _].
    destruct (analyze_element_by_rule elems (doc_elements st) element el
                doc_type i decision Hmap Hel0 Hst Hd)
      as (el' & Hel' & Hneed & Hsrc & Hkind).
    destruct (with_variants_fields decision) as (Hi & Hn & Hty & _ & Hs).
    exists el'. unfold by_rule. rewrite Hi, Hn, Hty, Hs. auto.
  - split; [apply before_scan_structure | apply before_scan_by_rule].
Qed.

(** X10. Every decision has a rule behind it.  Each decision [analyze]
    returns points at an element of the document, asks for an image,
    carries the image source [_determine_image_source] gives for its
    kind, and is of the kind of the rule that fired: a cover for a
    level-1 heading (or for the first element that is not blank when
    there is no level-1 heading), a section or concept image for a
    level-2 heading that [h2_after] allows, an atmospheric image for a
    paragraph of at least [long_paragraph_threshold] characters.  Code
    blocks, lists, quotes, tables, rules and deeper headings get an
    image only as the stand-in cover. *)
Theorem decisions_follow_rules doc_type elems :
  Forall (by_rule self_image_source rules elems doc_type)
    (analyze self_image_source rules ab_test _generate_prompt doc_type elems).
Proof. apply analyze_by_rule. Qed.

Lemma agree_accept ds elems i el d :
  agree ds elems ->
  elems !! i = Some el ->
  element_index d = i ->
  agree (ds ++ [d])
    (<[i := annotate (Analyzer.image_type d) (prompt d) el]> elems).
Proof.
  intros [Hds Hel] Hi Hd. pose proof (lookup_lt_Some _ _ _ Hi) as Hlt. split.
  - intros d' Hin.
    assert (Hidx : flagged elems (element_index d') \/ element_index d' = i).
    { apply elem_of_app in Hin as [Hin | Hin]; [left; now apply Hds|].
      apply list_elem_of_singleton in Hin as ->. now right. }
    unfold flagged.
    destruct (decide (element_index d' = i)) as [-> | Hne].
    + rewrite list_lookup_insert_eq by exact Hlt. eexists. split; reflexivity.
    + rewrite list_lookup_insert_ne by congruence.
      destruct Hidx as [Hfl | Heq]; [exact Hfl | congruence].
  - intros j e. destruct (decide (i = j)) as [<- | Hne].
    + rewrite list_lookup_insert_eq by exact Hlt. intros [= <-].
      cbn [annotate Parser.need_image Parser.image_type image_prompt].
      exists d. split; [apply elem_of_app; right; constructor | auto].
    + rewrite list_lookup_insert_ne by exact Hne. intros He.
      specialize (Hel j e He). destruct (Parser.need_image e); [|exact Hel].
      destruct Hel as (d' & Hin & Hrest). exists d'.
      split; [apply elem_of_app; now left | exact Hrest].
Qed.

Lemma agree_fresh elems : Forall fresh elems -> agree [] elems.
Proof.
  intros Hfresh. split; [intros d Hin; inversion Hin|].
  intros j e He. rewrite Forall_lookup in Hfresh.
  destruct (Hfresh j e He) as (-> & Hty & Hp). auto.
Qed.

Lemma analyze_agree doc_type elems :
  Forall fresh elems ->
  agree (decisions (analyze_state_ doc_type elems))
        (doc_elements (analyze_state_ doc_type elems)).
Proof.
  intros Hfresh.
  apply (run_invariant (fun st => agree (decisions st) (doc_elements st))
           doc_type 0%nat _ _ (analyze_is_run doc_type elems)).
  - intros st i element decision Hst Hel Hd. cbn [accept decisions doc_elements].
    destruct (with_variants_fields decision) as (Hi & _ & Hty & Hp & _).
    destruct (analyze_element_position _ _ _ _ _ _ _ _ Hd) as [Hpos _].
    apply (agree_accept _ _ i element (with_variants ab_test decision));
      [exact Hst | exact Hel | congruence].
  - unfold before_scan.
    destruct (negb (has_h1 elems) && default true (h1_after rules));
      [|now apply agree_fresh].
    destruct (title_element elems) as [[title_index el]|] eqn:Htitle;
      [|now apply agree_fresh].
    apply title_element_found in Htitle as [Hel _].
    cbn [decisions doc_elements].
    match goal with
    | |- agree [?d] _ => apply (agree_accept [] elems title_index el d)
    end; [now apply agree_fresh | exact Hel | reflexivity].
Qed.

(** X11. Annotations and decisions agree.  On a document whose
    elements bear no annotation yet (as [parse] returns them), after
    [analyze] the elements flagged [need_image] are exactly those some
    returned decision points at; a flagged element bears the image type
    and the prompt of such a decision, and an element that is not
    flagged bears neither. *)
Theorem annotations_match_decisions doc_type elems :
  Forall fresh elems ->
  agree (decisions (analyze_state_ doc_type elems))
        (doc_elements (analyze_state_ doc_type elems)).
Proof. apply analyze_agree. Qed.

Lemma before_scan_untouched doc_type elems :
  has_h1 elems = true \/ h1_after rules = Some false ->
  before_scan_ doc_type elems
  = {| decisions := []; last_image_index := - min_gap rules;
       image_count := 0; doc_elements := elems |}.
Proof.
  unfold before_scan. intros [-> | ->]; [reflexivity|].
  now rewrite andb_false_r.
Qed.

Section FirstEligible.
Variable doc_type : str.
Variable elems : list MarkdownElement.
Variable p : nat.
Variable el : MarkdownElement.
Variable d : ImageDecision.
Hypothesis Hcap : 0 < max_images rules.
Hypothesis Hel : elems !! p = Some el.
Hypothesis Hd : analyze_element_ el elems doc_type p = Some d.
Hypothesis Hnone : forall j e,
  (j < p)%nat -> elems !! j = Some e ->
  analyze_element_ e elems doc_type j = None.

Lemma scan_reaches_first k : forall i n,
  (i + k = p)%nat -> (p < i + n)%nat ->
  exists rest,
    decisions (scan_ doc_type (seq i n)
                 {| decisions := []; last_image_index := - min_gap rules;
                    image_count := 0; doc_elements := elems |})
    = with_variants ab_test d :: rest.
Proof.
  induction k as [|k IH]; intros i n Hik Hn;
    (destruct n as [|n]; [lia|]); cbn [seq scan];
    cbn [decisions last_image_index image_count doc_elements];
    (replace (max_images rules <=? 0) with false by (symmetry; apply Z.leb_gt; lia));
    (replace (Z.of_nat i - - min_gap rules <? min_gap rules) with false
       by (symmetry; apply Z.ltb_ge; lia)).
  - replace i with p by lia. rewrite Hel, Hd.
    destruct (analyze_element_position _ _ _ _ _ _ _ _ Hd) as [_ ->].
    match goal with
    | |- context [scan _ _ _ _ _ _ ?st1] =>
        destruct (scan_appends self_image_source rules ab_test
                    _generate_prompt doc_type n (S p) st1) as (new & -> & _)
    end.
    cbn [decisions app]. eauto.
  - destruct (elems !! i) as [e|] eqn:He.
    + rewrite (Hnone i e ltac:(lia) He). apply (IH (S i) n); lia.
    + apply lookup_ge_None in He. apply lookup_lt_Some in Hel. lia.
Qed.
End FirstEligible.

(** X12. The first eligible element is never blocked.  When no cover is
    synthesized and the cap is at least one, the first element for
    which a rule fires gets the first decision, whatever the gap: the
    gap is counted from [-min_gap], so that even position 0 is far
    enough from it. *)
Theorem first_eligible_element_is_accepted doc_type elems p el d :
  has_h1 elems = true \/ h1_after rules = Some false ->
  0 < max_images rules ->
  elems !! p = Some el ->
  analyze_element_ el elems doc_type p = Some d ->
  (forall j e, (j < p)%nat -> elems !! j = Some e ->
               analyze_element_ e elems doc_type j = None) ->
  exists rest,
    analyze self_image_source rules ab_test _generate_prompt doc_type elems
    = with_variants ab_test d :: rest.
Proof.
  intros Hscan Hcap Hel Hd Hnone. unfold analyze, analyze_state.
  rewrite (before_scan_untouched doc_type elems Hscan).
  apply (scan_reaches_first doc_type elems p el d Hcap Hel Hd Hnone p 0%nat);
    [lia | apply lookup_lt_Some in Hel; lia].
Qed.

(** X13. A/B variants of the decisions.  When no cover is synthesized,
    every decision carries variants exactly when the A/B test is
    enabled and has variations, and they are generated from the
    decision's own prompt. *)
Theorem scan_decisions_carry_variants doc_type elems :
  has_h1 elems = true \/ h1_after rules = Some false ->
  Forall (fun d =>
            ab_variants d
            = if enabled ab_test && negb (bool_decide (variations ab_test = []))
              then Some (_generate_ab_variants (prompt d) (variations ab_test)
                           (test_size ab_test))
              else None)
    (analyze self_image_source rules ab_test _generate_prompt doc_type elems).
Proof.
  intros Hscan. unfold analyze.
  apply (run_invariant
           (fun st => Forall _ (decisions st))
           doc_type 0%nat _ _ (analyze_is_run doc_type elems)).
  - intros st i element decision Hall _ Hd. cbn [accept decisions].
    apply Forall_app. split; [exact Hall|]. repeat constructor.
    assert (Hnone : ab_variants decision = None).
    { revert Hd. unfold _analyze_element.
      repeat match goal with
             | |- context [if ?b then _ else _] => destruct b
             end; intros [= <-]; reflexivity. }
    unfold with_variants. now destruct (_ && _).
  - rewrite (before_scan_untouched doc_type elems Hscan). constructor.
Qed.
End RunFacts.

Section Variants.
Import Py Parser Analyzer.
#[local] Open Scope Z_scope.

Lemma imap_pair_lookup {A} (l : list A) k :
  imap pair l !! k = pair k <$> l !! k.
Proof. apply list_lookup_imap. Qed.

(** X14. [_generate_ab_variants] returns [min(test_size, len(variations))]
    variants, none when that is negative; the k-th variant is made from
    the k-th variation: its prompt is the base prompt followed by the
    variation's suffix (nothing when absent), its name the variation's
    name or [variant_k]. *)
Theorem ab_variants_follow_variations base_prompt variations test_size :
  let variants := _generate_ab_variants base_prompt variations test_size in
  Z.of_nat (length variants)
  = Z.max 0 (Z.min test_size (Z.of_nat (length variations)))
  /\ forall k variant,
       variants !! k = Some variant ->
       exists variation,
         variations !! k = Some variation
         /\ variant_prompt variant
            = base_prompt ++ default [] (var_prompt_suffix variation)
         /\ name variant
            = default (lit "variant_" ++ str_of_nat k) (var_name variation).
Proof.
  intros variants. subst variants. unfold _generate_ab_variants. split.
  - rewrite length_map, length_take, length_imap. lia.
  - intros k variant.
    change (List.map ?f ?l) with (f <$> l).
    rewrite list_lookup_fmap. intros Hk.
    destruct (take _ _ !! k) as [[i variation]|] eqn:Htake; [|discriminate].
    injection Hk as <-.
    apply lookup_take_Some in Htake as [Hlook _].
    rewrite imap_pair_lookup in Hlook.
    destruct (variations !! k) as [v|] eqn:Hv; [|discriminate].
    injection Hlook as <- <-. exists v. auto.
Qed.
End Variants.

(** X11 at [Sample.titled_document]. *)
Lemma annotations_match_decisions_witness :
  Run.agree
    (Analyzer.decisions
       (Analyzer.analyze_state (Py.lit "zhipu") Sample.h2_always
          Sample.no_ab_test Sample.content_as_prompt (Py.lit "normal")
          Sample.titled_document))
    (Analyzer.doc_elements
       (Analyzer.analyze_state (Py.lit "zhipu") Sample.h2_always
          Sample.no_ab_test Sample.content_as_prompt (Py.lit "normal")
          Sample.titled_document)).
Proof.
  apply (annotations_match_decisions (Py.lit "zhipu") Sample.h2_always
           Sample.no_ab_test Sample.content_as_prompt (Py.lit "normal")
           Sample.titled_document).
  vm_compute. repeat constructor.
Defined.

(** X12 at [Sample.late_title]: the paragraph at position 0 is too
    short for an image, the heading at position 1 gets the first one. *)
Lemma first_eligible_element_is_accepted_witness :
  exists rest,
    Analyzer.analyze (Py.lit "zhipu") Sample.default_rules
      Sample.two_variations Sample.content_as_prompt (Py.lit "normal")
      Sample.late_title
    = Analyzer.with_variants Sample.two_variations
        (Analyzer._create_cover_decision (Py.lit "zhipu")
           Sample.content_as_prompt Sample.late_title_heading
           Sample.late_title (Py.lit "normal") 1)
      :: rest.
Proof.
  apply (first_eligible_element_is_accepted (Py.lit "zhipu")
           Sample.default_rules Sample.two_variations Sample.content_as_prompt
           (Py.lit "normal") Sample.late_title 1 Sample.late_title_heading).
  - left. vm_compute. reflexivity.
  - vm_compute. reflexivity.
  - vm_compute. reflexivity.
  - vm_compute. reflexivity.
  - intros [|j] e Hj He; [|lia].
    vm_compute in He. injection He as <-. vm_compute. reflexivity.
Defined.

(** X13 at [Sample.late_title], with two variations. *)
Lemma scan_decisions_carry_variants_witness :
  Forall (fun d =>
            Analyzer.ab_variants d
            = if Analyzer.enabled Sample.two_variations
                 && negb (bool_decide
                            (Analyzer.variations Sample.two_variations = []))
              then Some (Analyzer._generate_ab_variants (Analyzer.prompt d)
                           (Analyzer.variations Sample.two_variations)
                           (Analyzer.test_size Sample.two_variations))
              else None)
    (Analyzer.analyze (Py.lit "zhipu") Sample.default_rules
       Sample.two_variations Sample.content_as_prompt (Py.lit "normal")
       Sample.late_title).
Proof.
  apply (scan_decisions_carry_variants (Py.lit "zhipu") Sample.default_rules
           Sample.two_variations Sample.content_as_prompt (Py.lit "normal")
           Sample.late_title).
  left. vm_compute. reflexivity.
Defined.

(* ===================================================================== *)
(** ** The elements of a parsed document *)
(* ===================================================================== *)

Section Bounded.
Import Py Re.
Context {A : Type}.

Lemma at_most_matched (P : N -> bool) hi : forall s acc (k : str -> str -> option A) v,
  at_most P hi acc s k = Some v ->
  exists s1 s2, s = s1 ++ s2 /\ forallb P s1 = true
                /\ (length s1 <= hi)%nat /\ k (acc ++ s1) s2 = Some v.
Proof.
  induction hi as [|hi IH]; intros s acc k v H.
  - exists [], s. rewrite (app_nil_r acc).
    destruct s; simpl in *; repeat split; auto.
  - destruct s as [|c s].
    { exists [], []. rewrite (app_nil_r acc). simpl in *. repeat split; auto. lia. }
    simpl in H.
    assert (Hstop : k acc (c :: s) = Some v ->
              exists s1 s2, c :: s = s1 ++ s2 /\ forallb P s1 = true
                            /\ (length s1 <= S hi)%nat
                            /\ k (acc ++ s1) s2 = Some v).
    { intros Hk. exists [], (c :: s). rewrite (app_nil_r acc). simpl.
      repeat split; auto. lia. }
    destruct (P c) eqn:Hc; [|auto].
    destruct (at_most P hi (acc ++ [c]) s k) as [r|] eqn:Hmore; [|auto].
    simpl in H. injection H as ->.
    destruct (IH _ _ _ _ Hmore) as (s1 & s2 & -> & Hall & Hlen & Hk).
    exists (c :: s1), s2. simpl. rewrite Hc, Hall.
    rewrite <- app_assoc in Hk. repeat split; auto. lia.
Qed.

Lemma between_matched (P : N -> bool) lo : forall hi s acc (k : str -> str -> option A) v,
  between P lo hi acc s k = Some v ->
  exists s1 s2, s = s1 ++ s2 /\ forallb P s1 = true
                /\ (lo <= length s1 <= lo + (hi - lo))%nat
                /\ k (acc ++ s1) s2 = Some v.
Proof.
  induction lo as [|lo IH]; intros hi s acc k v H; simpl in H.
  - destruct (at_most_matched _ _ _ _ _ _ H) as (s1 & s2 & ? & ? & ? & ?).
    exists s1, s2. repeat split; auto; lia.
  - destruct s as [|c s]; [discriminate|].
    destruct (P c) eqn:Hc; [|discriminate].
    destruct (IH _ _ _ _ _ H) as (s1 & s2 & -> & Hall & Hlen & Hk).
    exists (c :: s1), s2. simpl. rewrite Hc, Hall.
    rewrite <- app_assoc in Hk. repeat split; auto; lia.
Qed.
End Bounded.

Section WellFormed.
Import Py Re Parser Document.
Variable U : unicodedata.

Lemma dot_no_newline s : forallb dot s = true -> NL ∉ s.
Proof.
  induction s as [|c s IH]; simpl; [intros _ H; inversion H|].
  intros Hall. apply andb_prop in Hall as [Hc Hs].
  intros Hin. apply elem_of_cons in Hin as [<- | Hin]; [discriminate|].
  now apply IH.
Qed.

(** What a line that matches [HEADING_PATTERN] is made of. *)
Lemma HEADING_PATTERN_matched line hashes body :
  HEADING_PATTERN line = Some (hashes, body) ->
  (1 <= length hashes <= 6)%nat /\ body <> [] /\ (NL ∉ body)
  /\ hashes = replicate (length hashes) (ch "#")
  /\ exists blanks tail,
       line = hashes ++ blanks ++ body ++ tail
       /\ blanks <> [] /\ forallb isspace blanks = true.
Proof.
  unfold HEADING_PATTERN. intros H.
  apply between_matched in H as (h & s1 & -> & Hh & Hlen & H).
  apply at_least_matched in H as (b & s2 & -> & Hb & Hblen & H).
  apply at_least_matched in H as (t & s3 & -> & Ht & Htlen & H).
  unfold at_end in H. destruct (dollar s3); [|discriminate].
  cbn [app] in H. injection H as <- <-.
  split; [lia|]. split; [now destruct t|].
  split; [now apply dot_no_newline|].
  split; [now apply only_all|].
  exists b, s3. split; [reflexivity|]. split; [now destruct b | exact Hb].
Qed.

Lemma not_blank_has_word line :
  matched (EMPTY_PATTERN line) = false ->
  existsb (fun c => negb (isspace c)) line = true.
Proof.
  intros He. destruct (existsb _ line) eqn:Hex; [reflexivity|].
  assert (Hall : forallb isspace line = true).
  { apply forallb_forall. intros c Hc.
    destruct (isspace c) eqn:Hs; [reflexivity|].
    assert (existsb (fun c => negb (isspace c)) line = true)
      by (apply existsb_exists; exists c; now rewrite Hs).
    congruence. }
  unfold EMPTY_PATTERN in He.
  rewrite (star_takes_all isspace line [] _ tt Hall) in He; [discriminate|].
  reflexivity.
Qed.

Lemma join_starts sep p rest : exists tail, join sep (p :: rest) = p ++ tail.
Proof.
  destruct rest as [|q rest]; [exists []; simpl; now rewrite app_nil_r|].
  eexists. reflexivity.
Qed.

Lemma has_word_counted line tail :
  existsb (fun c => negb (isspace c)) line = true ->
  (1 <= length (remove_spaces (line ++ tail)))%nat.
Proof.
  unfold remove_spaces. induction line as [|c line IH]; simpl; [discriminate|].
  destruct (isspace c); simpl; [exact IH | lia].
Qed.

Lemma new_element_fresh t c lv raw : Run.fresh (new_element t c lv raw).
Proof. repeat split. Qed.

(** Every element [_parse_line] builds is well formed and bears no
    annotation. *)
Ltac wf :=
  unfold well_formed, _parse_code_block, _parse_quote, _parse_list,
    _parse_table;
  cbn [fst new_element type content level word_count line_count];
  repeat split; auto; try discriminate; try lia.

Lemma _parse_line_well_formed lines index e n :
  _parse_line U lines index = Some (Some e, n) ->
  well_formed e /\ Run.fresh e.
Proof.
  unfold _parse_line.
  destruct (lines !! index) as [line|] eqn:Hline; [|discriminate].
  destruct (matched (EMPTY_PATTERN line)) eqn:He; [discriminate|].
  destruct (HEADING_PATTERN line) as [[hashes body]|] eqn:Hh.
  { intros [= <- <-]. split; [|apply new_element_fresh].
    destruct (HEADING_PATTERN_matched _ _ _ Hh) as (Hlen & Hbody & Hnl & _).
    wf. }
  destruct (matched (CODE_BLOCK_PATTERN U line)) eqn:Hc.
  { intros [= <- <-]. split; [|apply new_element_fresh].
    wf. }
  destruct (matched (QUOTE_PATTERN line)) eqn:Hq.
  { intros [= <- <-]. split; [|apply new_element_fresh].
    wf. }
  destruct (matched (LIST_PATTERN U line)) eqn:Hl.
  { intros [= <- <-]. split; [|apply new_element_fresh].
    wf. }
  destruct (matched (TABLE_PATTERN line)) eqn:Ht.
  { intros [= <- <-]. split; [|apply new_element_fresh].
    wf. }
  destruct (matched (HR_PATTERN line)) eqn:Hr.
  { intros [= <- <-]. split; [|apply new_element_fresh].
    wf. }
  intros [= <- <-]. split; [|apply new_element_fresh].
  unfold _parse_paragraph. rewrite (drop_S _ _ _ Hline).
  rewrite collect_cons
    by (now rewrite (plain_line_continues U line He
                       ltac:(now rewrite Hh) Hc Hq Hl Hr)).
  destruct (join_starts (lit " ") line
              (collect (fun l => negb (ends_paragraph U l))
                 (drop (S index) lines))) as [tail Htail].
  unfold well_formed.
  cbn [fst new_element type content level word_count line_count].
  rewrite Htail.
  repeat split; auto.
  apply has_word_counted. now apply not_blank_has_word.
Qed.

Lemma set_position_well_formed p e :
  well_formed e /\ Run.fresh e ->
  well_formed (set_position p e) /\ Run.fresh (set_position p e).
Proof. intros H. exact H. Qed.

Lemma parse_loop_well_formed fuel : forall lines i elems elems',
  parse_loop U fuel lines i elems = Some elems' ->
  Forall (fun e => well_formed e /\ Run.fresh e) elems ->
  Forall (fun e => well_formed e /\ Run.fresh e) elems'.
Proof.
  induction fuel as [|fuel IH]; intros lines i elems elems'; simpl.
  - case_bool_decide; [discriminate|]. now intros [= <-].
  - case_bool_decide; [|now intros [= <-]].
    destruct (_parse_line U lines i) as [[[e|] n]|] eqn:Hline; [| |discriminate].
    + intros Hloop Hall. apply (IH _ _ _ _ Hloop).
      apply Forall_app. split; [exact Hall|]. repeat constructor;
        apply (set_position_well_formed _ _ (_parse_line_well_formed _ _ _ _ Hline)).
    + intros Hloop Hall. now apply (IH _ _ _ _ Hloop).
Qed.

(** X15. [parse] returns a document for every text, and every element
    of it is well formed and bears no annotation: it is not of the
    kind [EMPTY]; its word count is the number of characters of its
    content that are not whitespace; a heading has a level from 1 to 6
    and a content that is not empty and holds no newline; every other
    element has level 0; a paragraph holds at least one character that
    is not whitespace; [need_image] is off and the image type and
    prompt are unset. *)
Theorem parsed_elements_are_well_formed text :
  exists doc,
    parse U text = Some doc
    /\ Forall (fun e => well_formed e /\ Run.fresh e) (elements doc).
Proof.
  unfold parse.
  destruct (parse_loop_returns U (length (split NL text)) (split NL text)
              0 [] ltac:(lia)) as [elems Hloop].
  rewrite Hloop. eexists. split; [reflexivity|]. cbn [elements].
  apply (parse_loop_well_formed _ _ _ _ _ Hloop). constructor.
Qed.
End WellFormed.

(* ===================================================================== *)
(** ** Fenced code *)
(* ===================================================================== *)

Section SplitJoin.
Import Py.

Lemma split_line d l rest :
  d ∉ l -> split d (l ++ d :: rest) = l :: split d rest.
Proof.
  induction l as [|c l IH]; intros Hd; cbn [app split].
  - now rewrite N.eqb_refl.
  - apply not_elem_of_cons in Hd as [Hc Hl].
    destruct (N.eqb_spec c d) as [-> | _]; [congruence|].
    now rewrite (IH Hl).
Qed.

Lemma split_last d l : d ∉ l -> split d l = [l].
Proof.
  induction l as [|c l IH]; intros Hd; cbn [split]; [reflexivity|].
  apply not_elem_of_cons in Hd as [Hc Hl].
  destruct (N.eqb_spec c d) as [-> | _]; [congruence|].
  now rewrite (IH Hl).
Qed.

(** Splitting at newlines undoes joining with newlines, for lines that
    hold none. *)
Lemma split_join lines :
  lines <> [] -> Forall (fun l => NL ∉ l) lines ->
  split NL (join [NL] lines) = lines.
Proof.
  induction lines as [|l lines IH]; intros Hne Hall; [congruence|].
  apply Forall_cons in Hall as [Hl Hall].
  destruct lines as [|l' lines]; [now apply split_last|].
  change (join [NL] (l :: l' :: lines))
    with (l ++ NL :: join [NL] (l' :: lines)).
  rewrite (split_line _ _ _ Hl). now rewrite IH.
Qed.
End SplitJoin.

Section FencedCode.
Import Py Re Parser.
Variable U : unicodedata.

Lemma collect_until {A} (P : A -> bool) l x rest :
  Forall (fun y => P y = true) l -> P x = false ->
  collect P (l ++ x :: rest) = l.
Proof.
  intros Hall Hx. induction Hall as [|y l Hy _ IH]; simpl.
  - now rewrite Hx.
  - now rewrite Hy, IH.
Qed.

Lemma parse_loop_done fuel lines i elems :
  (length lines <= i)%nat -> parse_loop U fuel lines i elems = Some elems.
Proof.
  intros Hi. destruct fuel; simpl; case_bool_decide; auto; lia.
Qed.

Lemma word_no_newline s : forallb (isword U) s = true -> NL ∉ s.
Proof.
  induction s as [|c s IH]; simpl; [intros _ H; inversion H|].
  intros Hall. apply andb_prop in Hall as [Hc Hs].
  intros Hin. apply elem_of_cons in Hin as [<- | Hin]; [discriminate|].
  now apply IH.
Qed.

Lemma opening_fence lang :
  forallb (isword U) lang = true ->
  CODE_BLOCK_PATTERN U (lit "```" ++ lang) = Some lang.
Proof.
  intros Hlang. unfold CODE_BLOCK_PATTERN.
  change (text (lit "```") (lit "```" ++ lang) ?k) with (k lang).
  now apply star_takes_all.
Qed.

(** X16. Fenced code is kept verbatim.  A text made of an opening
    fence with a language tag, lines that hold no fence, and a closing
    fence parses to one code block whose content is those lines joined
    by newlines as they were: a line of the block that looks like a
    heading, a list item or a quote is not parsed as one. *)
Theorem fenced_code_is_kept_verbatim lang body :
  forallb (isword U) lang = true ->
  Forall (fun l => (NL ∉ l) /\ matched (CODE_BLOCK_PATTERN U l) = false) body ->
  parse U (join [NL] ((lit "```" ++ lang) :: body ++ [lit "```"]))
  = Some {| elements :=
              [new_element CODE_BLOCK (join [NL] body) 0 (lit "```" ++ lang)];
            title := lit "Untitled"; theme := []; keywords := [] |}.
Proof.
  intros Hlang Hbody.
  pose proof (opening_fence lang Hlang) as Hopen.
  unfold parse. cbv zeta. rewrite split_join; [|discriminate|].
  2:{ constructor.
      - intros Hin. apply elem_of_app in Hin as [Hin | Hin].
        + vm_compute in Hin. repeat (apply elem_of_cons in Hin as [Hin | Hin];
            [discriminate|]). inversion Hin.
        + now apply (word_no_newline lang).
      - apply Forall_app. split.
        + eapply Forall_impl; [exact Hbody|]. now intros l [Hl _].
        + repeat constructor. intros Hin. vm_compute in Hin.
          repeat (apply elem_of_cons in Hin as [Hin | Hin]; [discriminate|]).
          inversion Hin. }
  cbn [length parse_loop].
  case_bool_decide as Hlen; [|destruct Hlen; apply Nat.lt_0_succ].
  unfold _parse_line. cbn [lookup list_lookup].
  replace (matched (EMPTY_PATTERN (lit "```" ++ lang))) with false
    by reflexivity.
  replace (HEADING_PATTERN (lit "```" ++ lang)) with (@None (str * str))
    by reflexivity.
  rewrite Hopen. cbn [matched fst snd]. unfold _parse_code_block.
  cbn [drop].
  rewrite (collect_until _ body (lit "```") []).
  - cbn [fst snd app]. rewrite parse_loop_done
      by (cbn [length app]; rewrite length_app; cbn [length]; lia).
    reflexivity.
  - eapply Forall_impl; [exact Hbody|]. intros l [_ ->]. reflexivity.
  - reflexivity.
Qed.
End FencedCode.

(** X16 at a block of Python whose lines look like a heading and a
    list item. *)
Lemma fenced_code_is_kept_verbatim_witness :
  Parser.parse Py.caseless
    (Py.join [Py.NL]
       ((Py.lit "```" ++ Py.lit "python")
        :: [Py.lit "# not a heading"; Py.lit "- not a list"]
        ++ [Py.lit "```"]))
  = Some {| Parser.elements :=
              [Parser.new_element Parser.CODE_BLOCK
                 (Py.join [Py.NL]
                    [Py.lit "# not a heading"; Py.lit "- not a list"])
                 0 (Py.lit "```" ++ Py.lit "python")];
            Parser.title := Py.lit "Untitled";
            Parser.theme := []; Parser.keywords := [] |}.
Proof.
  apply (fenced_code_is_kept_verbatim Py.caseless (Py.lit "python")
           [Py.lit "# not a heading"; Py.lit "- not a list"]).
  - vm_compute. reflexivity.
  - repeat constructor; try (vm_compute; reflexivity);
      intros Hin; vm_compute in Hin;
      repeat (apply elem_of_cons in Hin as [Hin | Hin]; [discriminate|]);
      inversion Hin.
Defined.

(* ===================================================================== *)
(** ** The selectors of a regeneration *)
(* ===================================================================== *)

Section Selectors.
Import Py Regenerate.
#[local] Open Scope Z_scope.

Lemma insert_sorted_elem x l y :
  y ∈ insert_sorted x l <-> y = x \/ y ∈ l.
Proof.
  induction l as [|z l IH]; cbn [insert_sorted].
  - rewrite list_elem_of_singleton. split; [auto|].
    intros [H | H]; [exact H | inversion H].
  - destruct (Z.ltb_spec x z) as [Hlt | Hge].
    + now rewrite elem_of_cons.
    + destruct (Z.eqb_spec x z) as [-> | Hne].
      * rewrite elem_of_cons. split; [auto|]. intros [H | H]; auto.
      * rewrite !elem_of_cons, IH. split; intros H; tauto.
Qed.

Lemma insert_sorted_sorted x l :
  StronglySorted Z.lt l -> StronglySorted Z.lt (insert_sorted x l).
Proof.
  induction l as [|z l IH]; cbn [insert_sorted]; intros Hl.
  - repeat constructor.
  - destruct (Z.ltb_spec x z) as [Hlt | Hge].
    + apply StronglySorted_cons. split; [|exact Hl].
      apply StronglySorted_cons in Hl as [Hz _].
      constructor; [exact Hlt|].
      eapply Forall_impl; [exact Hz|]. intros w Hw. simpl in *. lia.
    + destruct (Z.eqb_spec x z) as [-> | Hne]; [exact Hl|].
      apply StronglySorted_cons in Hl as [Hz Hl].
      apply StronglySorted_cons. split; [|now apply IH].
      apply Forall_forall. intros w Hw.
      apply insert_sorted_elem in Hw as [-> | Hw]; [lia|].
      rewrite Forall_forall in Hz. now apply Hz.
Qed.

Lemma sorted_set_elem l y : y ∈ sorted_set l <-> y ∈ l.
Proof.
  induction l as [|x l IH]; [reflexivity|].
  cbn [sorted_set fold_right]. fold (sorted_set l).
  now rewrite insert_sorted_elem, elem_of_cons, IH.
Qed.

Lemma sorted_set_sorted l : StronglySorted Z.lt (sorted_set l).
Proof.
  induction l as [|x l IH]; [constructor|].
  cbn [sorted_set fold_right]. now apply insert_sorted_sorted.
Qed.

Lemma selected_elem l i : selected l i = true <-> Z.of_nat i ∈ l.
Proof.
  unfold selected. split.
  - intros H. apply existsb_exists in H as (x & Hin & Heq).
    apply Z.eqb_eq in Heq as ->. now apply list_elem_of_In.
  - intros H. apply existsb_exists. exists (Z.of_nat i).
    split; [now apply list_elem_of_In | apply Z.eqb_refl].
Qed.

Lemma selection_elem existing_images decisions
    regenerate_index regenerate_type regenerate_failed i :
  let n := Z.of_nat (length decisions) in
  i ∈ filter_images_to_regenerate existing_images decisions
        regenerate_index regenerate_type regenerate_failed
  <-> match regenerate_index with
      | Some k => i = k /\ 0 <= k < n
      | None =>
          if truthy regenerate_type then
            exists j d, decisions !! j = Some d /\ i = Z.of_nat j
                        /\ Some (Analyzer.image_type d) = regenerate_type
          else if regenerate_failed then
            exists img, img ∈ existing_images /\ is_failed img = true
                        /\ index img = i /\ i < n
          else False
      end.
Proof.
  intros n. unfold filter_images_to_regenerate.
  fold n. rewrite sorted_set_elem.
  destruct regenerate_index as [k|].
  { destruct (Z.leb_spec 0 k) as [H0 | H0];
      destruct (Z.ltb_spec k n) as [Hn | Hn]; cbn [andb];
      rewrite ?list_elem_of_singleton; split;
      try (intros [-> ?]; (reflexivity || lia));
      try (intros H; inversion H; fail); intros ->; split; auto. }
  destruct (truthy regenerate_type) eqn:Hty.
  { destruct regenerate_type as [[|c ty]|]; try discriminate.
    cbn [default]. rewrite list_elem_of_omap. split.
    - intros ([j d] & Hin & Hsel).
      apply elem_of_lookup_imap_1 in Hin as (j' & d' & [= -> ->] & Hj).
      unfold str_eqb in Hsel. case_bool_decide as Heq; [|discriminate].
      injection Hsel as <-. exists j', d'. rewrite Heq. auto.
    - intros (j & d & Hj & -> & [= Heq]). exists (j, d). split.
      + apply elem_of_lookup_imap. exists j, d. auto.
      + unfold str_eqb. rewrite Heq.
        now rewrite bool_decide_eq_true_2. }
  destruct regenerate_failed.
  { rewrite list_elem_of_omap. split.
    - intros (img & Hin & Hsel).
      destruct (is_failed img) eqn:Hf; [|discriminate].
      destruct (Z.ltb_spec (index img) n); [|discriminate].
      injection Hsel as <-. exists img. auto.
    - intros (img & Hin & Hf & <- & Hn). exists img. split; [exact Hin|].
      rewrite Hf. destruct (Z.ltb_spec (index img) n); [reflexivity|lia]. }
  split; [intros H; inversion H | tauto].
Qed.

(** X17. What the selectors select.  [filter_images_to_regenerate]
    returns its ordinals in strictly increasing order, each once.  An
    index selector takes precedence over a type selector, which takes
    precedence over [regenerate_failed]: a given index selects itself
    when it is an ordinal of a decision and nothing otherwise, whatever
    the other selectors say; a type selects the ordinals of the
    decisions of that type; [regenerate_failed] selects the ordinals
    below [len(decisions)] that a failed recovered image bears; no
    selector selects nothing. *)
Theorem selectors_by_precedence existing_images decisions
    regenerate_index regenerate_type regenerate_failed :
  let selection :=
    filter_images_to_regenerate existing_images decisions
      regenerate_index regenerate_type regenerate_failed in
  let n := Z.of_nat (length decisions) in
  StronglySorted Z.lt selection
  /\ forall i,
       i ∈ selection <->
       match regenerate_index with
       | Some k => i = k /\ 0 <= k < n
       | None =>
           if truthy regenerate_type then
             exists j d, decisions !! j = Some d /\ i = Z.of_nat j
                         /\ Some (Analyzer.image_type d) = regenerate_type
           else if regenerate_failed then
             exists img, img ∈ existing_images /\ is_failed img = true
                         /\ index img = i /\ i < n
           else False
       end.
Proof.
  intros selection n. split; [apply sorted_set_sorted|].
  intros i. apply selection_elem.
Qed.

Lemma omap_ext_in {A B} (f g : A -> option B) (l : list A) :
  (forall x, x ∈ l -> f x = g x) -> omap f l = omap g l.
Proof.
  induction l as [|x l IH]; intros H; [reflexivity|].
  cbn [omap list_omap]. rewrite (H x) by constructor.
  rewrite IH; [reflexivity|]. intros y Hy. apply H. now constructor.
Qed.

(** X18. Regenerating by kind.  With a type selector and no index
    selector, the plan's [regenerate] bucket holds exactly the
    decisions of that type, in order, whatever images were recovered;
    no decision of that type is kept or reported missing. *)
Theorem by_kind_regenerates_that_kind existing_images decisions
    image_kind regenerate_failed :
  image_kind <> [] ->
  exists plan,
    create_regenerate_plan existing_images decisions
      (filter_images_to_regenerate existing_images decisions
         None (Some image_kind) regenerate_failed)
    = Some plan
    /\ regenerate plan
       = omap (fun '(i, d) =>
                 if str_eqb (Analyzer.image_type d) image_kind
                 then Some (slot_of i d) else None)
              (imap pair decisions)
    /\ Forall (fun k => exists d,
                 decisions !! kept_index k = Some d
                 /\ Analyzer.image_type d <> image_kind) (keep plan)
    /\ Forall (fun s => slot_image_type s <> image_kind) (missing plan).
Proof.
  intros Hkind. unfold create_regenerate_plan. rewrite plan_loop_buckets.
  eexists. split; [reflexivity|]. cbn [keep regenerate missing app].
  set (selection := filter_images_to_regenerate _ _ _ _ _).
  assert (Hsel : forall i d, decisions !! i = Some d ->
            selected selection i = str_eqb (Analyzer.image_type d) image_kind).
  { intros i d Hd. apply eq_true_iff_eq. rewrite selected_elem.
    unfold selection. rewrite selection_elem. cbn match.
    destruct image_kind as [|c ty]; [congruence|]. cbn [truthy].
    unfold str_eqb. rewrite bool_decide_eq_true. split.
    - intros (j & d' & Hj & Hij & [= Heq]). apply Nat2Z.inj in Hij as <-.
      congruence.
    - intros Heq. exists i, d. rewrite Heq. auto. }
  split; [|split].
  - apply omap_ext_in. intros [i d] Hin.
    apply elem_of_lookup_imap_1 in Hin as (i' & d' & [= -> ->] & Hi).
    now rewrite (Hsel _ _ Hi).
  - apply Forall_forall. intros k Hk.
    apply list_elem_of_omap in Hk as ([i d] & Hin & Hk).
    apply elem_of_lookup_imap_1 in Hin as (i' & d' & [= -> ->] & Hi).
    rewrite (Hsel _ _ Hi) in Hk. unfold str_eqb in Hk.
    case_bool_decide as Heq; [discriminate|].
    destruct (List.find _ existing_images); [|discriminate].
    injection Hk as <-. cbn [kept_index]. eauto.
  - apply Forall_forall. intros sl Hs.
    apply list_elem_of_omap in Hs as ([i d] & Hin & Hs).
    apply elem_of_lookup_imap_1 in Hin as (i' & d' & [= -> ->] & Hi).
    rewrite (Hsel _ _ Hi) in Hs. unfold str_eqb in Hs.
    case_bool_decide as Heq; [discriminate|].
    destruct (seen existing_images i'); [discriminate|].
    injection Hs as <-. exact Heq.
Qed.

Lemma omap_single {A B} (f : nat -> A -> B) (p : nat -> bool) k (l : list A) :
  forall m,
  (forall i, p i = true <-> i = k) ->
  omap (fun '(i, x) => if p i then Some (f i x) else None)
       (imap (fun i x => ((m + i)%nat, x)) l)
  = match (if bool_decide (m <= k)%nat then l !! (k - m)%nat else None) with
    | Some x => [f k x]
    | None => []
    end.
Proof.
  induction l as [|x l IH]; intros m Hp.
  - cbn. case_bool_decide; [now rewrite lookup_nil | reflexivity].
  - rewrite imap_cons. cbn [omap list_omap].
    rewrite (imap_ext _ (fun i y => ((S m + i)%nat, y)))
      by (intros; simpl; f_equal; lia).
    rewrite (IH (S m) Hp). replace (m + 0)%nat with m by lia.
    destruct (p m) eqn:Hm.
    + apply Hp in Hm. subst m.
      rewrite (bool_decide_eq_false_2 (S k <= k)%nat) by lia.
      rewrite (bool_decide_eq_true_2 (k <= k)%nat) by lia.
      now rewrite Nat.sub_diag.
    + assert (m <> k) by (intros ->; rewrite (proj2 (Hp k) eq_refl) in Hm;
                          discriminate).
      case_bool_decide as H1; case_bool_decide as H2; try lia; try reflexivity.
      replace (k - m)%nat with (S (k - S m)) by lia. reflexivity.
Qed.

(** X19. Regenerating by index.  With an index selector the other
    selectors are ignored: when the index is an ordinal of a decision
    the [regenerate] bucket holds that decision and nothing else; when
    it is not (negative, or not below [len(decisions)]) nothing is
    regenerated and no error is raised. *)
Theorem by_index_regenerates_one existing_images decisions
    index_given regenerate_type regenerate_failed :
  exists plan,
    create_regenerate_plan existing_images decisions
      (filter_images_to_regenerate existing_images decisions
         (Some index_given) regenerate_type regenerate_failed)
    = Some plan
    /\ regenerate plan
       = match (if 0 <=? index_given
                then decisions !! Z.to_nat index_given else None) with
         | Some d => [slot_of (Z.to_nat index_given) d]
         | None => []
         end.
Proof.
  unfold create_regenerate_plan. rewrite plan_loop_buckets.
  eexists. split; [reflexivity|]. cbn [keep regenerate missing app].
  set (selection := filter_images_to_regenerate _ _ _ _ _).
  assert (Hsel : forall i,
            selected selection i = true
            <-> Z.of_nat i = index_given
                /\ 0 <= index_given < Z.of_nat (length decisions)).
  { intros i. rewrite selected_elem. unfold selection.
    now rewrite selection_elem. }
  destruct (Z.leb_spec 0 index_given) as [H0 | H0].
  - destruct (decisions !! Z.to_nat index_given) as [d|] eqn:Hd.
    + pose proof (lookup_lt_Some _ _ _ Hd) as Hlt.
      change (imap pair decisions)
        with (imap (fun i x => ((0 + i)%nat, x)) decisions).
      rewrite (omap_single slot_of (selected selection)
                 (Z.to_nat index_given) decisions 0%nat).
      * rewrite bool_decide_eq_true_2 by lia. rewrite Nat.sub_0_r, Hd.
        reflexivity.
      * intros i. rewrite Hsel. lia.
    + apply lookup_ge_None in Hd.
      rewrite (omap_ext_in _ (fun _ => None)).
      * clear. induction (imap pair decisions); auto.
      * intros [i d] _.
        destruct (selected selection i) eqn:Hs; [|reflexivity].
        apply Hsel in Hs. lia.
  - rewrite (omap_ext_in _ (fun _ => None)).
    + clear. induction (imap pair decisions); auto.
    + intros [i d] _.
      destruct (selected selection i) eqn:Hs; [|reflexivity].
      apply Hsel in Hs. lia.
Qed.
End Selectors.

(* ===================================================================== *)
(** ** The ordinals of recovered diagrams *)
(* ===================================================================== *)

Section DiagramOrdinals.
Import Py Re Regenerate.
#[local] Open Scope Z_scope.
Variable U : unicodedata.

(** The diagram blocks of one kind among the recovered images. *)
Let diagrams (kind : str) (imgs : list ExistingImage) : list ExistingImage :=
  List.filter (fun img => negb (is_failed img) && str_eqb (image_type img) kind)
              imgs.

(** The diagrams of each kind are numbered from zero in the order they
    were found, and the counter of the kind is the next number. *)
Let numbered (st : State) : Prop :=
  forall kind,
    List.map index (diagrams kind (existing_images st))
    = List.map Z.of_nat (seq 0 (length (diagrams kind (existing_images st))))
    /\ forall c, type_counters st !! kind = Some c ->
                 c = Z.of_nat (length (diagrams kind (existing_images st))).

Lemma initial_numbered : numbered initial.
Proof.
  intros kind. split; [reflexivity|]. intros c Hc. cbn.
  unfold initial in Hc. cbn [type_counters] in Hc.
  apply elem_of_list_to_map_2, list_elem_of_In, in_map_iff in Hc
    as ([t cn_name] & [= _ <-] & _).
  reflexivity.
Qed.

Lemma numbered_failed st img :
  is_failed img = true -> numbered st -> numbered (record st img).
Proof.
  intros Hf Hst kind. unfold diagrams. cbn [record existing_images type_counters].
  rewrite List.filter_app. cbn [List.filter]. rewrite Hf. cbn [negb andb].
  rewrite app_nil_r. apply Hst.
Qed.

Lemma step_numbered lines st line_num line st' :
  step U lines st line_num line = Some st' -> numbered st -> numbered st'.
Proof.
  unfold step. intros Hstep Hst. revert Hstep.
  destruct (opens_mermaid U lines line_num line).
  { intros [= <-]. exact Hst. }
  destruct (in_mermaid_block st).
  { destruct (startswith FENCE (strip line)
              && negb (contains (lit "mermaid") line)).
    - destruct (_parse_image_type_from_context _ _ _) as [[|c t]|].
      + intros [= <-]. exact Hst.
      + cbv zeta.
        destruct (type_counters st !! _) as [idx|] eqn:Hidx;
          [|discriminate].
        intros [= <-] kind. unfold diagrams.
        cbn [existing_images type_counters is_failed image_type index].
        rewrite List.filter_app. cbn [List.filter is_failed image_type negb andb].
        destruct (Hst kind) as [Hmap Hcount]. unfold diagrams in Hmap, Hcount.
        destruct (str_eqb (c :: t) kind) eqn:Hkind.
        * apply str_eqb_eq in Hkind. subst kind.
          rewrite length_app, List.map_app, Hmap. cbn [length List.map].
          rewrite (Hcount idx Hidx). split.
          -- rewrite Nat.add_1_r, seq_S, List.map_app. reflexivity.
          -- rewrite lookup_insert_eq. intros c' [= <-]. lia.
        * apply str_eqb_neq in Hkind. rewrite app_nil_r. split; [exact Hmap|].
          rewrite lookup_insert_ne by exact Hkind. exact Hcount.
      + intros [= <-]. exact Hst.
    - destruct (negb _); intros [= <-]; exact Hst. }
  destruct (contains ALL_FAILED line).
  { destruct (_parse_image_info_from_context U lines line_num)
      as [image_type [idx|]].
    - destruct (truthy image_type); intros [= <-]; [|exact Hst].
      now apply numbered_failed.
    - intros [= <-]. exact Hst. }
  destruct (image_pattern line) as [[alt_text path]|].
  - destruct (negb (_is_auto_generated_image alt_text)).
    { intros [= <-]. exact Hst. }
    destruct (startswith (lit "MERMAID_CODE:") path).
    { intros [= <-]. exact Hst. }
    pose proof (alt_text_gives_no_index alt_text) as Hnone.
    destruct (_parse_image_info_from_alt_text alt_text) as [image_type idx].
    simpl in Hnone. subst idx. intros [= <-]. exact Hst.
  - intros [= <-]. exact Hst.
Qed.

Lemma run_numbered lines todo : forall st st',
  run U lines todo st = Some st' -> numbered st -> numbered st'.
Proof.
  induction todo as [|[line_num line] todo IH]; intros st st'; simpl.
  - now intros [= <-].
  - destruct (step U lines st line_num line) as [st1|] eqn:Hstep;
      [|discriminate].
    intros Hrun Hst. apply (IH _ _ Hrun). exact (step_numbered _ _ _ _ _ Hstep Hst).
Qed.

(** X20. Recovered diagrams are numbered per kind.  Among the images
    recovered from a previous output, the diagram blocks attributed to
    one kind bear the indices 0, 1, 2, ... in the order of their
    blocks: the index counts the diagrams of that kind, not the images
    of the file. *)
Theorem diagrams_are_numbered_by_kind lines imgs lines' kind :
  parse_existing_images U (Some lines) = Some (imgs, lines') ->
  let found :=
    List.filter (fun img => negb (is_failed img)
                            && str_eqb (image_type img) kind) imgs in
  List.map index found = List.map Z.of_nat (seq 0 (length found)).
Proof.
  unfold parse_existing_images.
  destruct (run U lines (imap pair lines) initial) as [st|] eqn:Hrun;
    [|discriminate].
  intros [= <- <-]. cbv zeta.
  exact (proj1 (run_numbered _ _ _ _ Hrun initial_numbered kind)).
Qed.
End DiagramOrdinals.

(* ===================================================================== *)
(** ** Decisions and flagged elements, in order *)
(* ===================================================================== *)

Section Alignment.
Import Py Parser Analyzer Run Placement.
#[local] Open Scope Z_scope.

Variable self_image_source : str.
Variable rules : Rules.
Variable ab_test : ABTest.
Variable _generate_prompt :
  MarkdownElement -> list MarkdownElement -> str -> str -> str.

Lemma spaced_sorted gap : forall positions last lo,
  spaced gap last lo positions -> StronglySorted lt positions.
Proof.
  induction positions as [|p rest IH]; intros last lo H; [constructor|].
  destruct H as (_ & _ & Hrest). constructor; [now apply (IH _ _ Hrest)|].
  apply Forall_forall. intros q Hq.
  destruct (spaced_bounds _ _ _ _ Hrest q (proj1 (list_elem_of_In _ _) Hq)).
  lia.
Qed.

Lemma enumerate_filter_sorted {A} (P : nat * A -> bool) (l : list A) : forall k,
  StronglySorted lt
    (List.map fst (List.filter P (imap (fun i x => ((k + i)%nat, x)) l)))
  /\ Forall (fun i => (k <= i)%nat)
       (List.map fst (List.filter P (imap (fun i x => ((k + i)%nat, x)) l))).
Proof.
  induction l as [|x l IH]; intros k; [split; constructor|].
  rewrite imap_cons. cbn [List.filter].
  rewrite (imap_ext _ (fun i y => ((S k + i)%nat, y)))
    by (intros; simpl; f_equal; lia).
  destruct (IH (S k)) as [Hs Hb].
  assert (Hb' : Forall (fun i => (k < i)%nat)
            (List.map fst (List.filter P
               (imap (fun i y => ((S k + i)%nat, y)) l))))
    by (eapply Forall_impl; [exact Hb|]; simpl; intros; lia).
  destruct (P _); cbn [List.map fst]; split.
  - constructor; [exact Hs|]. replace (k + 0)%nat with k by lia. exact Hb'.
  - constructor; [lia|]. eapply Forall_impl; [exact Hb'|]. simpl. intros. lia.
  - exact Hs.
  - eapply Forall_impl; [exact Hb'|]. simpl. intros. lia.
Qed.

Lemma flagged_positions_sorted elems :
  StronglySorted lt (flagged_positions elems).
Proof.
  unfold flagged_positions.
  change (imap pair elems) with (imap (fun i x => ((0 + i)%nat, x)) elems).
  apply enumerate_filter_sorted.
Qed.

Lemma flagged_positions_elem elems i :
  i ∈ flagged_positions elems <-> flagged elems i.
Proof.
  unfold flagged_positions, flagged.
  change (List.map fst ?l) with (fst <$> l).
  rewrite list_elem_of_fmap. split.
  - intros ([j e] & -> & Hin). apply list_elem_of_In, filter_In in Hin as [Hin He].
    apply list_elem_of_In, elem_of_lookup_imap_1 in Hin
      as (j' & e' & [= -> ->] & Hj).
    exists e'. auto.
  - intros (e & He & Hneed). exists (i, e). split; [reflexivity|].
    apply list_elem_of_In, filter_In. split; [|exact Hneed].
    apply list_elem_of_In, elem_of_lookup_imap. exists i, e. auto.
Qed.

Lemma sorted_nodup (l : list nat) : StronglySorted lt l -> NoDup l.
Proof.
  induction 1 as [|x l _ IH Hx]; constructor; [|exact IH].
  intros Hin. rewrite Forall_forall in Hx. specialize (Hx x Hin). lia.
Qed.

(** X21. Decisions and flagged elements line up.  On a document that
    bears no annotation yet, when no cover is synthesized, the
    positions of the elements [analyze] has flagged, in document
    order, are the positions of the decisions it returns, in the order
    of the decisions: the k-th flagged element is the element of the
    k-th decision, which is how the assembler pairs image paths with
    elements. *)
Theorem flagged_elements_follow_decisions doc_type elems :
  Forall fresh elems ->
  has_h1 elems = true \/ h1_after rules = Some false ->
  let st := analyze_state self_image_source rules ab_test _generate_prompt
              doc_type elems in
  flagged_positions (doc_elements st) = List.map element_index (decisions st).
Proof.
  intros Hfresh Hscan st.
  pose proof (agree_fresh elems Hfresh) as Hstart.
  assert (Hagree : agree (decisions st) (doc_elements st)).
  { subst st.
    apply (run_invariant self_image_source rules ab_test _generate_prompt
             (fun st => agree (decisions st) (doc_elements st))
             doc_type 0%nat _ _
             (analyze_is_run self_image_source rules ab_test _generate_prompt
                doc_type elems)).
    - intros st i element decision Hst Hel Hd. cbn [accept decisions doc_elements].
      destruct (with_variants_fields ab_test decision) as (Hi & _).
      destruct (analyze_element_position _ _ _ _ _ _ _ _ Hd) as [Hpos _].
      apply (agree_accept _ _ i element (with_variants ab_test decision));
        [exact Hst | exact Hel | congruence].
    - now rewrite (before_scan_untouched self_image_source rules
                     _generate_prompt doc_type elems Hscan). }
  destruct (scan_only_shape self_image_source rules ab_test _generate_prompt
              doc_type elems Hscan) as (new & Heq & Hsp & _).
  unfold analyze in Heq. fold st in Heq. rewrite Heq in *.
  apply spaced_sorted in Hsp.
  apply (StronglySorted_unique_strong lt);
    [intros; lia | apply flagged_positions_sorted | exact Hsp |].
  apply NoDup_Permutation;
    [apply sorted_nodup, flagged_positions_sorted
    | now apply sorted_nodup |].
  intros i. rewrite flagged_positions_elem.
  destruct Hagree as [Hds Hels]. split.
  - intros (e & He & Hneed). specialize (Hels i e He). rewrite Hneed in Hels.
    destruct Hels as (d & Hin & <- & _).
    change (List.map element_index new) with (element_index <$> new).
    apply list_elem_of_fmap. eauto.
  - change (List.map element_index new) with (element_index <$> new).
    intros Hin. apply list_elem_of_fmap in Hin as (d & -> & Hin).
    now apply Hds.
Qed.
End Alignment.

(* ===================================================================== *)
(** ** What the assembler writes and what the reconciler reads *)
(* ===================================================================== *)

Section Labels.
Import Py Parser.
#[local] Open Scope Z_scope.

Lemma startswith_app p s : startswith p (p ++ s) = true.
Proof.
  induction p as [|c p IH]; [reflexivity|].
  cbn [app startswith]. now rewrite N.eqb_refl, IH.
Qed.

Lemma contains_prefix p s : contains p (p ++ s) = true.
Proof.
  destruct (p ++ s) eqn:Heq; cbn [contains]; rewrite <- Heq;
    now rewrite startswith_app.
Qed.

Lemma recognised_label t label rest :
  In (t, label) Regenerate.TYPE_NAMES ->
  Regenerate._is_auto_generated_image (label ++ rest) = true.
Proof.
  intros Hin. unfold Regenerate._is_auto_generated_image.
  apply existsb_exists. exists (t, label). split; [exact Hin|].
  apply contains_prefix.
Qed.

(** The alt text of an element that bears one of the four image types
    of the analyzer starts with the label of that type. *)
Lemma alt_text_starts_with_label e t :
  Parser.image_type e = Some t ->
  In t [lit "cover"; lit "section"; lit "concept"; lit "atmospheric"] ->
  exists label rest,
    In (t, label) Assembler.type_names
    /\ In (t, label) Regenerate.TYPE_NAMES
    /\ Assembler._generate_alt_text e = label ++ rest.
Proof.
  intros Hty Hin. unfold Assembler._generate_alt_text. rewrite Hty.
  destruct Hin as [<- | [<- | [<- | [<- | []]]]];
    match goal with
    | |- context [In (lit ?x, _)] =>
        let v := eval vm_compute in (lit x) in change (lit x) with v
    end;
    cbv beta iota;
    match goal with
    | |- context [default Assembler.ILLUSTRATION ?found] =>
        let label := eval vm_compute in (default Assembler.ILLUSTRATION found) in
        change (default Assembler.ILLUSTRATION found) with label;
        exists label
    end;
    cbv zeta; (destruct (content e) as [|c s];
     [exists []; split; [vm_compute; tauto|];
        split; [vm_compute; tauto | now rewrite app_nil_r]
     | eexists; split; [vm_compute; tauto|];
        split; [vm_compute; tauto | reflexivity]]).
Qed.

Variable self_image_source : str.
Variable rules : Analyzer.Rules.
Variable ab_test : Analyzer.ABTest.
Variable _generate_prompt :
  MarkdownElement -> list MarkdownElement -> str -> str -> str.

(** X22. Alt texts are recognised.  On a document that bears no
    annotation yet, every element [analyze] flags bears an image type,
    gets from [_generate_alt_text] an alt text that starts with the
    label of that image type (the same label in the assembler's
    [type_names] and in the reconciler's [TYPE_NAMES]), and
    [_is_auto_generated_image] of the reconciler accepts that alt
    text. *)
Theorem written_alt_texts_are_recognised doc_type elems :
  Forall Run.fresh elems ->
  Forall (fun e =>
            Parser.need_image e = true ->
            exists t label rest,
              Parser.image_type e = Some t
              /\ In (t, label) Assembler.type_names
              /\ In (t, label) Regenerate.TYPE_NAMES
              /\ Assembler._generate_alt_text e = label ++ rest
              /\ Regenerate._is_auto_generated_image
                   (Assembler._generate_alt_text e) = true)
    (Analyzer.doc_elements
       (Analyzer.analyze_state self_image_source rules ab_test
          _generate_prompt doc_type elems)).
Proof.
  intros Hfresh.
  destruct (analyze_agree self_image_source rules ab_test _generate_prompt
              doc_type elems Hfresh) as [_ Hels].
  pose proof (analyze_by_rule self_image_source rules ab_test _generate_prompt
                doc_type elems) as Hrule.
  unfold Analyzer.analyze in Hrule. rewrite Forall_forall in Hrule.
  apply Forall_lookup. intros j e He Hneed.
  specialize (Hels j e He). rewrite Hneed in Hels.
  destruct Hels as (d & Hin & _ & Hty & _).
  destruct (Hrule d Hin) as (el & _ & _ & _ & Hkind).
  assert (Hknown : In (Analyzer.image_type d)
            [lit "cover"; lit "section"; lit "concept"; lit "atmospheric"]).
  { destruct Hkind as [(Hk & _) | [(Hk & _) | (Hk & _)]]; rewrite Hk;
      [simpl; auto | | simpl; auto].
    destruct (existsb _ Analyzer.CONCEPT_KEYWORDS); simpl; auto. }
  destruct (alt_text_starts_with_label e _ Hty Hknown)
    as (label & rest & Hassembler & Hlabel & Halt).
  exists (Analyzer.image_type d), label, rest.
  repeat split; auto. rewrite Halt. exact (recognised_label _ _ _ Hlabel).
Qed.
End Labels.

(** X22 at [Sample.titled_document]. *)
Lemma written_alt_texts_are_recognised_witness :
  Forall (fun e =>
            Parser.need_image e = true ->
            exists t label rest,
              Parser.image_type e = Some t
              /\ In (t, label) Assembler.type_names
              /\ In (t, label) Regenerate.TYPE_NAMES
              /\ Assembler._generate_alt_text e = label ++ rest
              /\ Regenerate._is_auto_generated_image
                   (Assembler._generate_alt_text e) = true)
    (Analyzer.doc_elements
       (Analyzer.analyze_state (Py.lit "zhipu") Sample.h2_always
          Sample.no_ab_test Sample.content_as_prompt (Py.lit "normal")
          Sample.titled_document)).
Proof.
  apply (written_alt_texts_are_recognised (Py.lit "zhipu") Sample.h2_always
           Sample.no_ab_test Sample.content_as_prompt (Py.lit "normal")
           Sample.titled_document).
  vm_compute. repeat constructor.
Defined.

(* ===================================================================== *)
(** ** Diagram markers *)
(* ===================================================================== *)

Section DiagramMarkers.
Import Py Parser Assembler.

Lemma split_at_most_field d l rest m :
  d ∉ l ->
  split_at_most d (l ++ d :: rest) (S m) = l :: split_at_most d rest m.
Proof.
  induction l as [|c l IH]; intros Hd; cbn [app split_at_most].
  - now rewrite N.eqb_refl.
  - apply not_elem_of_cons in Hd as [Hc Hl].
    destruct (N.eqb_spec c d) as [-> | _]; [congruence|].
    now rewrite (IH Hl).
Qed.

Lemma split_at_most_0 d s : split_at_most d s 0 = [s].
Proof. now destruct s. Qed.

Lemma marker_parts mermaid_code diagram_type :
  ch ":" ∉ diagram_type ->
  split_at_most (ch ":") (_format_as_mermaid_block mermaid_code diagram_type) 2
  = [lit "MERMAID_CODE"; diagram_type; mermaid_code].
Proof.
  intros Hty. unfold _format_as_mermaid_block.
  change (lit "MERMAID_CODE:" ++ diagram_type ++ lit ":" ++ mermaid_code)
    with (lit "MERMAID_CODE" ++ ch ":" :: (diagram_type ++ ch ":" :: mermaid_code)).
  rewrite split_at_most_field.
  - now rewrite (split_at_most_field _ _ _ 0 Hty), split_at_most_0.
  - intros Hin. vm_compute in Hin.
    repeat (apply elem_of_cons in Hin as [Hin | Hin]; [discriminate|]).
    inversion Hin.
Qed.

Lemma mermaid_marker_parsed mermaid_code diagram_type :
  ch ":" ∉ diagram_type ->
  parse_mermaid_code (_format_as_mermaid_block mermaid_code diagram_type)
  = (Some diagram_type, Some mermaid_code).
Proof.
  intros Hty. unfold parse_mermaid_code.
  replace (is_mermaid_code (_format_as_mermaid_block mermaid_code diagram_type))
    with true by (symmetry; apply startswith_app).
  now rewrite (marker_parts _ _ Hty).
Qed.

(** X23. The diagram marker round trip.  What
    [_format_as_mermaid_block] builds from a diagram's code and a type
    that holds no colon is recognised by [is_mermaid_code], and
    [parse_mermaid_code] gives the type and the code back, whatever the
    code holds (colons and newlines included). *)
Theorem mermaid_marker_round_trip mermaid_code diagram_type :
  ch ":" ∉ diagram_type ->
  is_mermaid_code (_format_as_mermaid_block mermaid_code diagram_type) = true
  /\ parse_mermaid_code (_format_as_mermaid_block mermaid_code diagram_type)
     = (Some diagram_type, Some mermaid_code).
Proof.
  intros Hty.
  assert (Hmark : is_mermaid_code
                    (_format_as_mermaid_block mermaid_code diagram_type) = true)
    by apply startswith_app.
  split; [exact Hmark | now apply mermaid_marker_parsed].
Qed.
End DiagramMarkers.

(** X23 at a flowchart whose code holds a colon. *)
Lemma mermaid_marker_round_trip_witness :
  Assembler.is_mermaid_code
    (Assembler._format_as_mermaid_block (Py.lit "graph TD; A-->B: go")
       (Py.lit "flowchart")) = true
  /\ Assembler.parse_mermaid_code
       (Assembler._format_as_mermaid_block (Py.lit "graph TD; A-->B: go")
          (Py.lit "flowchart"))
     = (Some (Py.lit "flowchart"), Some (Py.lit "graph TD; A-->B: go")).
Proof.
  apply (mermaid_marker_round_trip (Py.lit "graph TD; A-->B: go")
           (Py.lit "flowchart")).
  intros Hin. vm_compute in Hin.
  repeat (apply elem_of_cons in Hin as [Hin | Hin]; [discriminate|]).
  inversion Hin.
Defined.

Section RecoveredDiagrams.
Import Py Re Regenerate.
Variable U : unicodedata.

(** A recovered image that did not fail is a diagram of a known type
    whose path is the marker of its code. *)
Let diagram (img : ExistingImage) : Prop :=
  is_failed img = false ->
  In (image_type img) (List.map fst TYPE_NAMES)
  /\ exists mermaid_code,
       image_path img
       = Assembler._format_as_mermaid_block mermaid_code (image_type img).

Lemma step_diagram lines st line_num line st' :
  step U lines st line_num line = Some st' ->
  Forall diagram (existing_images st) -> Forall diagram (existing_images st').
Proof.
  unfold step. intros Hstep Hst. revert Hstep.
  destruct (opens_mermaid U lines line_num line).
  { intros [= <-]. exact Hst. }
  destruct (in_mermaid_block st).
  { destruct (startswith FENCE (strip line)
              && negb (contains (lit "mermaid") line)).
    - destruct (_parse_image_type_from_context _ _ _) as [[|c t]|] eqn:Hty.
      + intros [= <-]. exact Hst.
      + cbv zeta.
        destruct (type_counters st !! _) as [idx|] eqn:Hidx; [|discriminate].
        intros [= <-]. cbn [existing_images].
        apply Forall_app. split; [exact Hst|]. constructor; [|constructor].
        intros _. cbn [image_path image_type]. split.
        * exact (context_type_known _ _ _ _ Hty).
        * eexists. reflexivity.
      + intros [= <-]. exact Hst.
    - destruct (negb _); intros [= <-]; exact Hst. }
  destruct (contains ALL_FAILED line).
  { destruct (_parse_image_info_from_context U lines line_num)
      as [image_type [idx|]].
    - destruct (truthy image_type); intros [= <-]; [|exact Hst].
      cbn [record existing_images]. apply Forall_app. split; [exact Hst|].
      constructor; [|constructor]. intros Hf. discriminate.
    - intros [= <-]. exact Hst. }
  destruct (image_pattern line) as [[alt_text path]|].
  - destruct (negb (_is_auto_generated_image alt_text)).
    { intros [= <-]. exact Hst. }
    destruct (startswith (lit "MERMAID_CODE:") path).
    { intros [= <-]. exact Hst. }
    pose proof (alt_text_gives_no_index alt_text) as Hnone.
    destruct (_parse_image_info_from_alt_text alt_text) as [image_type idx].
    simpl in Hnone. subst idx. intros [= <-]. exact Hst.
  - intros [= <-]. exact Hst.
Qed.

Lemma run_diagram lines todo : forall st st',
  run U lines todo st = Some st' ->
  Forall diagram (existing_images st) -> Forall diagram (existing_images st').
Proof.
  induction todo as [|[line_num line] todo IH]; intros st st'; simpl.
  - now intros [= <-].
  - destruct (step U lines st line_num line) as [st1|] eqn:Hstep;
      [|discriminate].
    intros Hrun Hst. apply (IH _ _ Hrun). exact (step_diagram _ _ _ _ _ Hstep Hst).
Qed.

Lemma known_type_has_no_colon t :
  In t (List.map fst TYPE_NAMES) -> Parser.ch ":" ∉ t.
Proof.
  intros Ht. simpl in Ht.
  destruct Ht as [<- | [<- | [<- | [<- | [<- | [<- | []]]]]]];
    intros Hin; vm_compute in Hin;
    repeat (apply elem_of_cons in Hin as [Hin | Hin]; [discriminate|]);
    inversion Hin.
Qed.

(** X24. Recovered diagrams can be written back.  The path of every
    recovered image that did not fail is a diagram marker from which
    [parse_mermaid_code] reads the image's own type and its code. *)
Theorem recovered_diagrams_parse_back lines imgs lines' img :
  parse_existing_images U (Some lines) = Some (imgs, lines') ->
  In img imgs ->
  is_failed img = false ->
  exists mermaid_code,
    image_path img
    = Assembler._format_as_mermaid_block mermaid_code (image_type img)
    /\ Assembler.parse_mermaid_code (image_path img)
       = (Some (image_type img), Some mermaid_code).
Proof.
  unfold parse_existing_images.
  destruct (run U lines (imap pair lines) initial) as [st|] eqn:Hrun;
    [|discriminate].
  intros [= <- <-] Hin Hok.
  assert (Hall : Forall diagram (existing_images st))
    by (apply (run_diagram _ _ _ _ Hrun); constructor).
  rewrite Forall_forall in Hall.
  destruct (Hall img (proj2 (list_elem_of_In _ _) Hin) Hok)
    as (Hknown & mermaid_code & Hpath).
  exists mermaid_code. split; [exact Hpath|]. rewrite Hpath.
  apply mermaid_marker_parsed. now apply known_type_has_no_colon.
Qed.
End RecoveredDiagrams.

(* ===================================================================== *)
(** ** The theme of a parsed document *)
(* ===================================================================== *)

Section ParsedTheme.
Import Py Parser Theme.
Variable U : unicodedata.

Lemma filter_head {A} (P : A -> bool) l h t :
  List.filter P l = h :: t -> h ∈ l /\ P h = true.
Proof.
  intros Hf.
  assert (Hin : In h (List.filter P l)) by (rewrite Hf; now left).
  apply filter_In in Hin as [Hin Hp]. split; [now apply list_elem_of_In | exact Hp].
Qed.

Lemma extracted_title_not_empty elems :
  Forall (fun e => Document.well_formed e /\ Run.fresh e) elems ->
  _extract_title elems <> [].
Proof.
  intros Hall. unfold _extract_title.
  destruct (List.filter _ (List.filter is_heading elems)) as [|h t] eqn:Hf;
    [discriminate|].
  apply filter_head in Hf as [Hin _].
  apply list_elem_of_In, filter_In in Hin as [Hin Hhead].
  rewrite Forall_forall in Hall.
  destruct (Hall h (proj2 (list_elem_of_In _ _) Hin)) as [(_ & _ & _ & Hkind) _].
  unfold is_heading in Hhead. apply bool_decide_eq_true in Hhead.
  rewrite Hhead in Hkind. tauto.
Qed.

Lemma no_h1_no_title elems :
  Analyzer.has_h1 elems = false -> _extract_title elems = lit "Untitled".
Proof.
  intros Hh1. unfold _extract_title.
  destruct (List.filter _ (List.filter is_heading elems)) as [|h t] eqn:Hf;
    [reflexivity|].
  apply filter_head in Hf as [Hin Hlevel].
  apply list_elem_of_In, filter_In in Hin as [Hin Hhead].
  unfold is_heading in Hhead. apply bool_decide_eq_true in Hhead.
  assert (Analyzer.has_h1 elems = true); [|congruence].
  unfold Analyzer.has_h1. apply existsb_exists. exists h. split; [exact Hin|].
  unfold Analyzer.is_type. rewrite Hhead, Hlevel. reflexivity.
Qed.

Lemma filter_both {A} (P Q : A -> bool) (l : list A) :
  List.filter Q (List.filter P l) = List.filter (fun x => P x && Q x) l.
Proof.
  induction l as [|x l IH]; [reflexivity|]. cbn [List.filter].
  destruct (P x); cbn [List.filter andb]; [|exact IH].
  destruct (Q x); now rewrite IH.
Qed.

Lemma filter_first {A} (P : A -> bool) (l : list A) : forall i h,
  l !! i = Some h -> P h = true ->
  (forall j y, (j < i)%nat -> l !! j = Some y -> P y = false) ->
  exists t, List.filter P l = h :: t.
Proof.
  induction l as [|x l IH]; intros i h Hi Hh Hbefore; [discriminate|].
  cbn [List.filter]. destruct i as [|i].
  - injection Hi as ->. rewrite Hh. eauto.
  - rewrite (Hbefore 0%nat x ltac:(lia) eq_refl).
    apply (IH i h Hi Hh). intros j y Hj Hy.
    apply (Hbefore (S j) y); [lia | exact Hy].
Qed.

Lemma first_h1_is_title elems i h :
  elems !! i = Some h -> type h = HEADING -> level h = 1%nat ->
  (forall j e, (j < i)%nat -> elems !! j = Some e ->
               ~ (type e = HEADING /\ level e = 1%nat)) ->
  _extract_title elems = content h.
Proof.
  intros Hi Hty Hlevel Hbefore. unfold _extract_title. rewrite filter_both.
  destruct (filter_first
              (fun e => is_heading e && Nat.eqb (level e) 1) elems i h Hi)
    as [t ->]; [| |reflexivity].
  - unfold is_heading. rewrite Hty, Hlevel.
    now rewrite bool_decide_eq_true_2.
  - intros j e Hj He. specialize (Hbefore j e Hj He).
    apply andb_false_iff. unfold is_heading.
    destruct (decide (type e = HEADING)) as [Hhead | Hother].
    + right. apply Nat.eqb_neq. intros Hl. apply Hbefore. auto.
    + left. now apply bool_decide_eq_false.
Qed.

(** X25. The theme of a parsed document comes from its title.  The
    title [parse] gives a document is never empty: it is the content
    of the first level-1 heading of the document, or [Untitled] when
    the document has none.  So [_analyze_theme] of a parsed document
    is its title, with the prefix of technical articles when the title
    holds one of [TECH_KEYWORDS]; it is never taken from a paragraph. *)
Theorem parsed_theme_comes_from_title text :
  exists doc,
    parse U text = Some doc
    /\ title doc <> []
    /\ (forall i h,
          elements doc !! i = Some h ->
          type h = HEADING -> level h = 1%nat ->
          (forall j e, (j < i)%nat -> elements doc !! j = Some e ->
                       ~ (type e = HEADING /\ level e = 1%nat)) ->
          title doc = content h)
    /\ (Analyzer.has_h1 (elements doc) = false -> title doc = lit "Untitled")
    /\ _analyze_theme doc
       = if existsb (fun kw => contains kw (title doc)) TECH_KEYWORDS
         then TECH_ARTICLE ++ title doc
         else title doc.
Proof.
  unfold parse.
  destruct (parse_loop_returns U (length (split NL text)) (split NL text)
              0 [] ltac:(lia)) as [elems Hloop].
  rewrite Hloop. eexists. split; [reflexivity|]. cbn [title elements].
  assert (Hall : Forall (fun e => Document.well_formed e /\ Run.fresh e) elems)
    by (apply (parse_loop_well_formed U _ _ _ _ _ Hloop); constructor).
  pose proof (extracted_title_not_empty elems Hall) as Hne.
  split; [exact Hne|]. split; [apply first_h1_is_title|].
  split; [apply no_h1_no_title|].
  unfold _analyze_theme. cbn [title].
  destruct (_extract_title elems); [congruence | reflexivity].
Qed.
End ParsedTheme.

(* ===================================================================== *)
(** ** The length of a prompt *)
(* ===================================================================== *)

Section Truncation.
Import Py Prompt.
#[local] Open Scope Z_scope.

Lemma up_to_prefix n s : exists rest, s = up_to n s ++ rest.
Proof.
  unfold up_to. destruct (0 <=? n); eexists; symmetry; apply take_drop.
Qed.

Lemma up_to_length n s :
  0 <= n -> Z.of_nat (length (up_to n s)) <= n.
Proof.
  intros Hn. unfold up_to. destruct (Z.leb_spec 0 n); [|lia].
  rewrite length_take. lia.
Qed.

Lemma last_punctuation_found s i :
  last_punctuation s = Some i ->
  exists c, s !! i = Some c /\ is_punctuation c = true.
Proof.
  unfold last_punctuation. intros Hfind.
  apply find_some in Hfind as [_ Hp].
  destruct (s !! i) as [c|]; [eauto | discriminate].
Qed.

Lemma last_punctuation_none s :
  last_punctuation s = None -> forallb (fun c => negb (is_punctuation c)) s = true.
Proof.
  unfold last_punctuation. intros Hfind.
  apply forallb_forall. intros c Hc.
  apply list_elem_of_In, list_elem_of_lookup in Hc as [i Hi].
  assert (Hin : In i (rev (seq 0 (length s)))).
  { apply in_rev. rewrite rev_involutive. apply in_seq.
    apply lookup_lt_Some in Hi. lia. }
  pose proof (find_none _ _ Hfind i Hin) as Hnone. cbv beta in Hnone.
  unfold str in *. rewrite Hi in Hnone. now rewrite Hnone.
Qed.

(** X26. [_truncate_prompt] returns a prefix of the prompt: the prompt
    itself when it is no longer than [max_length]; otherwise, for
    [max_length >= 0], at most [max_length] characters, ending with a
    punctuation mark whenever the first [max_length] characters hold
    one, and cut at [max_length] exactly when they hold none. *)
Theorem truncated_prompt_is_a_prefix prompt max_length :
  let result := _truncate_prompt prompt max_length in
  (exists rest, prompt = result ++ rest)
  /\ (Z.of_nat (length prompt) <= max_length -> result = prompt)
  /\ (0 <= max_length -> Z.of_nat (length result) <= max_length)
  /\ (max_length < Z.of_nat (length prompt) ->
      if existsb is_punctuation (up_to max_length prompt)
      then exists body c, result = body ++ [c] /\ is_punctuation c = true
      else result = up_to max_length prompt).
Proof.
  intros result. subst result. unfold _truncate_prompt.
  destruct (Z.leb_spec (Z.of_nat (length prompt)) max_length) as [Hshort | Hlong].
  { split; [exists []; now rewrite app_nil_r|].
    split; [reflexivity|]. split; [lia|lia]. }
  cbv zeta.
  destruct (up_to_prefix max_length prompt) as [rest Hrest].
  destruct (last_punctuation (up_to max_length prompt)) as [i|] eqn:Hlast.
  - destruct (last_punctuation_found _ _ Hlast) as (c & Hc & Hp).
    split; [|split; [lia|split]].
    + exists (drop (i + 1) (up_to max_length prompt) ++ rest).
      now rewrite app_assoc, take_drop.
    + intros Hn. pose proof (up_to_length max_length prompt Hn).
      rewrite length_take. lia.
    + intros _.
      assert (Hex : existsb is_punctuation (up_to max_length prompt) = true).
      { apply existsb_exists. exists c. split; [|exact Hp].
        apply list_elem_of_In, list_elem_of_lookup. eauto. }
      rewrite Hex. exists (take i (up_to max_length prompt)), c.
      split; [|exact Hp]. rewrite Nat.add_1_r. now apply take_S_r.
  - split; [exists rest; exact Hrest|]. split; [lia|].
    split; [apply up_to_length|]. intros _.
    apply last_punctuation_none in Hlast.
    destruct (existsb is_punctuation (up_to max_length prompt)) eqn:Hex;
      [|reflexivity].
    apply existsb_exists in Hex as (c & Hin & Hp).
    rewrite forallb_forall in Hlast. specialize (Hlast c Hin).
    rewrite Hp in Hlast. discriminate.
Qed.
End Truncation.

(* ===================================================================== *)
(** ** The properties above at sample inputs *)
(* ===================================================================== *)

(** X18 at [Sample.cover_then_section], regenerating the section
    images, with nothing recovered. *)
Lemma by_kind_regenerates_that_kind_witness :
  exists plan,
    Regenerate.create_regenerate_plan [] Sample.cover_then_section
      (Regenerate.filter_images_to_regenerate [] Sample.cover_then_section
         None (Some (Py.lit "section")) false)
    = Some plan
    /\ Regenerate.regenerate plan
       = omap (fun '(i, d) =>
                 if Py.str_eqb (Analyzer.image_type d) (Py.lit "section")
                 then Some (Regenerate.slot_of i d) else None)
              (imap pair Sample.cover_then_section)
    /\ Forall (fun k => exists d,
                 Sample.cover_then_section !! Regenerate.kept_index k = Some d
                 /\ Analyzer.image_type d <> Py.lit "section")
         (Regenerate.keep plan)
    /\ Forall (fun s => Regenerate.slot_image_type s <> Py.lit "section")
         (Regenerate.missing plan).
Proof.
  apply (by_kind_regenerates_that_kind [] Sample.cover_then_section
           (Py.lit "section") false).
  vm_compute. discriminate.
Defined.

(** X20 at [Sample.two_diagrams]: two section diagrams, numbered 0
    and 1. *)
Lemma diagrams_are_numbered_by_kind_witness :
  List.map Regenerate.index
    (List.filter (fun img => negb (Regenerate.is_failed img)
                             && Py.str_eqb (Regenerate.image_type img)
                                  (Py.lit "section"))
       Sample.recovered_diagrams)
  = List.map Z.of_nat
      (seq 0 (length
         (List.filter (fun img => negb (Regenerate.is_failed img)
                                  && Py.str_eqb (Regenerate.image_type img)
                                       (Py.lit "section"))
            Sample.recovered_diagrams))).
Proof.
  apply (diagrams_are_numbered_by_kind Py.caseless Sample.two_diagrams
           Sample.recovered_diagrams Sample.two_diagrams (Py.lit "section")).
  vm_compute. reflexivity.
Defined.

(** X21 at [Sample.titled_document]. *)
Lemma flagged_elements_follow_decisions_witness :
  Run.flagged_positions
    (Analyzer.doc_elements
       (Analyzer.analyze_state (Py.lit "zhipu") Sample.h2_always
          Sample.no_ab_test Sample.content_as_prompt (Py.lit "normal")
          Sample.titled_document))
  = List.map Analyzer.element_index
      (Analyzer.decisions
         (Analyzer.analyze_state (Py.lit "zhipu") Sample.h2_always
            Sample.no_ab_test Sample.content_as_prompt (Py.lit "normal")
            Sample.titled_document)).
Proof.
  apply (flagged_elements_follow_decisions (Py.lit "zhipu") Sample.h2_always
           Sample.no_ab_test Sample.content_as_prompt (Py.lit "normal")
           Sample.titled_document).
  - vm_compute. repeat constructor.
  - left. vm_compute. reflexivity.
Defined.

(** X24 at the first diagram of [Sample.two_diagrams]. *)
Lemma recovered_diagrams_parse_back_witness :
  exists mermaid_code,
    Regenerate.image_path Sample.first_diagram
    = Assembler._format_as_mermaid_block mermaid_code
        (Regenerate.image_type Sample.first_diagram)
    /\ Assembler.parse_mermaid_code (Regenerate.image_path Sample.first_diagram)
       = (Some (Regenerate.image_type Sample.first_diagram), Some mermaid_code).
Proof.
  apply (recovered_diagrams_parse_back Py.caseless Sample.two_diagrams
           Sample.recovered_diagrams Sample.two_diagrams Sample.first_diagram).
  - vm_compute. reflexivity.
  - vm_compute. left. reflexivity.
  - vm_compute. reflexivity.
Defined.

(* ===================================================================== *)
(** ** Sections long enough for an image *)
(* ===================================================================== *)

Section SectionLength.
Import Py Parser Analyzer Sections.
#[local] Open Scope Z_scope.

Lemma section_words_total following : forall total_words,
  total_words <= 100 ->
  section_words following total_words
  = (100 <? total_words
           + Z.of_nat (sum_list
               (word_count <$> List.filter (is_type (lit "paragraph"))
                  (collect (fun e => negb (is_type (lit "heading") e))
                     following)))).
Proof.
  induction following as [|element rest IH]; intros total_words Hle;
    cbn [section_words collect].
  - cbn. symmetry. apply Z.ltb_ge. lia.
  - destruct (is_type (lit "heading") element) eqn:Hhead; cbn [negb].
    + cbn. symmetry. apply Z.ltb_ge. lia.
    + cbn [List.filter].
      destruct (is_type (lit "paragraph") element) eqn:Hpar.
      * cbn [fmap list_fmap sum_list sum_list_with].
        fold (@fmap list _ _ _ word_count).
        destruct (Z.ltb_spec 100 (total_words + Z.of_nat (word_count element)))
          as [Hover | Hunder].
        -- symmetry. apply Z.ltb_lt. unfold id. lia.
        -- rewrite (IH _ Hunder). f_equal. unfold id. lia.
      * destruct (Z.ltb_spec 100 total_words) as [Hover | Hunder]; [lia|].
        now rewrite (IH _ Hunder).
Qed.

(** X27. The smart rule for level-2 headings.
    [_should_add_section_image] holds exactly when the paragraphs
    between the heading and the next heading of any level (or the end
    of the document) hold more than 100 characters that are not
    whitespace in all; lists, code, quotes and tables in the section
    do not count. *)
Theorem section_image_needs_over_100_characters elems heading_index :
  _should_add_section_image elems heading_index
  = (100 <? Z.of_nat (section_length elems heading_index)).
Proof.
  unfold _should_add_section_image, section_length, section_of.
  now rewrite section_words_total by lia.
Qed.
End SectionLength.

(* ===================================================================== *)
(** ** Regenerating what failed *)
(* ===================================================================== *)

Section OnlyFailed.
Import Py Regenerate.
#[local] Open Scope Z_scope.

(** X28. Regenerating what failed keeps nothing that failed.  With
    [regenerate_failed] and no other selector, no entry of the plan's
    [keep] bucket bears the ordinal of a recovered image that is marked
    failed: every such ordinal below [len(decisions)] is in
    [regenerate]. *)
Theorem only_failed_keeps_no_failed_image existing_images decisions
    regenerate_type :
  truthy regenerate_type = false ->
  exists plan,
    create_regenerate_plan existing_images decisions
      (filter_images_to_regenerate existing_images decisions
         None regenerate_type true)
    = Some plan
    /\ Forall (fun k => forall img,
                 img ∈ existing_images ->
                 index img = Z.of_nat (kept_index k) ->
                 is_failed img = false) (keep plan)
    /\ forall img i d,
         img ∈ existing_images -> is_failed img = true ->
         index img = Z.of_nat i -> decisions !! i = Some d ->
         slot_of i d ∈ regenerate plan.
Proof.
  intros Hty. unfold create_regenerate_plan. rewrite plan_loop_buckets.
  eexists. split; [reflexivity|]. cbn [keep regenerate missing app].
  set (selection := filter_images_to_regenerate _ _ _ _ _).
  assert (Hsel : forall img i d,
            img ∈ existing_images -> is_failed img = true ->
            index img = Z.of_nat i -> decisions !! i = Some d ->
            selected selection i = true).
  { intros img i d Hin Hf Hidx Hd. apply selected_elem. unfold selection.
    rewrite selection_elem. cbn match. rewrite Hty.
    exists img. apply lookup_lt_Some in Hd. repeat split; auto. lia. }
  split.
  - apply Forall_forall. intros k Hk.
    apply list_elem_of_omap in Hk as ([i d] & Hin & Hk).
    apply elem_of_lookup_imap_1 in Hin as (i' & d' & [= -> ->] & Hi).
    destruct (selected selection i') eqn:Hs; [discriminate|].
    destruct (List.find _ existing_images); [|discriminate].
    injection Hk as <-. cbn [kept_index]. intros img Himg Hidx.
    destruct (is_failed img) eqn:Hf; [|reflexivity].
    rewrite (Hsel img i' d' Himg Hf Hidx Hi) in Hs. discriminate.
  - intros img i d Himg Hf Hidx Hd.
    apply list_elem_of_omap. exists (i, d). split.
    + apply elem_of_lookup_imap. exists i, d. auto.
    + now rewrite (Hsel img i d Himg Hf Hidx Hd).
Qed.
End OnlyFailed.

(** X28 at a failed cover and a section image in place. *)
Lemma only_failed_keeps_no_failed_image_witness :
  exists plan,
    Regenerate.create_regenerate_plan
      [Sample.failed_cover; Sample.section_in_place] Sample.cover_then_section
      (Regenerate.filter_images_to_regenerate
         [Sample.failed_cover; Sample.section_in_place]
         Sample.cover_then_section None None true)
    = Some plan
    /\ Forall (fun k => forall img,
                 img ∈ [Sample.failed_cover; Sample.section_in_place] ->
                 Regenerate.index img = Z.of_nat (Regenerate.kept_index k) ->
                 Regenerate.is_failed img = false) (Regenerate.keep plan)
    /\ forall img i d,
         img ∈ [Sample.failed_cover; Sample.section_in_place] ->
         Regenerate.is_failed img = true ->
         Regenerate.index img = Z.of_nat i ->
         Sample.cover_then_section !! i = Some d ->
         Regenerate.slot_of i d ∈ Regenerate.regenerate plan.
Proof.
  apply (only_failed_keeps_no_failed_image
           [Sample.failed_cover; Sample.section_in_place]
           Sample.cover_then_section None).
  reflexivity.
Defined.

(* ===================================================================== *)
(** ** Heading lines *)
(* ===================================================================== *)

Section GreedyStops.
Import Py Re Greedy.
Context {A : Type}.

Lemma star_stops (P : N -> bool) s1 s2 : forall acc (k : str -> str -> option A) v,
  forallb P s1 = true -> stops P s2 ->
  k (acc ++ s1) s2 = Some v ->
  star P acc (s1 ++ s2) k = Some v.
Proof.
  induction s1 as [|c s1 IH]; intros acc k v Hall Hstop Hk.
  - rewrite app_nil_r in Hk. cbn [app].
    destruct s2 as [|c s2]; cbn [star]; [exact Hk|].
    cbn in Hstop. now rewrite Hstop.
  - cbn in Hall. apply andb_prop in Hall as [Hc Hs1].
    cbn [app star]. rewrite Hc.
    rewrite (IH (acc ++ [c]) k v Hs1 Hstop); [reflexivity|].
    now rewrite <- app_assoc.
Qed.

Lemma at_least_stops (P : N -> bool) n : forall s1 s2 acc (k : str -> str -> option A) v,
  forallb P s1 = true -> stops P s2 -> (n <= length s1)%nat ->
  k (acc ++ s1) s2 = Some v ->
  at_least P n acc (s1 ++ s2) k = Some v.
Proof.
  induction n as [|n IH]; intros s1 s2 acc k v Hall Hstop Hlen Hk; cbn [at_least].
  - now apply star_stops.
  - destruct s1 as [|c s1]; cbn in Hlen; [lia|].
    cbn in Hall. apply andb_prop in Hall as [Hc Hs1].
    cbn [app]. rewrite Hc. apply IH; auto; [lia|]. now rewrite <- app_assoc.
Qed.

Lemma at_most_stops (P : N -> bool) hi : forall s1 s2 acc (k : str -> str -> option A) v,
  forallb P s1 = true -> stops P s2 -> (length s1 <= hi)%nat ->
  k (acc ++ s1) s2 = Some v ->
  at_most P hi acc (s1 ++ s2) k = Some v.
Proof.
  induction hi as [|hi IH]; intros s1 s2 acc k v Hall Hstop Hlen Hk.
  - destruct s1; cbn in Hlen; [|lia]. rewrite app_nil_r in Hk.
    cbn [app]. now destruct s2.
  - destruct s1 as [|c s1].
    + rewrite app_nil_r in Hk. cbn [app].
      destruct s2 as [|c s2]; cbn [at_most]; [exact Hk|].
      cbn in Hstop. now rewrite Hstop.
    + cbn in Hall. apply andb_prop in Hall as [Hc Hs1]. cbn in Hlen.
      cbn [app at_most]. rewrite Hc.
      rewrite (IH s1 s2 (acc ++ [c]) k v Hs1 Hstop); [reflexivity | lia |].
      now rewrite <- app_assoc.
Qed.

Lemma between_stops (P : N -> bool) lo : forall hi s1 s2 acc (k : str -> str -> option A) v,
  forallb P s1 = true -> stops P s2 -> (lo <= length s1 <= hi)%nat ->
  k (acc ++ s1) s2 = Some v ->
  between P lo hi acc (s1 ++ s2) k = Some v.
Proof.
  induction lo as [|lo IH]; intros hi s1 s2 acc k v Hall Hstop Hlen Hk;
    cbn [between].
  - apply at_most_stops; auto. lia.
  - destruct s1 as [|c s1]; cbn in Hlen; [lia|].
    cbn in Hall. apply andb_prop in Hall as [Hc Hs1].
    cbn [app]. rewrite Hc. apply IH; auto; [lia|]. now rewrite <- app_assoc.
Qed.
End GreedyStops.

Section HeadingLines.
Import Py Re Parser.
Variable U : unicodedata.

Lemma hashes_all k : forallb (only (ch "#")) (replicate k (ch "#")) = true.
Proof. induction k; [reflexivity | exact IHk]. Qed.

Lemma no_newline_dot s : NL ∉ s -> forallb dot s = true.
Proof.
  induction s as [|c s IH]; [reflexivity|]. intros Hnl.
  apply not_elem_of_cons in Hnl as [Hc Hs]. cbn [forallb].
  rewrite (IH Hs), andb_true_r. unfold dot.
  destruct (N.eqb_spec c NL); [congruence | reflexivity].
Qed.

(** A line of one to six hashes, a space, and a text that starts with
    a character other than whitespace and holds no newline matches
    [HEADING_PATTERN], with the hashes and the text as its groups. *)
Lemma HEADING_PATTERN_hashes k c text :
  (1 <= k <= 6)%nat -> isspace c = false -> NL ∉ c :: text ->
  HEADING_PATTERN (replicate k (ch "#") ++ ch " " :: c :: text)
  = Some (replicate k (ch "#"), c :: text).
Proof.
  intros Hk Hc Hnl. unfold HEADING_PATTERN.
  apply between_stops; [apply hashes_all | reflexivity
                        | now rewrite length_replicate |].
  cbn [app]. unfold plus.
  apply (at_least_stops isspace 1 [ch " "] (c :: text));
    [reflexivity | exact Hc | cbn; lia |].
  cbn [app].
  rewrite <- (app_nil_r (c :: text)) at 1.
  apply (at_least_stops dot 1 (c :: text) []);
    [now apply no_newline_dot | exact I | cbn; lia |].
  reflexivity.
Qed.

(** X29. Heading lines.  A line made of one to six hashes, one space,
    and a text that starts with a character other than whitespace and
    holds no newline is parsed as a heading: its level is the number
    of hashes, its content the text as written (trailing blanks
    included), and it takes one line. *)
Theorem heading_line_is_a_heading lines index k c text :
  (1 <= k <= 6)%nat -> isspace c = false -> NL ∉ c :: text ->
  let line : str := replicate k (ch "#") ++ ch " " :: c :: text in
  lines !! index = Some line ->
  _parse_line U lines index
  = Some (Some (new_element HEADING (c :: text) k line), 1%nat).
Proof.
  intros Hk Hc Hnl line Hline. unfold _parse_line. rewrite Hline.
  assert (Hblank : matched (EMPTY_PATTERN line) = false).
  { subst line. destruct k as [|k]; [lia|]. cbn [replicate app].
    unfold EMPTY_PATTERN. cbn [star].
    replace (isspace (ch "#")) with false by reflexivity.
    unfold at_end. cbn [dollar].
    now destruct (replicate k (ch "#") ++ ch " " :: c :: text) eqn:Hrest;
      [destruct k; discriminate|]. }
  rewrite Hblank. subst line.
  rewrite (HEADING_PATTERN_hashes k c text Hk Hc Hnl).
  now rewrite length_replicate.
Qed.
End HeadingLines.

(** X29 at a level-2 heading. *)
Lemma heading_line_is_a_heading_witness :
  Parser._parse_line Py.caseless [Py.lit "## Background "] 0
  = Some (Some (Parser.new_element Parser.HEADING (Py.lit "Background ") 2
                  (Py.lit "## Background ")), 1%nat).
Proof.
  apply (heading_line_is_a_heading Py.caseless [Py.lit "## Background "] 0 2
           (Parser.ch "B") (Py.lit "ackground ")).
  - lia.
  - reflexivity.
  - intros Hin. vm_compute in Hin.
    repeat (apply elem_of_cons in Hin as [Hin | Hin]; [discriminate|]).
    inversion Hin.
  - reflexivity.
Defined.

(* ===================================================================== *)
(** ** Regenerating what failed, from a previous output *)
(* ===================================================================== *)

Section OnlyFailedOnFiles.
Import Py Regenerate.
#[local] Open Scope Z_scope.

Lemma recovered_all U file imgs lines' :
  parse_existing_images U (Some file) = Some (imgs, lines') ->
  Forall (fun img =>
            (is_failed img = true /\ image_path img = [])
            \/ (is_failed img = false
                /\ startswith (lit "MERMAID_CODE:") (image_path img) = true))
         imgs.
Proof.
  unfold parse_existing_images.
  destruct (run U file (imap pair file) initial) as [st|] eqn:Hrun;
    [|discriminate].
  intros [= <- <-]. apply (run_appends U _ _ _ _ Hrun). constructor.
Qed.

Lemma only_failed_keeps_diagrams U file decisions plan k :
  parse_for_regeneration U (Some file) decisions None None true = Some plan ->
  In k (keep plan) ->
  startswith (lit "MERMAID_CODE:") (kept_image_path k) = true.
Proof.
  unfold parse_for_regeneration.
  destruct (parse_existing_images U (Some file)) as [[imgs lines']|] eqn:Hparse;
    [|discriminate].
  pose proof (recovered_all U file imgs lines' Hparse) as Hall.
  rewrite Forall_forall in Hall.
  unfold create_regenerate_plan. rewrite plan_loop_buckets.
  intros [= <-]. cbn [keep app]. intros Hk.
  apply list_elem_of_In, list_elem_of_omap in Hk as ([i d] & Hin & Hk).
  apply elem_of_lookup_imap_1 in Hin as (i' & d' & [= -> ->] & Hi).
  destruct (selected _ i') eqn:Hsel; [discriminate|].
  destruct (List.find _ imgs) as [img|] eqn:Hfind; [|discriminate].
  injection Hk as <-. cbn [kept_image_path].
  apply find_some in Hfind as [Himg Hidx]. apply Z.eqb_eq in Hidx.
  apply list_elem_of_In in Himg.
  destruct (Hall img Himg) as [[Hf _] | [_ Hpath]]; [|exact Hpath].
  assert (selected (filter_images_to_regenerate imgs decisions None None true) i'
          = true); [|congruence].
  apply selected_elem. rewrite selection_elem. cbn match. cbn [truthy].
  exists img. apply lookup_lt_Some in Hi. repeat split; auto. lia.
Qed.
End OnlyFailedOnFiles.

(** C4.  A previous output in which the cover failed and the section
    image is in place, reconciled against a cover decision and a
    section decision with the [only_failed] selector.  In
    [Sample.previous_output] the failure marker stands under the title
    and nothing is recovered: both decisions are reported missing.  In
    [Sample.labelled_failure] the marker stands under the cover label
    and is recovered as a failed cover, which is regenerated; the
    section decision is still reported missing and nothing is kept.
    And on no file does this selector keep an image reference: the path
    of every kept entry is the marker of a diagram block. *)
Theorem only_failed_never_keeps_an_image_reference :
  Regenerate.parse_for_regeneration Py.caseless (Some Sample.previous_output)
    Sample.cover_then_section None None true
  = Some {| Regenerate.keep := [];
            Regenerate.regenerate := [];
            Regenerate.missing :=
              [ Regenerate.slot_of 0 (Sample.decision 0 "cover");
                Regenerate.slot_of 1 (Sample.decision 1 "section") ] |}
  /\ Regenerate.parse_for_regeneration Py.caseless
       (Some Sample.labelled_failure) Sample.cover_then_section None None true
     = Some {| Regenerate.keep := [];
               Regenerate.regenerate :=
                 [ Regenerate.slot_of 0 (Sample.decision 0 "cover") ];
               Regenerate.missing :=
                 [ Regenerate.slot_of 1 (Sample.decision 1 "section") ] |}
  /\ forall U file decisions plan k,
       Regenerate.parse_for_regeneration U (Some file) decisions
         None None true = Some plan ->
       In k (Regenerate.keep plan) ->
       Py.startswith (Py.lit "MERMAID_CODE:") (Regenerate.kept_image_path k)
       = true.
Proof.
  split; [vm_compute; reflexivity|].
  split; [vm_compute; reflexivity|].
  exact only_failed_keeps_diagrams.
Qed.

(* ===================================================================== *)
(** ** Plain lines become paragraphs *)
(* ===================================================================== *)

Section PlainLines.
Import Py Re Parser Lines.
Variable U : unicodedata.














End PlainLines.




